(** * CHORM: statement builder, aggregate/window builders, mapper,
    connection and cluster

    A shallow embedding of the Go package [chorm] (query builder,
    aggregate and window expression builders, struct mapper, the
    record-level operations of the connection, result rows and the node
    list of a cluster) together with the properties of its specification
    that were checked against the code, and further properties of the
    code.

    Conventions of the embedding:
    - a Go [string] is a [string] of bytes, [int] and the sized integers
      are [Z], a [float64] is its sign, mantissa and exponent
      ([spec_float]);
    - a method with a pointer receiver takes the receiver's state and
      gives back the state it leaves; chained calls compose these
      functions;
    - [database/sql] is a collaborator: the server is a function from the
      statements received so far and the current statement to an answer,
      and the terminal operations append what they send to a log;
    - the order in which [range] visits a map is left open: a map argument
      is given as the list of its entries in the order of the visit, or
      the order is a parameter;
    - a call returns a value, returns an error, or panics ([res]). *)

From Stdlib Require Import ZArith Lia Ascii String List Bool DecimalString.
From Stdlib Require Import Floats.SpecFloat.
From Stdlib Require DecimalPos DecimalFacts.
From stdpp Require Import base gmap strings list.

Local Open Scope Z_scope.

(** ** Go's [strings] package, byte-wise *)

Module strings.

(** [strings.Join(elems, sep)] *)
Fixpoint Join (elems : list string) (sep : string) : string :=
  match elems with
  | [] => EmptyString
  | a :: rest =>
      match rest with
      | [] => a
      | _ :: _ => a +:+ sep +:+ Join rest sep
      end
  end.

(** [strings.HasPrefix(s, prefix)] *)
Fixpoint HasPrefix (s p : string) : bool :=
  match p, s with
  | EmptyString, _ => true
  | String _ _, EmptyString => false
  | String a p', String b s' => if Ascii.eqb a b then HasPrefix s' p' else false
  end.

(** [strings.Contains(s, substr)] *)
Fixpoint Contains (s substr : string) : bool :=
  if HasPrefix s substr then true
  else match s with
       | EmptyString => false
       | String _ s' => Contains s' substr
       end.

(** [s[n:]] for [n <= len(s)] *)
Fixpoint skip (n : nat) (s : string) : string :=
  match n, s with
  | O, _ => s
  | S _, EmptyString => EmptyString
  | S n', String _ s' => skip n' s'
  end.

(** [strings.Replace(s, old, new, 1)]: the first occurrence of [old] in
    [s] is replaced by [new]; [s] is returned as it is when [old] does
    not occur. *)
Fixpoint Replace1 (s old new : string) : string :=
  if HasPrefix s old then new +:+ skip (String.length old) s
  else match s with
       | EmptyString => EmptyString
       | String c s' => String c (Replace1 s' old new)
       end.

Definition upper_byte (c : ascii) : ascii :=
  let n := nat_of_ascii c in
  if ((97 <=? n) && (n <=? 122))%nat then ascii_of_nat (n - 32) else c.

Definition lower_byte (c : ascii) : ascii :=
  let n := nat_of_ascii c in
  if ((65 <=? n) && (n <=? 90))%nat then ascii_of_nat (n + 32) else c.

Fixpoint map_bytes (f : ascii -> ascii) (s : string) : string :=
  match s with
  | EmptyString => EmptyString
  | String c s' => String (f c) (map_bytes f s')
  end.

(** [strings.ToUpper] and [strings.ToLower] on ASCII text; bytes outside
    the ASCII letters are kept. *)
Definition ToUpper (s : string) : string := map_bytes upper_byte s.
Definition ToLower (s : string) : string := map_bytes lower_byte s.

End strings.

(** ** The formatting verbs of [fmt.Sprintf] that the package uses *)

Module fmt.

(** [%d] on an integer *)
Definition d (n : Z) : string := NilZero.string_of_int (Z.to_int n).

Definition digit (n : Z) : ascii := ascii_of_nat (48 + Z.to_nat n).

(** the decimal digits of [n >= 0], least significant first, exactly
    [k] of them *)
Fixpoint low_digits (k : nat) (n : Z) : list ascii :=
  match k with
  | O => []
  | S k' => digit (n mod 10) :: low_digits k' (n / 10)
  end.

Definition frac6 (n : Z) : string :=
  string_of_list_ascii (rev (low_digits 6 n)).

(** round to nearest, ties to even, of [m * 2^e * 10^6] for [m >= 0] *)
Definition scaled6 (m e : Z) : Z :=
  let num := m * 1000000 in
  if 0 <=? e then num * 2 ^ e
  else
    let den := 2 ^ (- e) in
    let q := num / den in
    let r := num mod den in
    if 2 * r <? den then q
    else if den <? 2 * r then q + 1
    else if Z.even q then q else q + 1.

(** a float64, as its sign, mantissa and exponent *)
Definition float64 := spec_float.

(** the float64 nearest to the decimal constant [n/d] *)
Definition float64_of (n d : positive) : float64 :=
  SFdiv 53 1024 (S754_finite false n 0) (S754_finite false d 0).

(** [%f] on a float64: six digits after the point, the exact binary value
    rounded to nearest even, as [strconv.FormatFloat(x, 'f', 6, 64)] *)
Definition f (x : float64) : string :=
  match x with
  | S754_nan => "NaN"
  | S754_infinity false => "+Inf"
  | S754_infinity true => "-Inf"
  | S754_zero s => (if s then "-" else EmptyString) +:+ "0.000000"
  | S754_finite s m e =>
      let v := scaled6 (Zpos m) e in
      (if s then "-" else EmptyString) +:+ d (v / 1000000) +:+ "." +:+ frac6 (v mod 1000000)
  end.

End fmt.

(** number of placeholder markers ['?'] in a piece of statement text *)
Fixpoint placeholders (s : string) : nat :=
  match s with
  | EmptyString => O
  | String c s' => ((if Ascii.eqb c "?" then 1 else 0) + placeholders s')%nat
  end.

(** [s] is not the empty string *)
Definition nonempty (s : string) : bool := negb (String.eqb s EmptyString).

(** ** Run-time types and values (the part of [reflect] the package uses) *)

Module reflect.

Inductive Kind :=
| KInvalid | KBool
| KInt | KInt8 | KInt16 | KInt32 | KInt64
| KUint | KUint8 | KUint16 | KUint32 | KUint64 | KUintptr
| KFloat32 | KFloat64 | KComplex64 | KComplex128
| KArray | KChan | KFunc | KInterface | KMap | KPtr | KSlice
| KString | KStruct | KUnsafePointer.

(** [Kind.String()] *)
Definition kind_name (k : Kind) : string :=
  match k with
  | KInvalid => "invalid" | KBool => "bool"
  | KInt => "int" | KInt8 => "int8" | KInt16 => "int16"
  | KInt32 => "int32" | KInt64 => "int64"
  | KUint => "uint" | KUint8 => "uint8" | KUint16 => "uint16"
  | KUint32 => "uint32" | KUint64 => "uint64" | KUintptr => "uintptr"
  | KFloat32 => "float32" | KFloat64 => "float64"
  | KComplex64 => "complex64" | KComplex128 => "complex128"
  | KArray => "array" | KChan => "chan" | KFunc => "func"
  | KInterface => "interface" | KMap => "map" | KPtr => "ptr"
  | KSlice => "slice" | KString => "string" | KStruct => "struct"
  | KUnsafePointer => "unsafe.Pointer"
  end.

(** A [reflect.Type].  A scalar type is known by its kind and its
    [String()] (so [type Age uint8] differs from [uint8]); a struct type
    used as a field type is known by its [String()], e.g. ["time.Time"]. *)
Inductive Type_ :=
| Scalar (k : Kind) (name : string)
| SliceOf (elem : Type_)
| ArrayOf (len : Z) (elem : Type_)
| PtrTo (elem : Type_)
| StructT (name : string)
| OtherT (k : Kind) (name : string).

Definition KindOf (t : Type_) : Kind :=
  match t with
  | Scalar k _ => k
  | SliceOf _ => KSlice
  | ArrayOf _ _ => KArray
  | PtrTo _ => KPtr
  | StructT _ => KStruct
  | OtherT k _ => k
  end.

(** [Type.String()] *)
Fixpoint type_string (t : Type_) : string :=
  match t with
  | Scalar _ name => name
  | SliceOf e => "[]" +:+ type_string e
  | ArrayOf n e => "[" +:+ fmt.d n +:+ "]" +:+ type_string e
  | PtrTo e => "*" +:+ type_string e
  | StructT name => name
  | OtherT _ name => name
  end.

Definition kind_eqb (a b : Kind) : bool :=
  String.eqb (kind_name a) (kind_name b).

Fixpoint type_eqb (a b : Type_) : bool :=
  match a, b with
  | Scalar k n, Scalar k' n' => kind_eqb k k' && String.eqb n n'
  | SliceOf e, SliceOf e' => type_eqb e e'
  | ArrayOf l e, ArrayOf l' e' => Z.eqb l l' && type_eqb e e'
  | PtrTo e, PtrTo e' => type_eqb e e'
  | StructT n, StructT n' => String.eqb n n'
  | OtherT k n, OtherT k' n' => kind_eqb k k' && String.eqb n n'
  | _, _ => false
  end.

(** the predeclared types *)
Definition bool_t := Scalar KBool "bool".
Definition int_t := Scalar KInt "int".
Definition int8_t := Scalar KInt8 "int8".
Definition int16_t := Scalar KInt16 "int16".
Definition int32_t := Scalar KInt32 "int32".
Definition int64_t := Scalar KInt64 "int64".
Definition uint_t := Scalar KUint "uint".
Definition uint8_t := Scalar KUint8 "uint8".
Definition uint16_t := Scalar KUint16 "uint16".
Definition uint32_t := Scalar KUint32 "uint32".
Definition uint64_t := Scalar KUint64 "uint64".
Definition float32_t := Scalar KFloat32 "float32".
Definition float64_t := Scalar KFloat64 "float64".
Definition string_t := Scalar KString "string".
Definition time_t := StructT "time.Time".

(** A value held in an [interface{}]: its dynamic type and its payload.
    [VNil] is the nil interface; [VOther] stands for values whose payload
    the package never inspects (structs, slices, maps, times, ...). *)
Inductive Value :=
| VNil
| VBool (t : Type_) (b : bool)
| VInt (t : Type_) (n : Z)
| VFloat (t : Type_) (x : fmt.float64)
| VStr (t : Type_) (s : string)
| VOther (t : Type_) (id : Z).

(** [reflect.TypeOf(v)]; [None] is the nil [Type] of a nil interface *)
Definition TypeOf (v : Value) : option Type_ :=
  match v with
  | VNil => None
  | VBool t _ | VInt t _ | VFloat t _ | VStr t _ | VOther t _ => Some t
  end.

(** [reflect.StructField]: [PkgPath] is empty exactly for exported
    fields; [Tag] is the struct tag as its key/value pairs; [Anonymous]
    marks an embedded field, whose [Name] is the name of its type. *)
Record StructField := {
  Name : string;
  PkgPath : string;
  FType : Type_;
  Tag : list (string * string);
  Anonymous : bool
}.

(** [StructTag.Get(key)] *)
Fixpoint Get (tag : list (string * string)) (key : string) : string :=
  match tag with
  | [] => EmptyString
  | (k, v) :: rest => if String.eqb k key then v else Get rest key
  end.

(** A struct type: [Name()], [String()] and the declared fields, as
    [NumField] and [Field(i)] give them.  The fields of an embedded
    struct are not part of the model. *)
Record StructType := {
  TName : string;
  TString : string;
  Fields : list StructField
}.

(** a struct type without embedded fields: the names that
    [FieldByName] resolves are those of its declared fields, and no
    selector goes through an embedded pointer *)
Definition flat (T : StructType) : bool :=
  forallb (fun f => negb (Anonymous f)) (Fields T).

(** A struct value: its type and one value per declared field. *)
Record Struct := {
  typ : StructType;
  vals : list Value
}.

(** What an [interface{}] argument can hold, as far as the package looks
    into it: the nil interface, a non-struct value, a struct value, or a
    pointer.  A nil pointer carries the zero value of its element type as
    [target], which gives [Type().Elem()]. *)
Inductive Object :=
| ONil
| OVal (v : Value)
| OStruct (s : Struct)
| OPtr (isnil : bool) (target : Object).

(** An [interface{}] argument together with the result of the type
    assertion [model.(Model)]: [Some name] when the dynamic type has a
    [TableName] method, which returns [name]. *)
Record Iface := {
  obj : Object;
  tableName : option string
}.

Definition ObjKind (o : Object) : Kind :=
  match o with
  | ONil => KInvalid
  | OVal v => match TypeOf v with Some t => KindOf t | None => KInvalid end
  | OStruct _ => KStruct
  | OPtr _ _ => KPtr
  end.

(** [Value.Elem()] of a pointer; the zero [Value] for a nil pointer *)
Definition Elem (o : Object) : Object :=
  match o with
  | OPtr false t => t
  | _ => ONil
  end.

End reflect.

(** ** [strconv] *)

Module strconv.

Definition is_digit (c : ascii) : bool :=
  let n := nat_of_ascii c in ((48 <=? n) && (n <=? 57))%nat.

Fixpoint digits_value (acc : Z) (s : string) : option Z :=
  match s with
  | EmptyString => Some acc
  | String c s' =>
      if is_digit c
      then digits_value (10 * acc + Z.of_nat (nat_of_ascii c - 48)) s'
      else None
  end.

(** [strconv.ParseUint(s, 10, 64)]; [None] stands for a non-nil error *)
Definition ParseUint (s : string) : option Z :=
  match s with
  | EmptyString => None
  | _ => match digits_value 0 s with
         | Some n => if n <? 2 ^ 64 then Some n else None
         | None => None
         end
  end.

(** [strconv.ParseInt(s, 10, 64)] *)
Definition ParseInt (s : string) : option Z :=
  match s with
  | EmptyString => None
  | String c rest =>
      let '(neg, body) :=
        if Ascii.eqb c "+" then (false, rest)
        else if Ascii.eqb c "-" then (true, rest)
        else (false, s) in
      match body with
      | EmptyString => None
      | _ => match digits_value 0 body with
             | Some n =>
                 if neg then (if n <=? 2 ^ 63 then Some (- n) else None)
                 else (if n <? 2 ^ 63 then Some n else None)
             | None => None
             end
      end
  end.

(** [strconv.ParseBool(s)] *)
Definition ParseBool (s : string) : option bool :=
  if existsb (String.eqb s) ["1"; "t"; "T"; "TRUE"; "true"; "True"] then Some true
  else if existsb (String.eqb s) ["0"; "f"; "F"; "FALSE"; "false"; "False"] then Some false
  else None.

End strconv.

(** ** The package's types (types.go) *)

(** Go's [error]: [None] is nil, [Some msg] an error whose [Error()] is
    [msg]; [fmt.Errorf("...: %w", err)] prefixes the message. *)
Definition error := option string.

(** The result of a call that returns a value or an error, or panics. *)
Inductive res (A : Type) :=
| Ok (a : A)
| Err (msg : string)
| Panic (msg : string).
Arguments Ok {A} a.
Arguments Err {A} msg.
Arguments Panic {A} msg.

Definition TypeUInt32 := "UInt32".
Definition TypeUInt64 := "UInt64".
Definition TypeInt32 := "Int32".
Definition TypeInt64 := "Int64".
Definition TypeFloat32 := "Float32".
Definition TypeFloat64 := "Float64".
Definition TypeString := "String".
Definition TypeDateTime := "DateTime".
Definition TypeBoolean := "Boolean".
Definition EngineMergeTree := "MergeTree".

Module FieldInfo.
Record t := {
  Name : string;
  Type_ : string;
  Tag : string;
  IsPK : bool;
  IsAuto : bool;
  Nullable : bool
}.
End FieldInfo.

Module TableInfo.
Record t := {
  Name : string;
  Fields : list FieldInfo.t;
  Engine : string;
  Options : gmap string string
}.
End TableInfo.

(** [Result] of an executed statement *)
Record Result := {
  LastInsertID : Z;
  RowsAffected : Z
}.

(** ** The mapper *)

Module Mapper.
Import reflect.

(** [Mapper]: the registry of derived tables, by table name *)
Record t := {
  registry : gmap string TableInfo.t
}.

Definition NewMapper : t := {| registry := ∅ |}.

(** [goTypeToClickHouseType] *)
Fixpoint goTypeToClickHouseType (typ : Type_) : string :=
  match typ with
  | SliceOf elem | ArrayOf _ elem =>
      "Array(" +:+ goTypeToClickHouseType elem +:+ ")"
  | StructT name =>
      if String.eqb name "time.Time" then TypeDateTime else TypeString
  | Scalar k _ | OtherT k _ =>
      match k with
      | KBool => TypeBoolean
      | KInt | KInt8 | KInt16 | KInt32 => TypeInt32
      | KInt64 => TypeInt64
      | KUint | KUint8 | KUint16 | KUint32 => TypeUInt32
      | KUint64 => TypeUInt64
      | KFloat32 => TypeFloat32
      | KFloat64 => TypeFloat64
      | KString => TypeString
      | _ => TypeString
      end
  | PtrTo _ => TypeString
  end.

(** [parseField] *)
Definition parseField (field : StructField) : FieldInfo.t * error :=
  let name :=
    let tag := Get (Tag field) "ch" in
    if nonempty tag then tag else Name field in
  let type :=
    let chType := Get (Tag field) "ch_type" in
    if nonempty chType then chType else goTypeToClickHouseType (FType field) in
  ({| FieldInfo.Name := name;
      FieldInfo.Type_ := type;
      FieldInfo.Tag := EmptyString;
      FieldInfo.IsPK := String.eqb (Get (Tag field) "ch_pk") "true";
      FieldInfo.IsAuto := String.eqb (Get (Tag field) "ch_auto") "true";
      FieldInfo.Nullable := String.eqb (Get (Tag field) "ch_nullable") "true" |},
   None).

(** [getTableName]: [typ.Field(0)] panics on a struct type without
    fields. *)
Definition getTableName (model : Iface) (typ : StructType) : res string :=
  match tableName model with
  | Some name => Ok name
  | None =>
      match Fields typ with
      | [] => Panic "reflect: Field index out of bounds"
      | field0 :: _ =>
          let tag := Get (Tag field0) "ch_table" in
          if nonempty tag then Ok tag
          else Ok (strings.ToLower (TName typ))
      end
  end.

(** the loop of [ParseStruct] over [typ.Field(i)], [i = 0 .. NumField-1] *)
Fixpoint parseFields (fields : list StructField) (acc : list FieldInfo.t)
  : res (list FieldInfo.t) :=
  match fields with
  | [] => Ok acc
  | field :: rest =>
      match parseField field with
      | (_, Some err) =>
          Err ("error parsing field " +:+ Name field +:+ ": " +:+ err)
      | (fieldInfo, None) =>
          parseFields rest
            (if nonempty (FieldInfo.Name fieldInfo) then acc ++ [fieldInfo] else acc)
      end
  end.

(** [ParseStruct]: the mapper after the call and what the call returns *)
Definition ParseStruct (m : t) (model : Iface) : t * res TableInfo.t :=
  let val := obj model in
  let val := match ObjKind val with KPtr => Elem val | _ => val end in
  match val with
  | OStruct s =>
      match getTableName model (typ s) with
      | Panic p => (m, Panic p)
      | Err e => (m, Err e)
      | Ok tableName =>
          match registry m !! tableName with
          | Some info => (m, Ok info)
          | None =>
              match parseFields (Fields (typ s)) [] with
              | Panic p => (m, Panic p)
              | Err e => (m, Err e)
              | Ok fields =>
                  let info := {| TableInfo.Name := tableName;
                                 TableInfo.Fields := fields;
                                 TableInfo.Engine := EngineMergeTree;
                                 TableInfo.Options := ∅ |} in
                  ({| registry := <[tableName := info]> (registry m) |}, Ok info)
              end
          end
      end
  | _ => (m, Err ("model must be a struct, got " +:+ kind_name (ObjKind val)))
  end.

(** [BuildCreateTableSQL]'s column definition of one field *)
Definition columnDef (field : FieldInfo.t) : string :=
  ("`" +:+ FieldInfo.Name field +:+ "` " +:+ FieldInfo.Type_ field)
  +:+ (if FieldInfo.IsPK field then " PRIMARY KEY" else EmptyString)
  +:+ (if FieldInfo.IsAuto field then " AUTO_INCREMENT" else EmptyString).

(** [BuildCreateTableSQL].  Go leaves the order in which [range] visits
    a map open: [range_map] is the order the run time picks for
    [info.Options]. *)
Definition BuildCreateTableSQL
    (range_map : gmap string string -> list (string * string))
    (info : TableInfo.t) : string :=
  let columns := map columnDef (TableInfo.Fields info) in
  let engine :=
    if nonempty (TableInfo.Engine info) then TableInfo.Engine info
    else EngineMergeTree in
  let sql :=
    "CREATE TABLE IF NOT EXISTS `" +:+ TableInfo.Name info +:+ "` (" +:+ String "010" "  "
    +:+ strings.Join columns ("," +:+ String "010" "  ")
    +:+ String "010" ") ENGINE = " +:+ engine in
  if (0 <? Z.of_nat (size (TableInfo.Options info)))
  then
    let options :=
      map (fun kv => fst kv +:+ " = " +:+ snd kv) (range_map (TableInfo.Options info)) in
    sql +:+ "(" +:+ strings.Join options ", " +:+ ")"
  else sql.

(** *** Field access *)

(** [uintN(x)] and [intN(x)]: the low [bits] bits of [x] *)
Definition wrap_unsigned (bits x : Z) : Z := x mod 2 ^ bits.
Definition wrap_signed (bits x : Z) : Z :=
  (x + 2 ^ (bits - 1)) mod 2 ^ bits - 2 ^ (bits - 1).

(** width of the integer kinds; [int] and [uint] are 64 bits wide *)
Definition int_bits (k : Kind) : Z :=
  match k with
  | KInt8 | KUint8 => 8
  | KInt16 | KUint16 => 16
  | KInt32 | KUint32 => 32
  | _ => 64
  end.

(** [float32(x)], round to nearest even *)
Definition to_float32 (x : fmt.float64) : fmt.float64 :=
  match x with
  | S754_finite s m e => binary_normalize 24 128 (cond_Zopp s (Zpos m)) e s
  | _ => x
  end.

Definition one_of (t : Type_) (ts : list Type_) : bool :=
  existsb (type_eqb t) ts.

(** [Value.FieldByName(name)] among the declared fields: the index and the
    field, [None] for the invalid [Value].  A declared field of that name
    is what [reflect] returns for every struct; for a name that is not
    declared [reflect] goes on to the fields promoted from embedded
    structs, which the model does not hold: [None] is the answer of
    [reflect] on [flat] struct types, and what is stated about names
    that are not declared is stated for them. *)
Fixpoint field_index (fields : list StructField) (name : string) (i : nat)
  : option (nat * StructField) :=
  match fields with
  | [] => None
  | field :: rest =>
      if String.eqb (Name field) name then Some (i, field)
      else field_index rest name (S i)
  end.

Definition FieldByName (s : Struct) (name : string) : option (nat * StructField) :=
  field_index (Fields (typ s)) name 0.

(** [GetFieldValue]: [field.Interface()] panics on a field that is not
    exported *)
Definition GetFieldValue (model : Iface) (fieldName : string) : res Value :=
  let val := obj model in
  let val := match ObjKind val with KPtr => Elem val | _ => val end in
  match val with
  | OStruct s =>
      match FieldByName s fieldName with
      | None => Err ("field " +:+ fieldName +:+ " not found")
      | Some (i, field) =>
          if nonempty (PkgPath field)
          then Panic ("reflect.Value.Interface: cannot return value obtained "
                      +:+ "from unexported field or method")
          else
            match vals s !! i with
            | Some v => Ok v
            | None => Ok VNil
            end
      end
  | _ => Err "model must be a struct"
  end.

Section SetField.

(** [strconv.ParseFloat(s, 64)] and the [%v] rendering of the values whose
    payload is not modelled are taken from the Go run time. *)
Variable ParseFloat : string -> option fmt.float64.
Variable SprintOther : Value -> string.

(** [fmt.Sprintf("%v", value)] *)
Definition Sprint (value : Value) : string :=
  match value with
  | VNil => "<nil>"
  | VBool t b =>
      if type_eqb t bool_t then (if b then "true" else "false") else SprintOther value
  | VInt t n =>
      if one_of t [int_t; int8_t; int16_t; int32_t; int64_t;
                   uint_t; uint8_t; uint16_t; uint32_t; uint64_t]
      then fmt.d n else SprintOther value
  | VStr t s => if type_eqb t string_t then s else SprintOther value
  | VFloat _ _ | VOther _ _ => SprintOther value
  end.

(** the inner type switch of the signed-integer case: the argument of
    [SetInt], when a case applies and the parse succeeds *)
Definition int_source (value : Value) : option Z :=
  match value with
  | VInt t n =>
      if one_of t [int64_t; int32_t; int16_t; int8_t] then Some n
      else if one_of t [uint64_t; uint32_t; uint16_t; uint8_t]
      then Some (wrap_signed 64 n)
      else None
  | VStr t v => if type_eqb t string_t then strconv.ParseInt v else None
  | _ => None
  end.

(** the inner type switch of the unsigned-integer case *)
Definition uint_source (value : Value) : option Z :=
  match value with
  | VInt t n =>
      if one_of t [uint64_t; uint32_t; uint16_t; uint8_t] then Some n
      else if one_of t [int64_t; int32_t; int16_t; int8_t]
      then Some (wrap_unsigned 64 n)
      else None
  | VStr t v => if type_eqb t string_t then strconv.ParseUint v else None
  | _ => None
  end.

(** the inner type switch of the floating-point case *)
Definition float_source (value : Value) : option fmt.float64 :=
  match value with
  | VFloat t x => if one_of t [float64_t; float32_t] then Some x else None
  | VStr t v => if type_eqb t string_t then ParseFloat v else None
  | _ => None
  end.

(** the inner type switch of the boolean case *)
Definition bool_source (value : Value) : option bool :=
  match value with
  | VBool t b => if type_eqb t bool_t then Some b else None
  | VStr t v => if type_eqb t string_t then strconv.ParseBool v else None
  | _ => None
  end.

(** [fieldType == valueType] *)
Definition same_type (fieldType : Type_) (valueType : option Type_) : bool :=
  match valueType with
  | Some t => type_eqb fieldType t
  | None => false
  end.

(** the value a field of type [fieldType] holds after the conversion
    switch of [SetFieldValue]; [None] when the switch writes nothing *)
Definition convert (fieldType : Type_) (value : Value) : option Value :=
  match KindOf fieldType with
  | KString => Some (VStr fieldType (Sprint value))
  | (KInt | KInt8 | KInt16 | KInt32 | KInt64) as k =>
      match int_source value with
      | Some x => Some (VInt fieldType (wrap_signed (int_bits k) x))
      | None => None
      end
  | (KUint | KUint8 | KUint16 | KUint32 | KUint64) as k =>
      match uint_source value with
      | Some x => Some (VInt fieldType (wrap_unsigned (int_bits k) x))
      | None => None
      end
  | KFloat32 =>
      match float_source value with
      | Some x => Some (VFloat fieldType (to_float32 x))
      | None => None
      end
  | KFloat64 =>
      match float_source value with
      | Some x => Some (VFloat fieldType x)
      | None => None
      end
  | KBool =>
      match bool_source value with
      | Some b => Some (VBool fieldType b)
      | None => None
      end
  | _ => None
  end.

Definition set_field (s : Struct) (i : nat) (v : Value) : Struct :=
  {| typ := typ s; vals := <[i := v]> (vals s) |}.

(** [SetFieldValue]: the model after the call and the returned error *)
Definition SetFieldValue (model : Iface) (fieldName : string) (value : Value)
  : Iface * error :=
  match obj model with
  | OPtr false (OStruct s) =>
      match FieldByName s fieldName with
      | None => (model, Some ("field " +:+ fieldName +:+ " not found"))
      | Some (i, field) =>
          if nonempty (PkgPath field)
          then (model, Some ("field " +:+ fieldName +:+ " is not settable"))
          else
            let fieldType := FType field in
            let store v :=
              {| obj := OPtr false (OStruct (set_field s i v));
                 tableName := tableName model |} in
            if same_type fieldType (TypeOf value)
            then (store value, None)
            else
              match convert fieldType value with
              | Some v => (store v, None)
              | None => (model, None)
              end
      end
  | _ => (model, Some "model must be a pointer to struct")
  end.

End SetField.



End Mapper.

(** ** The connection and its collaborator [database/sql] *)

Module DB.
Import reflect.

(** a statement handed to the driver: its text and positional arguments *)
Record Stmt := {
  text : string;
  params : list Value
}.

(** [*sql.Row]: the deferred error of the query, or the values of the
    first row *)
Inductive Row :=
| RowErr (msg : string)
| RowVals (values : list Value).

(** The server behind [*sql.DB]: its answer to a statement, given the
    statements it has received before. *)
Record Conn := {
  QueryRowContext : list Stmt -> Stmt -> Row;
  ExecContext : list Stmt -> Stmt -> Result + string
}.

Record t := {
  conn : Conn;
  Debug : bool
}.

(** the statements sent to the server so far, oldest first *)
Definition World := list Stmt.

(** [row.Scan(dest...)] with [n] destinations *)
Definition Scan (row : Row) (n : nat) : list Value + string :=
  match row with
  | RowErr msg => inr msg
  | RowVals values =>
      if (length values =? n)%nat then inl values
      else inr ("sql: expected " +:+ fmt.d (Z.of_nat (length values))
                +:+ " destination arguments in Scan, not " +:+ fmt.d (Z.of_nat n))
  end.

(** [scanRow]: [Ok tt] is the nil error.  The values written into the
    destination are not part of the model; filling a nil pointer panics
    at the first field. *)
Definition scanRow (row : Row) (result : Iface) : res unit :=
  match obj result with
  | OPtr isnil target =>
      match target with
      | OStruct s =>
          let temp := {| obj := OPtr false (OStruct s);
                         tableName := tableName result |} in
          match snd (Mapper.ParseStruct Mapper.NewMapper temp) with
          | Panic p => Panic p
          | Err e => Err ("failed to parse struct: " +:+ e)
          | Ok info =>
              match Scan row (length (TableInfo.Fields info)) with
              | inr e => Err ("failed to scan row: " +:+ e)
              | inl values =>
                  match isnil, TableInfo.Fields info with
                  | true, _ :: _ =>
                      Panic "reflect: call of reflect.Value.FieldByName on zero Value"
                  | _, _ => Ok tt
                  end
              end
          end
      | _ => Err "result must be a pointer to struct"
      end
  | _ => Err "result must be a pointer"
  end.

(** [QueryRow]: the statement goes to the server, then the row is
    scanned into [result] *)
Definition QueryRow (db : t) (w : World) (result : Iface)
    (query : string) (args : list Value) : World * res unit :=
  let stmt := {| text := query; params := args |} in
  let row := QueryRowContext (conn db) w stmt in
  (w ++ [stmt], scanRow row result).

(** [Exec] *)
Definition Exec (db : t) (w : World) (query : string) (args : list Value)
  : World * res Result :=
  let stmt := {| text := query; params := args |} in
  (w ++ [stmt],
   match ExecContext (conn db) w stmt with
   | inr e => Err ("failed to execute query: " +:+ e)
   | inl r => Ok r
   end).

(** *** Writing records and reading rows *)

(** [CreateTable]: a fresh mapper derives the descriptor, and the
    create-table text goes to the server without arguments;
    [range_map] is the order in which the run time visits the options *)
Definition CreateTable (range_map : gmap string string -> list (string * string))
    (db : t) (w : World) (model : Iface) : World * res unit :=
  match snd (Mapper.ParseStruct Mapper.NewMapper model) with
  | Panic p => (w, Panic p)
  | Err e => (w, Err ("failed to parse struct: " +:+ e))
  | Ok info =>
      let stmt := {| text := Mapper.BuildCreateTableSQL range_map info; params := [] |} in
      (w ++ [stmt],
       match ExecContext (conn db) w stmt with
       | inr e => Err ("failed to create table: " +:+ e)
       | inl _ => Ok tt
       end)
  end.






Section Materialize.

(** the [%v] rendering of the values whose payload is not modelled *)
Variable SprintOther : Value -> string.

(** the type switches of [setFieldValue]: the argument of [SetInt],
    [SetUint] and [SetFloat] when a case applies *)
Definition int_case (value : Value) : option Z :=
  match value with
  | VInt t n =>
      if Mapper.one_of t [int64_t; int32_t; int16_t; int8_t] then Some n
      else if Mapper.one_of t [uint64_t; uint32_t; uint16_t; uint8_t]
      then Some (Mapper.wrap_signed 64 n)
      else None
  | _ => None
  end.

Definition uint_case (value : Value) : option Z :=
  match value with
  | VInt t n =>
      if Mapper.one_of t [uint64_t; uint32_t; uint16_t; uint8_t] then Some n
      else if Mapper.one_of t [int64_t; int32_t; int16_t; int8_t]
      then Some (Mapper.wrap_unsigned 64 n)
      else None
  | _ => None
  end.

Definition float_case (value : Value) : option fmt.float64 :=
  match value with
  | VFloat t x => if Mapper.one_of t [float64_t; float32_t] then Some x else None
  | _ => None
  end.

Definition bool_case (value : Value) : option bool :=
  match value with
  | VBool t b => if type_eqb t bool_t then Some b else None
  | _ => None
  end.

(** what [setFieldValue] stores in a field of type [fieldType];
    [None] when it stores nothing *)
Definition stored (fieldType : Type_) (value : Value) : option Value :=
  match value with
  | VNil => None
  | _ =>
      match KindOf fieldType with
      | KString => Some (VStr fieldType (Mapper.Sprint SprintOther value))
      | (KInt | KInt8 | KInt16 | KInt32 | KInt64) as k =>
          match int_case value with
          | Some x => Some (VInt fieldType (Mapper.wrap_signed (Mapper.int_bits k) x))
          | None => None
          end
      | (KUint | KUint8 | KUint16 | KUint32 | KUint64) as k =>
          match uint_case value with
          | Some x => Some (VInt fieldType (Mapper.wrap_unsigned (Mapper.int_bits k) x))
          | None => None
          end
      | KFloat32 =>
          match float_case value with
          | Some x => Some (VFloat fieldType (Mapper.to_float32 x))
          | None => None
          end
      | KFloat64 =>
          match float_case value with
          | Some x => Some (VFloat fieldType x)
          | None => None
          end
      | KBool =>
          match bool_case value with
          | Some b => Some (VBool fieldType b)
          | None => None
          end
      | _ => None
      end
  end.

(** [setFieldValue] on a struct element: the element after the call *)
Definition setFieldValue (element : Struct) (fieldName : string) (value : Value)
  : Struct :=
  match Mapper.FieldByName element fieldName with
  | None => element
  | Some (i, field) =>
      if nonempty (PkgPath field) then element
      else
        match stored (FType field) value with
        | Some v => Mapper.set_field element i v
        | None => element
        end
  end.

(** the loops of [scanRow] and [scanRows] that hand the scanned values
    to [setFieldValue], one per name *)
Fixpoint fill (element : Struct) (names : list string) (values : list Value) : Struct :=
  match names, values with
  | name :: names', value :: values' =>
      fill (setFieldValue element name value) names' values'
  | _, _ => element
  end.


(** [*sql.Rows]: the column names or the error of [Columns], the outcome
    of [Scan] for each row [Next] delivers, and the error [Err] reports
    at the end *)
Record Rows := {
  Columns : list string + string;
  scans : list (list Value + string);
  RowsErr : option string
}.

(** the [result] argument of [Query] as [scanRows] looks at it: not a
    pointer to a slice; a pointer to a slice of structs of type [T] with
    the elements it holds; a pointer to a slice whose elements are of
    kind [k], not structs, with its length *)
Inductive Dest :=
| NotSlicePtr
| StructSlice (T : StructType) (elems : list Struct)
| OtherSlice (k : Kind) (len : nat).

(** the zero value of a type *)
Definition zero_value (t : Type_) : Value :=
  match KindOf t with
  | KBool => VBool t false
  | KInt | KInt8 | KInt16 | KInt32 | KInt64
  | KUint | KUint8 | KUint16 | KUint32 | KUint64 | KUintptr => VInt t 0
  | KFloat32 | KFloat64 => VFloat t (S754_zero false)
  | KString => VStr t EmptyString
  | _ => VOther t 0
  end.

(** [reflect.New(T).Elem()] for a struct type *)
Definition zero_struct (T : StructType) : Struct :=
  {| typ := T; vals := map (fun f => zero_value (FType f)) (Fields T) |}.

(** the loop of [scanRows] over the rows: every row is scanned, becomes
    a new element and is appended; a failing [Scan] ends the loop with
    the elements appended so far, and filling an element that is not a
    struct panics *)
Fixpoint scan_loop (columns : list string) (rows : list (list Value + string))
    (dest : Dest) : Dest * res unit :=
  match rows with
  | [] => (dest, Ok tt)
  | row :: rest =>
      match row with
      | inr e => (dest, Err ("failed to scan row: " +:+ e))
      | inl values =>
          match dest with
          | NotSlicePtr => (dest, Ok tt)
          | StructSlice T elems =>
              scan_loop columns rest
                (StructSlice T (elems ++ [fill (zero_struct T) columns values]))
          | OtherSlice k len =>
              match columns with
              | [] => scan_loop columns rest (OtherSlice k (S len))
              | _ :: _ =>
                  (dest, Panic ("reflect: call of reflect.Value.FieldByName on "
                                +:+ kind_name k +:+ " Value"))
              end
          end
      end
  end.

(** [scanRows] *)
Definition scanRows (rows : Rows) (result : Dest) : Dest * res unit :=
  match result with
  | NotSlicePtr => (result, Err "result must be a pointer to slice")
  | _ =>
      match Columns rows with
      | inr e => (result, Err ("failed to get columns: " +:+ e))
      | inl columns =>
          match scan_loop columns (scans rows) result with
          | (dest, Ok _) =>
              (dest, match RowsErr rows with Some e => Err e | None => Ok tt end)
          | other => other
          end
      end
  end.

(** the answer of the server to [QueryContext]: rows or an error *)
Variable QueryContext : list Stmt -> Stmt -> Rows + string.

(** [Query] *)
Definition Query (db : t) (w : World) (result : Dest)
    (query : string) (args : list Value) : World * Dest * res unit :=
  let stmt := {| text := query; params := args |} in
  match QueryContext w stmt with
  | inr e => (w ++ [stmt], result, Err ("failed to execute query: " +:+ e))
  | inl rows =>
      let '(dest, r) := scanRows rows result in
      (w ++ [stmt], dest, r)
  end.

End Materialize.

End DB.

(** ** The query builder *)

Module Query.
Import reflect.

Record t := {
  db : DB.t;
  table : string;
  selects : list string;
  wheres : list string;
  groupBy : list string;
  orderBy : list string;
  limit : Z;
  offset : Z;
  args : list Value;
  distinct : bool;
  having : list string;
  joins : list string
}.

(** assignments to one field of the builder *)
Definition set_table (v : string) (q : t) : t :=
  {| db := db q; table := v; selects := selects q; wheres := wheres q;
     groupBy := groupBy q; orderBy := orderBy q; limit := limit q;
     offset := offset q; args := args q; distinct := distinct q;
     having := having q; joins := joins q |}.
Definition set_selects (v : list string) (q : t) : t :=
  {| db := db q; table := table q; selects := v; wheres := wheres q;
     groupBy := groupBy q; orderBy := orderBy q; limit := limit q;
     offset := offset q; args := args q; distinct := distinct q;
     having := having q; joins := joins q |}.
Definition set_wheres (v : list string) (q : t) : t :=
  {| db := db q; table := table q; selects := selects q; wheres := v;
     groupBy := groupBy q; orderBy := orderBy q; limit := limit q;
     offset := offset q; args := args q; distinct := distinct q;
     having := having q; joins := joins q |}.
Definition set_groupBy (v : list string) (q : t) : t :=
  {| db := db q; table := table q; selects := selects q; wheres := wheres q;
     groupBy := v; orderBy := orderBy q; limit := limit q;
     offset := offset q; args := args q; distinct := distinct q;
     having := having q; joins := joins q |}.
Definition set_orderBy (v : list string) (q : t) : t :=
  {| db := db q; table := table q; selects := selects q; wheres := wheres q;
     groupBy := groupBy q; orderBy := v; limit := limit q;
     offset := offset q; args := args q; distinct := distinct q;
     having := having q; joins := joins q |}.
Definition set_limit (v : Z) (q : t) : t :=
  {| db := db q; table := table q; selects := selects q; wheres := wheres q;
     groupBy := groupBy q; orderBy := orderBy q; limit := v;
     offset := offset q; args := args q; distinct := distinct q;
     having := having q; joins := joins q |}.
Definition set_offset (v : Z) (q : t) : t :=
  {| db := db q; table := table q; selects := selects q; wheres := wheres q;
     groupBy := groupBy q; orderBy := orderBy q; limit := limit q;
     offset := v; args := args q; distinct := distinct q;
     having := having q; joins := joins q |}.
Definition set_args (v : list Value) (q : t) : t :=
  {| db := db q; table := table q; selects := selects q; wheres := wheres q;
     groupBy := groupBy q; orderBy := orderBy q; limit := limit q;
     offset := offset q; args := v; distinct := distinct q;
     having := having q; joins := joins q |}.
Definition set_distinct (v : bool) (q : t) : t :=
  {| db := db q; table := table q; selects := selects q; wheres := wheres q;
     groupBy := groupBy q; orderBy := orderBy q; limit := limit q;
     offset := offset q; args := args q; distinct := v;
     having := having q; joins := joins q |}.
Definition set_having (v : list string) (q : t) : t :=
  {| db := db q; table := table q; selects := selects q; wheres := wheres q;
     groupBy := groupBy q; orderBy := orderBy q; limit := limit q;
     offset := offset q; args := args q; distinct := distinct q;
     having := v; joins := joins q |}.
Definition set_joins (v : list string) (q : t) : t :=
  {| db := db q; table := table q; selects := selects q; wheres := wheres q;
     groupBy := groupBy q; orderBy := orderBy q; limit := limit q;
     offset := offset q; args := args q; distinct := distinct q;
     having := having q; joins := v |}.

Definition NewQuery (d : DB.t) : t :=
  {| db := d; table := EmptyString; selects := ["*"]; wheres := []; groupBy := [];
     orderBy := []; limit := 0; offset := 0; args := []; distinct := false;
     having := []; joins := [] |}.

Definition Table (tbl : string) (q : t) : t := set_table tbl q.

Definition Select (fields : list string) (q : t) : t :=
  match fields with
  | [] => q
  | _ :: _ => set_selects fields q
  end.

Definition Distinct (q : t) : t := set_distinct true q.

Definition Where (condition : string) (a : list Value) (q : t) : t :=
  set_args (args q ++ a) (set_wheres (wheres q ++ [condition]) q).

Definition WhereIn (field : string) (values : list Value) (q : t) : t :=
  match values with
  | [] => q
  | _ :: _ =>
      let placeholders := map (fun _ => "?") values in
      let condition := field +:+ " IN (" +:+ strings.Join placeholders ", " +:+ ")" in
      set_args (args q ++ values) (set_wheres (wheres q ++ [condition]) q)
  end.

Definition WhereNotIn (field : string) (values : list Value) (q : t) : t :=
  match values with
  | [] => q
  | _ :: _ =>
      let placeholders := map (fun _ => "?") values in
      let condition := field +:+ " NOT IN (" +:+ strings.Join placeholders ", " +:+ ")" in
      set_args (args q ++ values) (set_wheres (wheres q ++ [condition]) q)
  end.

Definition WhereBetween (field : string) (start end_ : Value) (q : t) : t :=
  let condition := field +:+ " BETWEEN ? AND ?" in
  set_args (args q ++ [start; end_]) (set_wheres (wheres q ++ [condition]) q).

Definition WhereLike (field pattern : string) (q : t) : t :=
  let condition := field +:+ " LIKE ?" in
  set_args (args q ++ [VStr string_t pattern]) (set_wheres (wheres q ++ [condition]) q).

Definition WhereNull (field : string) (q : t) : t :=
  set_wheres (wheres q ++ [field +:+ " IS NULL"]) q.

Definition WhereNotNull (field : string) (q : t) : t :=
  set_wheres (wheres q ++ [field +:+ " IS NOT NULL"]) q.

Definition Join (tbl condition : string) (a : list Value) (q : t) : t :=
  let join := "JOIN " +:+ tbl +:+ " ON " +:+ condition in
  set_args (args q ++ a) (set_joins (joins q ++ [join]) q).

Definition LeftJoin (tbl condition : string) (a : list Value) (q : t) : t :=
  let join := "LEFT JOIN " +:+ tbl +:+ " ON " +:+ condition in
  set_args (args q ++ a) (set_joins (joins q ++ [join]) q).

Definition RightJoin (tbl condition : string) (a : list Value) (q : t) : t :=
  let join := "RIGHT JOIN " +:+ tbl +:+ " ON " +:+ condition in
  set_args (args q ++ a) (set_joins (joins q ++ [join]) q).

Definition GroupBy (fields : list string) (q : t) : t :=
  set_groupBy (groupBy q ++ fields) q.

Definition Having (condition : string) (a : list Value) (q : t) : t :=
  set_args (args q ++ a) (set_having (having q ++ [condition]) q).

Definition OrderBy (field : string) (direction : list string) (q : t) : t :=
  let dir :=
    match direction with
    | [] => "ASC"
    | d0 :: _ => strings.ToUpper d0
    end in
  set_orderBy (orderBy q ++ [field +:+ " " +:+ dir]) q.

Definition OrderByAsc (field : string) (q : t) : t :=
  set_orderBy (orderBy q ++ [field +:+ " ASC"]) q.

Definition OrderByDesc (field : string) (q : t) : t :=
  set_orderBy (orderBy q ++ [field +:+ " DESC"]) q.

Definition Limit (n : Z) (q : t) : t := set_limit n q.

Definition Offset (n : Z) (q : t) : t := set_offset n q.

Definition nonnil {A} (l : list A) : bool :=
  match l with [] => false | _ :: _ => true end.

(** [buildSQL] *)
Definition buildSQL (q : t) : string :=
  let parts :=
    [("SELECT " +:+ (if distinct q then "DISTINCT " else EmptyString))
       +:+ strings.Join (selects q) ", "]
    ++ (if nonempty (table q) then ["FROM " +:+ table q] else [])
    ++ (if nonnil (joins q) then [strings.Join (joins q) " "] else [])
    ++ (if nonnil (wheres q) then ["WHERE " +:+ strings.Join (wheres q) " AND "] else [])
    ++ (if nonnil (groupBy q) then ["GROUP BY " +:+ strings.Join (groupBy q) ", "] else [])
    ++ (if nonnil (having q) then ["HAVING " +:+ strings.Join (having q) " AND "] else [])
    ++ (if nonnil (orderBy q) then ["ORDER BY " +:+ strings.Join (orderBy q) ", "] else [])
    ++ (if 0 <? limit q then ["LIMIT " +:+ fmt.d (limit q)] else [])
    ++ (if 0 <? offset q then ["OFFSET " +:+ fmt.d (offset q)] else []) in
  strings.Join parts " ".

(** *** Terminal operations

    A terminal operation takes the builder and the statements sent so
    far and gives back both, with what the call returns: [Ok v] for a nil
    error, [Err msg] for a non-nil one, [Panic] when the call does not
    return.  The [Debug] printing to standard output is left out. *)

(** the destination [&x] of a scalar read, for [var x T] *)
Definition scalar_dest (T : Type_) : Iface :=
  {| obj := OPtr false (OVal (VInt T 0)); tableName := None |}.

(** [Get] *)
Definition Get (q : t) (w : DB.World) (result : Iface)
  : t * DB.World * res unit :=
  let q := set_limit 1 q in
  let sql := buildSQL q in
  let '(w, err) := DB.QueryRow (db q) w result sql (args q) in
  (q, w, err).

(** [Count].  [count] is written by [scanRow] only, which writes into
    struct destinations; it is still zero when the call returns. *)
Definition Count (q : t) (w : DB.World) : t * DB.World * res Z :=
  let originalSelects := selects q in
  let q := set_selects ["COUNT(*)"] q in
  let sql := buildSQL q in
  let count := 0 in
  let '(w, err) := DB.QueryRow (db q) w (scalar_dest int64_t) sql (args q) in
  match err with
  | Panic p => (q, w, Panic p)
  | Err e => (set_selects originalSelects q, w, Err e)
  | Ok _ => (set_selects originalSelects q, w, Ok count)
  end.

(** [Exists]: returns [err == nil, err] *)
Definition Exists (q : t) (w : DB.World) : t * DB.World * res bool :=
  let q := set_selects ["1"] q in
  let q := set_limit 1 q in
  let sql := buildSQL q in
  let '(w, err) := DB.QueryRow (db q) w (scalar_dest int_t) sql (args q) in
  match err with
  | Panic p => (q, w, Panic p)
  | Err e => (q, w, Err e)
  | Ok _ => (q, w, Ok true)
  end.

(** [First] *)
Definition First (q : t) (w : DB.World) (result : Iface)
  : t * DB.World * res unit :=
  Get (set_limit 1 q) w result.

(** the body of the loop of [Last] over the order entries *)
Definition invert (order : string) : string :=
  if strings.Contains order "ASC" then strings.Replace1 order "ASC" "DESC"
  else if strings.Contains order "DESC" then strings.Replace1 order "DESC" "ASC"
  else order +:+ " DESC".

(** [Last] *)
Definition Last (q : t) (w : DB.World) (result : Iface)
  : t * DB.World * res unit :=
  let originalOrderBy := orderBy q in
  let q :=
    match orderBy q with
    | [] => set_orderBy ["id DESC"] q
    | _ :: _ => set_orderBy (map invert (orderBy q)) q
    end in
  let q := set_limit 1 q in
  let '(q, w, err) := Get q w result in
  match err with
  | Panic p => (q, w, Panic p)
  | _ => (set_orderBy originalOrderBy q, w, err)
  end.

(** the [WHERE] suffix of [Update] and [Delete] *)
Definition where_suffix (q : t) : string :=
  if nonnil (wheres q) then " WHERE " +:+ strings.Join (wheres q) " AND " else EmptyString.

(** [Update].  [data] lists the entries of the map argument in the order
    in which [range] visits them. *)
Definition Update (q : t) (w : DB.World) (data : list (string * Value))
  : t * DB.World * res Result :=
  match data with
  | [] => (q, w, Err "no data to update")
  | _ :: _ =>
      let sets := map (fun kv => fst kv +:+ " = ?") data in
      let a := map snd data in
      let a := a ++ args q in
      let sql := "UPDATE " +:+ table q +:+ " SET " +:+ strings.Join sets ", "
                 +:+ where_suffix q in
      let '(w, r) := DB.Exec (db q) w sql a in
      (q, w, r)
  end.

(** [Delete] *)
Definition Delete (q : t) (w : DB.World) : t * DB.World * res Result :=
  let sql := "DELETE FROM " +:+ table q +:+ where_suffix q in
  let '(w, r) := DB.Exec (db q) w sql (args q) in
  (q, w, r).

Section Fetch.

Variable SprintOther : Value -> string.
Variable QueryContext : list DB.Stmt -> DB.Stmt -> DB.Rows + string.

(** [All] *)
Definition All (q : t) (w : DB.World) (result : DB.Dest)
  : t * DB.World * DB.Dest * res unit :=
  let sql := buildSQL q in
  let '(w, dest, err) := DB.Query SprintOther QueryContext (db q) w result sql (args q) in
  (q, w, dest, err).

(** [Paginate]: [Ok (total, err)] is the pair the call returns *)
Definition Paginate (q : t) (w : DB.World) (page perPage : Z) (result : DB.Dest)
  : t * DB.World * DB.Dest * res (Z * error) :=
  let '(q, w, r) := Count q w in
  match r with
  | Panic p => (q, w, result, Panic p)
  | Err e => (q, w, result, Ok (0, Some e))
  | Ok total =>
      let offset := Mapper.wrap_signed 64 ((page - 1) * perPage) in
      let q := set_limit perPage q in
      let q := set_offset offset q in
      let '(q, w, dest, err) := All q w result in
      match err with
      | Panic p => (q, w, dest, Panic p)
      | Err e => (q, w, dest, Ok (total, Some e))
      | Ok _ => (q, w, dest, Ok (total, None))
      end
  end.

End Fetch.

End Query.

(** ** The aggregate and window builders *)

Module Aggregate.

Record t := {
  query : Query.t;
  funcs : list string
}.

Definition NewAggregate (q : Query.t) : t := {| query := q; funcs := [] |}.

Definition add (f : string) (a : t) : t :=
  {| query := query a; funcs := funcs a ++ [f] |}.

Definition Avg (field : string) (a : t) : t :=
  add ("AVG(" +:+ field +:+ ") as avg_" +:+ field) a.
Definition Count (field : string) (a : t) : t :=
  if String.eqb field "*" then add "COUNT(*) as count" a
  else add ("COUNT(" +:+ field +:+ ") as count_" +:+ field) a.

(** [Get]: the builder it points to takes the accumulated functions as
    its projections *)
Definition Get (a : t) (w : DB.World) (result : reflect.Iface)
  : t * DB.World * res unit :=
  match funcs a with
  | [] => (a, w, Err "no aggregate functions specified")
  | _ :: _ =>
      let '(q, w, err) := Query.Get (Query.set_selects (funcs a) (query a)) w result in
      ({| query := q; funcs := funcs a |}, w, err)
  end.

End Aggregate.

Module Window.

Record t := {
  query : Query.t;
  function : string;
  over : string;
  alias : string
}.

Definition NewWindow (q : Query.t) : t :=
  {| query := q; function := EmptyString; over := EmptyString; alias := EmptyString |}.

Definition set_function (f : string) (w : t) : t :=
  {| query := query w; function := f; over := over w; alias := alias w |}.

Definition RowNumber (w : t) : t := set_function "ROW_NUMBER()" w.
Definition Rank (w : t) : t := set_function "RANK()" w.
Definition DenseRank (w : t) : t := set_function "DENSE_RANK()" w.
Definition Lag (field : string) (offset : Z) (w : t) : t :=
  set_function ("LAG(" +:+ field +:+ ", " +:+ fmt.d offset +:+ ")") w.
Definition Lead (field : string) (offset : Z) (w : t) : t :=
  set_function ("LEAD(" +:+ field +:+ ", " +:+ fmt.d offset +:+ ")") w.
Definition FirstValue (field : string) (w : t) : t :=
  set_function ("FIRST_VALUE(" +:+ field +:+ ")") w.
Definition LastValue (field : string) (w : t) : t :=
  set_function ("LAST_VALUE(" +:+ field +:+ ")") w.
Definition NthValue (field : string) (n : Z) (w : t) : t :=
  set_function ("NTH_VALUE(" +:+ field +:+ ", " +:+ fmt.d n +:+ ")") w.
Definition Ntile (buckets : Z) (w : t) : t :=
  set_function ("NTILE(" +:+ fmt.d buckets +:+ ")") w.
Definition PercentRank (w : t) : t := set_function "PERCENT_RANK()" w.
Definition CumeDist (w : t) : t := set_function "CUME_DIST()" w.

(** [Over] *)
Definition Over (partitionBy orderBy : string) (w : t) : t :=
  let parts :=
    (if nonempty partitionBy then ["PARTITION BY " +:+ partitionBy] else [])
    ++ (if nonempty orderBy then ["ORDER BY " +:+ orderBy] else []) in
  {| query := query w; function := function w;
     over := "OVER (" +:+ strings.Join parts " " +:+ ")"; alias := alias w |}.

(** [As] *)
Definition As (a : string) (w : t) : t :=
  {| query := query w; function := function w; over := over w; alias := a |}.

(** [Build] *)
Definition Build (w : t) : string :=
  if String.eqb (function w) EmptyString then EmptyString
  else
    function w
    +:+ (if nonempty (over w) then " " +:+ over w else EmptyString)
    +:+ (if nonempty (alias w) then " AS " +:+ alias w else EmptyString).

(** [AddToQuery]: the builder the window points to, after the call *)
Definition AddToQuery (w : t) : Query.t :=
  if String.eqb (function w) EmptyString then query w
  else
    let windowFunc := Build w in
    if nonempty windowFunc
    then Query.set_selects (Query.selects (query w) ++ [windowFunc]) (query w)
    else query w.

End Window.

(** ** Result rows (types.go) *)

Module Row.
Import reflect.

(** [Row]: the values of a row by column name *)
Record t := {
  values : gmap string Value
}.

(** [Get]: the value, the nil interface for a missing key *)
Definition Get (r : t) (key : string) : Value :=
  match values r !! key with
  | Some v => v
  | None => VNil
  end.

(** [GetString] *)
Definition GetString (r : t) (key : string) : string :=
  match values r !! key with
  | Some (VStr T s) => if type_eqb T string_t then s else EmptyString
  | _ => EmptyString
  end.

(** [GetInt]: [int64(val)] for the eight sized integer types, zero
    otherwise *)
Definition GetInt (r : t) (key : string) : Z :=
  match values r !! key with
  | Some (VInt T n) =>
      if Mapper.one_of T [int64_t; int32_t; int16_t; int8_t] then n
      else if Mapper.one_of T [uint64_t; uint32_t; uint16_t; uint8_t]
      then Mapper.wrap_signed 64 n
      else 0
  | _ => 0
  end.

(** [GetFloat] *)
Definition GetFloat (r : t) (key : string) : fmt.float64 :=
  match values r !! key with
  | Some (VFloat T x) =>
      if Mapper.one_of T [float64_t; float32_t] then x else S754_zero false
  | _ => S754_zero false
  end.

(** [GetBool] *)
Definition GetBool (r : t) (key : string) : bool :=
  match values r !! key with
  | Some (VBool T b) => if type_eqb T bool_t then b else false
  | _ => false
  end.

End Row.

(** ** Cluster nodes (cluster.go) *)

Module Cluster.

Record ClusterNode := {
  Host : string;
  Port : Z;
  Database : string;
  Username : string;
  Password : string;
  Weight : Z;
  Healthy : bool;
  LastPing : Z
}.

Record t := {
  Name : string;
  Nodes : list ClusterNode
}.

Definition NewCluster (name : string) : t := {| Name := name; Nodes := [] |}.

(** [AddNode] *)
Definition AddNode (node : ClusterNode) (c : t) : t :=
  {| Name := Name c; Nodes := Nodes c ++ [node] |}.

(** the loop of [RemoveNode]: the first node with that host and port is
    taken out *)
Fixpoint remove_first (host : string) (port : Z) (nodes : list ClusterNode)
  : list ClusterNode :=
  match nodes with
  | [] => []
  | node :: rest =>
      if String.eqb (Host node) host && Z.eqb (Port node) port then rest
      else node :: remove_first host port rest
  end.

(** [RemoveNode] *)
Definition RemoveNode (host : string) (port : Z) (c : t) : t :=
  {| Name := Name c; Nodes := remove_first host port (Nodes c) |}.

(** [GetHealthyNodes] *)
Definition GetHealthyNodes (c : t) : list ClusterNode :=
  List.filter Healthy (Nodes c).

(** the sum of the weights, in 64-bit arithmetic *)
Definition total_weight (nodes : list ClusterNode) : Z :=
  fold_left (fun total node => Mapper.wrap_signed 64 (total + Weight node)) nodes 0.

(** the second loop of [GetNodeByWeight]: the first node at which the
    running weight reaches [half] *)
Fixpoint pick (half current : Z) (nodes : list ClusterNode) : option ClusterNode :=
  match nodes with
  | [] => None
  | node :: rest =>
      let current := Mapper.wrap_signed 64 (current + Weight node) in
      if half <=? current then Some node else pick half current rest
  end.

(** [GetNodeByWeight]; [None] is the nil pointer *)
Definition GetNodeByWeight (c : t) : option ClusterNode :=
  let healthy := GetHealthyNodes c in
  match healthy with
  | [] => None
  | first :: _ =>
      let totalWeight := total_weight healthy in
      if totalWeight =? 0 then Some first
      else
        match pick (Z.quot totalWeight 2) 0 healthy with
        | Some node => Some node
        | None => Some first
        end
  end.

End Cluster.

(** ** Composition calls as data

    A chain of composition calls on one builder, in the order in which
    the caller makes them. *)

Module Calls.
Import reflect.

Inductive Call :=
| Table (tbl : string)
| Select (fields : list string)
| Distinct
| Where (condition : string) (a : list Value)
| WhereIn (field : string) (values : list Value)
| WhereNotIn (field : string) (values : list Value)
| WhereBetween (field : string) (start end_ : Value)
| WhereLike (field pattern : string)
| WhereNull (field : string)
| WhereNotNull (field : string)
| Join (tbl condition : string) (a : list Value)
| LeftJoin (tbl condition : string) (a : list Value)
| RightJoin (tbl condition : string) (a : list Value)
| GroupBy (fields : list string)
| Having (condition : string) (a : list Value)
| OrderBy (field : string) (direction : list string)
| OrderByAsc (field : string)
| OrderByDesc (field : string)
| Limit (n : Z)
| Offset (n : Z).

Definition run (c : Call) (q : Query.t) : Query.t :=
  match c with
  | Table tbl => Query.Table tbl q
  | Select fields => Query.Select fields q
  | Distinct => Query.Distinct q
  | Where condition a => Query.Where condition a q
  | WhereIn field values => Query.WhereIn field values q
  | WhereNotIn field values => Query.WhereNotIn field values q
  | WhereBetween field start end_ => Query.WhereBetween field start end_ q
  | WhereLike field pattern => Query.WhereLike field pattern q
  | WhereNull field => Query.WhereNull field q
  | WhereNotNull field => Query.WhereNotNull field q
  | Join tbl condition a => Query.Join tbl condition a q
  | LeftJoin tbl condition a => Query.LeftJoin tbl condition a q
  | RightJoin tbl condition a => Query.RightJoin tbl condition a q
  | GroupBy fields => Query.GroupBy fields q
  | Having condition a => Query.Having condition a q
  | OrderBy field direction => Query.OrderBy field direction q
  | OrderByAsc field => Query.OrderByAsc field q
  | OrderByDesc field => Query.OrderByDesc field q
  | Limit n => Query.Limit n q
  | Offset n => Query.Offset n q
  end.

Definition run_all (cs : list Call) (q : Query.t) : Query.t :=
  fold_left (fun q c => run c q) cs q.

(** the clause of the rendered statement a call's arguments belong to,
    numbered in the order in which [buildSQL] emits the clauses *)
Inductive Clause := JoinClause | WhereClause | HavingClause.

Definition rank (k : Clause) : nat :=
  match k with JoinClause => 0 | WhereClause => 1 | HavingClause => 2 end.

(** the positional arguments a call hands over, with their clause *)
Definition contribution (c : Call) : option (Clause * list Value) :=
  match c with
  | Where _ a => Some (WhereClause, a)
  | WhereIn _ values | WhereNotIn _ values => Some (WhereClause, values)
  | WhereBetween _ start end_ => Some (WhereClause, [start; end_])
  | WhereLike _ pattern => Some (WhereClause, [VStr string_t pattern])
  | Join _ _ a | LeftJoin _ _ a | RightJoin _ _ a => Some (JoinClause, a)
  | Having _ a => Some (HavingClause, a)
  | _ => None
  end.

Definition call_args (c : Call) : list Value :=
  match contribution c with
  | Some (_, a) => a
  | None => []
  end.

Definition args_in (k : Clause) (c : Call) : list Value :=
  match contribution c with
  | Some (k', a) => if (rank k =? rank k')%nat then a else []
  | None => []
  end.

(** the arguments in the order of the placeholders of the rendered text:
    those of the join clauses, then of the predicates, then of the having
    conditions, each group in call order *)
Definition emission_args (cs : list Call) : list Value :=
  flat_map (args_in JoinClause) cs
  ++ flat_map (args_in WhereClause) cs
  ++ flat_map (args_in HavingClause) cs.

(** the ranks of the calls that hand over at least one argument *)
Definition arg_ranks (cs : list Call) : list nat :=
  flat_map (fun c =>
    match contribution c with
    | Some (k, _ :: _) => [rank k]
    | _ => []
    end) cs.

Fixpoint ascending (l : list nat) : bool :=
  match l with
  | [] => true
  | x :: rest => forallb (fun y => (x <=? y)%nat) rest && ascending rest
  end.

(** the argument-carrying calls come in emission order: joins, then
    predicates, then having conditions *)
Definition emission_ordered (cs : list Call) : bool :=
  ascending (arg_ranks cs).

Definition no_marker (s : string) : bool := (placeholders s =? 0)%nat.

(** a call hands over exactly one argument per placeholder it writes, and
    the names it takes hold no placeholder *)
Definition balanced (c : Call) : bool :=
  match c with
  | Table tbl => no_marker tbl
  | Select fields | GroupBy fields => forallb no_marker fields
  | Where condition a | Having condition a =>
      (placeholders condition =? length a)%nat
  | WhereIn field _ | WhereNotIn field _ | WhereBetween field _ _
  | WhereLike field _ | WhereNull field | WhereNotNull field
  | OrderByAsc field | OrderByDesc field => no_marker field
  | Join tbl condition a | LeftJoin tbl condition a | RightJoin tbl condition a =>
      (placeholders tbl + placeholders condition =? length a)%nat
  | OrderBy field direction => no_marker field && forallb no_marker direction
  | Distinct | Limit _ | Offset _ => true
  end.



(** What the server makes of a statement: the i-th placeholder of the
    text, from the left, stands for the i-th argument, written as [show]
    writes it; a placeholder without an argument stays. *)
Fixpoint bind (show : Value -> string) (text : string) (a : list Value) : string :=
  match text with
  | EmptyString => EmptyString
  | String c rest =>
      if Ascii.eqb c "?"
      then match a with
           | v :: a' => show v +:+ bind show rest a'
           | [] => String c (bind show rest [])
           end
      else String c (bind show rest a)
  end.

(** the entries of a clause that carries arguments *)
Definition clause (k : Clause) (q : Query.t) : list string :=
  match k with
  | JoinClause => Query.joins q
  | WhereClause => Query.wheres q
  | HavingClause => Query.having q
  end.

(** The call with its own arguments written into its own text:
    [inline show c q] is [run c q], except that the placeholders of the
    entries the call appends are filled with the arguments the call
    appends, and the argument list stays as it is in [q]. *)
Definition inline (show : Value -> string) (c : Call) (q : Query.t) : Query.t :=
  let q' := run c q in
  let own := skipn (length (Query.args q)) (Query.args q') in
  let filled k :=
    clause k q
    ++ map (fun entry => bind show entry own) (skipn (length (clause k q)) (clause k q')) in
  Query.set_args (Query.args q)
    (Query.set_joins (filled JoinClause)
       (Query.set_wheres (filled WhereClause)
          (Query.set_having (filled HavingClause) q'))).

Definition inline_all (show : Value -> string) (cs : list Call) (q : Query.t) : Query.t :=
  fold_left (fun q c => inline show c q) cs q.

(** the builder [q] with other entries and arguments *)
Definition rebuild (q : Query.t) (J W H : list string) (A : list Value) : Query.t :=
  Query.set_args A (Query.set_joins J (Query.set_wheres W (Query.set_having H q))).

(** an entry paired with its arguments: the entry with the arguments
    written in, and whether it has one placeholder per argument *)
Definition bound (show : Value -> string) (p : string * list Value) : string :=
  bind show (fst p) (snd p).

Definition fits (p : string * list Value) : Prop :=
  placeholders (fst p) = length (snd p).

(** entries without arguments *)
Definition plain (l : list string) : list (string * list Value) :=
  map (fun x => (x, [])) l.

(** the builder holds one argument per placeholder of its join,
    predicate and having entries, and no placeholder anywhere else *)
Definition aligned (q : Query.t) : Prop :=
  placeholders (Query.table q) = O
  /\ list_sum (map placeholders (Query.selects q)) = O
  /\ list_sum (map placeholders (Query.groupBy q)) = O
  /\ list_sum (map placeholders (Query.orderBy q)) = O
  /\ (list_sum (map placeholders (Query.joins q))
      + list_sum (map placeholders (Query.wheres q))
      + list_sum (map placeholders (Query.having q)))%nat
     = length (Query.args q).

End Calls.

(** ** Specification-side definitions *)

Module Spec.
Import reflect.

(** what stands between the parentheses of [OVER (...)]: only the
    sub-clauses whose expression is given *)
Definition over_body (partitionExpr orderExpr : string) : string :=
  match partitionExpr, orderExpr with
  | EmptyString, EmptyString => EmptyString
  | String _ _, EmptyString => "PARTITION BY " +:+ partitionExpr
  | EmptyString, String _ _ => "ORDER BY " +:+ orderExpr
  | String _ _, String _ _ =>
      "PARTITION BY " +:+ partitionExpr +:+ " ORDER BY " +:+ orderExpr
  end.

(** an aggregate projection: the expression, [as], the alias *)
Definition projection (expression alias : string) : string :=
  expression +:+ " as " +:+ alias.

(** the text of an UPDATE statement: the table, one assignment per entry
    and the predicates *)
Definition update_text (tbl : string) (wheres : list string)
    (data : list (string * Value)) : string :=
  "UPDATE " +:+ tbl +:+ " SET "
  +:+ strings.Join (map (fun kv => fst kv +:+ " = ?") data) ", "
  +:+ match wheres with
      | [] => EmptyString
      | _ :: _ => " WHERE " +:+ strings.Join wheres " AND "
      end.


(** the digit a character stands for *)
Definition digit_value (c : ascii) : option Z :=
  let n := nat_of_ascii c in
  if ((48 <=? n) && (n <=? 57))%nat then Some (Z.of_nat n - 48) else None.

(** the number a run of decimal digits stands for, after [acc] *)
Fixpoint numeral (acc : Z) (l : list ascii) : option Z :=
  match l with
  | [] => Some acc
  | c :: l' =>
      match digit_value c with
      | Some v => numeral (10 * acc + v) l'
      | None => None
      end
  end.

(** a run of digits that is not empty and has no leading zero *)
Definition canonical (l : list ascii) : bool :=
  match l with
  | [] => false
  | [c] => true
  | c :: _ :: _ => negb (Ascii.eqb c "0")
  end.

(** [body] read as a decimal numeral with exactly six digits after
    the point: its value in millionths *)
Definition unsigned_millionths (body : list ascii) : option Z :=
  let k := (length body - 7)%nat in
  let int := firstn k body in
  match skipn k body with
  | point :: frac =>
      if Ascii.eqb point "." && (length frac =? 6)%nat && canonical int
      then match numeral 0 int, numeral 0 frac with
           | Some i, Some f => Some (i * 1000000 + f)
           | _, _ => None
           end
      else None
  | [] => None
  end.

(** [s] read as a decimal numeral with exactly six digits after the
    point, with or without a minus sign: whether it has the sign, and
    its value in millionths *)
Definition millionths (s : string) : option (bool * Z) :=
  let l := list_ascii_of_string s in
  let negative := match l with c :: _ => Ascii.eqb c "-" | [] => false end in
  match unsigned_millionths (if negative then tl l else l) with
  | Some v => Some (negative, v)
  | None => None
  end.

(** [n] is the integer nearest to [num / den], the even one of two
    that are equally near ([den > 0]) *)
Definition nearest_even (num den n : Z) : Prop :=
  2 * Z.abs (n * den - num) <= den
  /\ (2 * Z.abs (n * den - num) = den -> Z.even n = true).

(** [r] is the level written with six decimal places: read as a
    decimal numeral, [r] has the sign of the level and is the multiple of
    a millionth nearest to it, the even one of two that are equally
    near.  The level is [m * 2^e]; no text is the rendering of a level
    that is not finite. *)
Definition six_decimals_of (level : fmt.float64) (r : string) : Prop :=
  match level with
  | S754_zero s => millionths r = Some (s, 0)
  | S754_finite s m e =>
      exists n,
        millionths r = Some (s, n)
        /\ nearest_even (Zpos m * 1000000 * 2 ^ Z.max e 0) (2 ^ Z.max (- e) 0) n
  | _ => False
  end.

(** a float64 that is neither NaN nor infinite *)
Definition finite (x : fmt.float64) : bool :=
  match x with
  | S754_zero _ | S754_finite _ _ _ => true
  | _ => false
  end.

(** the combinations of declared field type and run-time type of the
    source value for which [SetFieldValue] has a case: equal types, any
    source for a string field, and the types listed in the type switch
    of the field's kind *)
Definition recognized (fieldType : Type_) (value : Value) : bool :=
  Mapper.same_type fieldType (TypeOf value)
  || match KindOf fieldType, TypeOf value with
     | KString, _ => true
     | (KInt | KInt8 | KInt16 | KInt32 | KInt64
        | KUint | KUint8 | KUint16 | KUint32 | KUint64), Some t =>
         Mapper.one_of t [int64_t; int32_t; int16_t; int8_t;
                          uint64_t; uint32_t; uint16_t; uint8_t; string_t]
     | (KFloat32 | KFloat64), Some t =>
         Mapper.one_of t [float64_t; float32_t; string_t]
     | KBool, Some t => Mapper.one_of t [bool_t; string_t]
     | _, _ => false
     end.

(** [w'] is [w] followed by one statement that has as many placeholders
    as arguments *)
Definition one_aligned_statement (w w' : DB.World) : Prop :=
  exists stmt,
    w' = w ++ [stmt]
    /\ placeholders (DB.text stmt) = length (DB.params stmt).

(** [w'] is [w] followed by exactly one statement *)
Definition one_statement (w w' : DB.World) : Prop :=
  exists stmt, w' = w ++ [stmt].

(** the struct a model argument stands for, behind at most one pointer *)
Definition struct_of (model : Iface) : option Struct :=
  match obj model with
  | OStruct s => Some s
  | OPtr false (OStruct s) => Some s
  | _ => None
  end.

End Spec.

(** ** Sample data *)

Module Sample.
Import reflect.

(** a server that answers every row query with one row holding [1] and
    every other statement with one affected row *)
Definition conn : DB.Conn :=
  {| DB.QueryRowContext := fun _ _ => DB.RowVals [VInt int64_t 1];
     DB.ExecContext := fun _ _ => inl {| LastInsertID := 0; RowsAffected := 1 |} |}.

(** a server that fails every statement *)
Definition down : DB.Conn :=
  {| DB.QueryRowContext := fun _ _ => DB.RowErr "connection refused";
     DB.ExecContext := fun _ _ => inr "connection refused" |}.

Definition db : DB.t := {| DB.conn := conn; DB.Debug := false |}.

Definition int (n : Z) : Value := VInt int_t n.
Definition str (s : string) : Value := VStr string_t s.

Definition users : Query.t := Query.Table "users" (Query.NewQuery db).

(** an argument as the server reads it: integers in decimal, strings
    between quotes *)
Definition show (v : Value) : string :=
  match v with
  | VInt _ n => fmt.d n
  | VStr _ text => "'" +:+ text +:+ "'"
  | _ => "NULL"
  end.

(** [Where("a = ?", 1)] followed by [Join("t", "t.x = ?", 2)] *)
Definition join_after_where : list Calls.Call :=
  [Calls.Table "users";
   Calls.Where "a = ?" [int 1];
   Calls.Join "t" "t.x = ?" [int 2]].

(** the same two calls the other way round, and a having condition *)
Definition join_before_where : list Calls.Call :=
  [Calls.Table "users";
   Calls.Join "t" "t.x = ?" [int 2];
   Calls.Where "a = ?" [int 1];
   Calls.WhereIn "b" [int 3; int 4];
   Calls.GroupBy ["a"];
   Calls.Having "n > ?" [int 5];
   Calls.OrderBy "a" ["desc"];
   Calls.Limit 10].

(** [TestUser] of the package's tests, with its [TableName] method *)
Definition TestUser : StructType :=
  {| TName := "TestUser";
     TString := "chorm.TestUser";
     Fields :=
       [{| Name := "ID"; PkgPath := EmptyString; FType := uint32_t;
           Tag := [("ch", "id"); ("ch_type", "UInt32"); ("ch_pk", "true")];
           Anonymous := false |};
        {| Name := "Name"; PkgPath := EmptyString; FType := string_t;
           Tag := [("ch", "name"); ("ch_type", "String")]; Anonymous := false |};
        {| Name := "Age"; PkgPath := EmptyString; FType := uint8_t;
           Tag := [("ch", "age"); ("ch_type", "UInt8")]; Anonymous := false |};
        {| Name := "Created"; PkgPath := EmptyString; FType := time_t;
           Tag := [("ch", "created"); ("ch_type", "DateTime")]; Anonymous := false |};
        {| Name := "IsActive"; PkgPath := EmptyString; FType := bool_t;
           Tag := [("ch", "is_active"); ("ch_type", "Boolean")]; Anonymous := false |};
        {| Name := "Score"; PkgPath := EmptyString; FType := float64_t;
           Tag := [("ch", "score"); ("ch_type", "Float64")]; Anonymous := false |}] |}.

Definition test_user_value : Struct :=
  {| typ := TestUser;
     vals := [VInt uint32_t 1; VStr string_t "Test User"; VInt uint8_t 25;
              VOther time_t 0; VBool bool_t true;
              VFloat float64_t (fmt.float64_of 171 2)] |}.

(** [&TestUser{...}] *)
Definition test_user : Iface :=
  {| obj := OPtr false (OStruct test_user_value); tableName := Some "test_users" |}.

(** the same table name on a record type whose metadata differ *)
Definition TestUserV2 : StructType :=
  {| TName := "TestUser";
     TString := "chorm.TestUser";
     Fields :=
       [{| Name := "ID"; PkgPath := EmptyString; FType := uint64_t;
           Tag := [("ch", "user_id"); ("ch_type", "UInt64")]; Anonymous := false |}] |}.

Definition test_user_v2 : Iface :=
  {| obj := OPtr false (OStruct {| typ := TestUserV2; vals := [VInt uint64_t 1] |});
     tableName := Some "test_users" |}.

(** [struct{}] behind a named type without methods *)
Definition Empty : StructType :=
  {| TName := "Empty"; TString := "chorm.Empty"; Fields := [] |}.

Definition empty_record : Iface :=
  {| obj := OPtr false (OStruct {| typ := Empty; vals := [] |}); tableName := None |}.

(** a record type without [ch] tags and without [TableName]: the
    columns carry the names of the fields *)
Definition Plain : StructType :=
  {| TName := "Plain";
     TString := "chorm.Plain";
     Fields :=
       [{| Name := "ID"; PkgPath := EmptyString; FType := uint32_t;
           Tag := [("ch_pk", "true")]; Anonymous := false |};
        {| Name := "Name"; PkgPath := EmptyString; FType := string_t; Tag := [];
        Anonymous := false |}] |}.

Definition plain_value : Struct :=
  {| typ := Plain; vals := [VInt uint32_t 7; VStr string_t "Ann"] |}.

(** [&Plain{ID: 7, Name: "Ann"}] *)
Definition plain : Iface :=
  {| obj := OPtr false (OStruct plain_value); tableName := None |}.



(** three nodes, the second one down *)
Definition node (host : string) (weight : Z) (healthy : bool) : Cluster.ClusterNode :=
  {| Cluster.Host := host; Cluster.Port := 9000; Cluster.Database := "test";
     Cluster.Username := "default"; Cluster.Password := EmptyString;
     Cluster.Weight := weight; Cluster.Healthy := healthy; Cluster.LastPing := 0 |}.

Definition cluster : Cluster.t :=
  Cluster.AddNode (node "c" 3 true)
    (Cluster.AddNode (node "b" 5 false)
       (Cluster.AddNode (node "a" 1 true) (Cluster.NewCluster "main"))).

End Sample.

(** * Properties *)

(** ** Placeholder counting *)

Lemma append_assoc (a b c : string) : (a +:+ b) +:+ c = a +:+ (b +:+ c).
Proof.
  induction a as [|x a IH]; [reflexivity|].
  change (String x ((a +:+ b) +:+ c) = String x (a +:+ (b +:+ c))).
  rewrite IH. reflexivity.
Qed.

Section Placeholders.
Local Open Scope nat_scope.

Lemma placeholders_app (a b : string) :
  placeholders (a +:+ b) = placeholders a + placeholders b.
Proof.
  induction a as [|c a IH]; simpl; [reflexivity|].
  rewrite IH. lia.
Qed.

Lemma placeholders_Join (l : list string) (sep : string) :
  placeholders sep = 0 ->
  placeholders (strings.Join l sep) = list_sum (map placeholders l).
Proof.
  intros Hsep. induction l as [|a l IH]; [reflexivity|].
  destruct l as [|b l].
  - simpl. lia.
  - change (strings.Join (a :: b :: l) sep)
      with (a +:+ sep +:+ strings.Join (b :: l) sep).
    rewrite !placeholders_app, IH, Hsep. simpl. lia.
Qed.

Lemma placeholders_uint (u : Decimal.uint) :
  placeholders (NilEmpty.string_of_uint u) = 0.
Proof. induction u; simpl; auto. Qed.

Lemma placeholders_d (n : Z) : placeholders (fmt.d n) = 0.
Proof.
  unfold fmt.d, NilZero.string_of_int, NilZero.string_of_uint.
  destruct (Z.to_int n) as [u|u]; destruct u; simpl;
    auto using placeholders_uint.
Qed.

Lemma upper_byte_marker (c : ascii) :
  Ascii.eqb (strings.upper_byte c) "?" = Ascii.eqb c "?".
Proof. destruct c as [[] [] [] [] [] [] [] []]; reflexivity. Qed.

Lemma placeholders_ToUpper (s : string) :
  placeholders (strings.ToUpper s) = placeholders s.
Proof.
  induction s as [|c s IH]; simpl; [reflexivity|].
  rewrite upper_byte_marker. unfold strings.ToUpper in IH. rewrite IH. reflexivity.
Qed.

Lemma placeholders_marks {A} (values : list A) :
  list_sum (map placeholders (map (fun _ => "?") values)) = length values.
Proof. induction values; simpl; auto. Qed.

Lemma list_sum_snoc (l : list nat) (x : nat) :
  list_sum (l ++ [x]) = list_sum l + x.
Proof. rewrite list_sum_app. simpl. lia. Qed.

(** the text of a clause that is left out when its list is empty holds
    the placeholders of the entries of the list *)
Lemma clause_placeholders (l : list string) (kw sep : string) :
  placeholders kw = 0 -> placeholders sep = 0 ->
  list_sum (map placeholders
    (if Query.nonnil l then [kw +:+ strings.Join l sep] else []))
  = list_sum (map placeholders l).
Proof.
  intros Hkw Hsep. destruct l as [|a l]; [reflexivity|].
  cbn [Query.nonnil map list_sum].
  rewrite placeholders_app, Hkw, placeholders_Join by assumption. simpl. lia.
Qed.

Lemma number_placeholders (n : Z) (kw : string) :
  placeholders kw = 0 ->
  list_sum (map placeholders (if (0 <? n)%Z then [kw +:+ fmt.d n] else [])) = 0.
Proof.
  intros Hkw. destruct (0 <? n)%Z; [|reflexivity].
  simpl. rewrite placeholders_app, Hkw, placeholders_d. reflexivity.
Qed.

Lemma table_placeholders (tbl : string) :
  list_sum (map placeholders (if nonempty tbl then ["FROM " +:+ tbl] else []))
  = placeholders tbl.
Proof.
  destruct tbl as [|c tbl]; [reflexivity|].
  change (nonempty (String c tbl)) with true.
  cbn [map list_sum fold_right]. rewrite placeholders_app. simpl. lia.
Qed.

(** the placeholders of the rendered statement, clause by clause in the
    order of the text *)
Lemma buildSQL_placeholders (q : Query.t) :
  placeholders (Query.buildSQL q)
  = list_sum (map placeholders (Query.selects q))
    + placeholders (Query.table q)
    + list_sum (map placeholders (Query.joins q))
    + list_sum (map placeholders (Query.wheres q))
    + list_sum (map placeholders (Query.groupBy q))
    + list_sum (map placeholders (Query.having q))
    + list_sum (map placeholders (Query.orderBy q)).
Proof.
  unfold Query.buildSQL.
  rewrite placeholders_Join by reflexivity.
  rewrite !map_app, !list_sum_app.
  rewrite table_placeholders.
  rewrite !number_placeholders by reflexivity.
  rewrite (clause_placeholders (Query.wheres q) "WHERE " " AND ") by reflexivity.
  rewrite (clause_placeholders (Query.groupBy q) "GROUP BY " ", ") by reflexivity.
  rewrite (clause_placeholders (Query.having q) "HAVING " " AND ") by reflexivity.
  rewrite (clause_placeholders (Query.orderBy q) "ORDER BY " ", ") by reflexivity.
  assert (Hj : list_sum (map placeholders
            (if Query.nonnil (Query.joins q) then [strings.Join (Query.joins q) " "] else []))
          = list_sum (map placeholders (Query.joins q))).
  { destruct (Query.joins q) as [|a l] eqn:E; [reflexivity|].
    cbn [Query.nonnil map list_sum]. rewrite placeholders_Join by reflexivity.
    cbn [map list_sum fold_right]. lia. }
  rewrite Hj. cbn [map list_sum fold_right].
  rewrite !placeholders_app, placeholders_Join by reflexivity.
  destruct (Query.distinct q); cbn [placeholders Ascii.eqb Bool.eqb]; lia.
Qed.

End Placeholders.

(** ** Composition calls and the argument list *)

Section CallOrder.
Local Open Scope nat_scope.
Import Calls.

Lemma no_marker_sum (fields : list string) :
  forallb no_marker fields = true -> list_sum (map placeholders fields) = 0.
Proof.
  induction fields as [|f fields IH]; simpl; [reflexivity|].
  intros [Hf Hr]%andb_true_iff. apply Nat.eqb_eq in Hf. rewrite Hf, IH; auto.
Qed.

Lemma aligned_NewQuery (d : DB.t) : aligned (Query.NewQuery d).
Proof. repeat split. Qed.

Ltac fields :=
  cbn [Query.table Query.selects Query.groupBy Query.orderBy Query.joins
       Query.wheres Query.having Query.args Query.set_table Query.set_selects
       Query.set_wheres Query.set_groupBy Query.set_orderBy Query.set_limit
       Query.set_offset Query.set_args Query.set_distinct Query.set_having
       Query.set_joins].

Ltac sums :=
  fields;
  rewrite ?map_app, ?list_sum_app, ?length_app by reflexivity;
  cbn [map list_sum fold_right length];
  rewrite ?placeholders_app, ?placeholders_Join, ?placeholders_marks,
    ?placeholders_ToUpper by reflexivity;
  cbn [placeholders Ascii.eqb Bool.eqb].

Lemma run_aligned (c : Call) (q : Query.t) :
  balanced c = true -> aligned q -> aligned (run c q).
Proof.
  intros Hb (Ht & Hs & Hg & Ho & Ha).
  destruct c; cbn [balanced] in Hb; unfold no_marker in Hb;
    rewrite ?andb_true_iff, ?Nat.eqb_eq in Hb; cbn [run].
  - repeat split; cbn; auto.
  - destruct fields; [repeat split; auto|].
    repeat split; cbn [Query.Select Query.set_selects]; sums; auto.
    apply (no_marker_sum (s :: fields)) in Hb. exact Hb.
  - repeat split; cbn; auto.
  - repeat split; unfold Query.Where; sums; auto. lia.
  - destruct values as [|v values]; [repeat split; auto|].
    repeat split; unfold Query.WhereIn; sums; auto.
    change ("?" :: map (fun _ : reflect.Value => "?") values)
      with (map (fun _ : reflect.Value => "?") (v :: values)).
    rewrite placeholders_marks. cbn [length]. lia.
  - destruct values as [|v values]; [repeat split; auto|].
    repeat split; unfold Query.WhereNotIn; sums; auto.
    change ("?" :: map (fun _ : reflect.Value => "?") values)
      with (map (fun _ : reflect.Value => "?") (v :: values)).
    rewrite placeholders_marks. cbn [length]. lia.
  - repeat split; unfold Query.WhereBetween; sums; auto. lia.
  - repeat split; unfold Query.WhereLike; sums; auto. lia.
  - repeat split; unfold Query.WhereNull; sums; auto. lia.
  - repeat split; unfold Query.WhereNotNull; sums; auto. lia.
  - repeat split; unfold Query.Join; sums; auto. lia.
  - repeat split; unfold Query.LeftJoin; sums; auto. lia.
  - repeat split; unfold Query.RightJoin; sums; auto. lia.
  - repeat split; unfold Query.GroupBy; sums; auto.
    rewrite (no_marker_sum fields Hb). lia.
  - repeat split; unfold Query.Having; sums; auto. lia.
  - destruct Hb as [Hf Hd].
    repeat split; unfold Query.OrderBy; sums; auto.
    destruct direction as [|d0 direction]; sums; [lia|].
    cbn [forallb] in Hd. apply andb_true_iff in Hd as [Hd _].
    apply Nat.eqb_eq in Hd. unfold no_marker in Hd. lia.
  - repeat split; unfold Query.OrderByAsc; sums; auto. lia.
  - repeat split; unfold Query.OrderByDesc; sums; auto. lia.
  - repeat split; cbn; auto.
  - repeat split; cbn; auto.
Qed.

Lemma run_all_aligned (cs : list Call) (q : Query.t) :
  forallb balanced cs = true -> aligned q -> aligned (run_all cs q).
Proof.
  revert q. induction cs as [|c cs IH]; intros q Hb Hq; [exact Hq|].
  cbn [forallb] in Hb. apply andb_true_iff in Hb as [Hc Hcs].
  apply (IH (run c q)); auto using run_aligned.
Qed.

Lemma aligned_count (q : Query.t) :
  aligned q -> length (Query.args q) = placeholders (Query.buildSQL q).
Proof.
  intros (Ht & Hs & Hg & Ho & Ha). rewrite buildSQL_placeholders. lia.
Qed.

(** every call appends its own arguments at the end *)
Lemma run_args (c : Call) (q : Query.t) :
  Query.args (run c q) = Query.args q ++ call_args c.
Proof.
  destruct c as [| fields | | | f values | f values | | | | | | | | | | | | | |];
    cbn; rewrite ?app_nil_r; try reflexivity.
  - destruct fields; reflexivity.
  - destruct values; cbn; rewrite ?app_nil_r; reflexivity.
  - destruct values; cbn; rewrite ?app_nil_r; reflexivity.
Qed.

Lemma run_all_args (cs : list Call) (q : Query.t) :
  Query.args (run_all cs q) = Query.args q ++ flat_map call_args cs.
Proof.
  revert q. induction cs as [|c cs IH]; intros q; cbn [run_all fold_left flat_map].
  - rewrite app_nil_r. reflexivity.
  - change (fold_left (fun q c => run c q) cs (run c q)) with (run_all cs (run c q)).
    rewrite IH, run_args, <- app_assoc. reflexivity.
Qed.

Lemma below_empty (n : nat) (cs : list Call) (k : Clause) :
  forallb (fun y => n <=? y) (arg_ranks cs) = true ->
  rank k < n ->
  flat_map (args_in k) cs = [].
Proof.
  intros Hall Hk. induction cs as [|c cs IH]; [reflexivity|].
  unfold arg_ranks in Hall. cbn [flat_map] in Hall |- *.
  rewrite forallb_app in Hall. apply andb_true_iff in Hall as [Hc Hcs].
  rewrite (IH Hcs), app_nil_r. unfold args_in.
  destruct (contribution c) as [[k' [|v a]]|]; try reflexivity.
  - destruct (rank k =? rank k'); reflexivity.
  - cbn [forallb] in Hc. apply andb_true_iff in Hc as [Hc _].
    apply Nat.leb_le in Hc.
    destruct (Nat.eqb_spec (rank k) (rank k')); [lia|reflexivity].
Qed.

(** calls made in emission order leave the arguments in the order of the
    placeholders *)
Lemma ordered_args (cs : list Call) :
  emission_ordered cs = true -> flat_map call_args cs = emission_args cs.
Proof.
  unfold emission_ordered, emission_args.
  induction cs as [|c cs IH]; [reflexivity|].
  unfold arg_ranks. cbn [flat_map]. fold (arg_ranks cs).
  unfold call_args at 1, args_in at 1 3 5.
  destruct (contribution c) as [[k [|v a]]|].
  - intros H. rewrite (IH H). destruct k; reflexivity.
  - cbn [app ascending]. intros [Hall Hasc]%andb_true_iff.
    rewrite (IH Hasc).
    destruct k; cbn [rank Nat.eqb app].
    + rewrite <- app_assoc. reflexivity.
    + rewrite (below_empty 1 cs JoinClause Hall) by (cbn; lia).
      cbn [app]. rewrite <- app_assoc. reflexivity.
    + rewrite (below_empty 2 cs JoinClause Hall) by (cbn; lia).
      rewrite (below_empty 2 cs WhereClause Hall) by (cbn; lia).
      cbn [app]. reflexivity.
  - intros H. rewrite (IH H). reflexivity.
Qed.

End CallOrder.

(** ** Arguments written into the text *)

Section Binding.
Local Open Scope nat_scope.
Import Calls reflect.
Variable show : Value -> string.

Lemma bind_nil (s : string) : bind show s [] = s.
Proof.
  induction s as [|c s IH]; [reflexivity|].
  cbn [bind]. destruct (Ascii.eqb c "?"); rewrite IH; reflexivity.
Qed.

Lemma bind_app (a b : string) (xs ys : list Value) :
  placeholders a = length xs ->
  bind show (a +:+ b) (xs ++ ys) = bind show a xs +:+ bind show b ys.
Proof.
  revert xs. induction a as [|c a IH]; intros xs H.
  - destruct xs; [reflexivity|discriminate].
  - change (String c a +:+ b) with (String c (a +:+ b)).
    cbn [bind placeholders] in *. destruct (Ascii.eqb c "?").
    + destruct xs as [|x xs]; [discriminate|]. cbn [app length] in *.
      rewrite IH by lia. rewrite append_assoc. reflexivity.
    + rewrite IH by exact H. reflexivity.
Qed.

Lemma bind_plain (a b : string) (ys : list Value) :
  placeholders a = 0 -> bind show (a +:+ b) ys = a +:+ bind show b ys.
Proof.
  intros H. rewrite <- (bind_nil a) at 2. apply (bind_app a b [] ys H).
Qed.

Lemma bind_Join (P : list (string * list Value)) (sep : string) :
  placeholders sep = 0 ->
  Forall (fun p => placeholders (fst p) = length (snd p)) P ->
  bind show (strings.Join (map fst P) sep) (concat (map snd P))
  = strings.Join (map (fun p => bind show (fst p) (snd p)) P) sep.
Proof.
  intros Hsep HP. induction HP as [|p P Hp HP IH]; [reflexivity|].
  destruct P as [|p2 P].
  - cbn [map concat strings.Join]. rewrite app_nil_r. reflexivity.
  - change (strings.Join (map fst (p :: p2 :: P)) sep)
      with (fst p +:+ sep +:+ strings.Join (map fst (p2 :: P)) sep).
    change (concat (map snd (p :: p2 :: P)))
      with (snd p ++ concat (map snd (p2 :: P))).
    rewrite bind_app by exact Hp. rewrite bind_plain by exact Hsep.
    rewrite IH. reflexivity.
Qed.


Lemma inline_step (c : Call) (q : Query.t) (J W H : list string) (A : list Value) :
  balanced c = true ->
  exists J1 W1 H1 : list (string * list Value),
    Query.joins (run c q) = Query.joins q ++ map fst J1
    /\ Query.wheres (run c q) = Query.wheres q ++ map fst W1
    /\ Query.having (run c q) = Query.having q ++ map fst H1
    /\ inline show c (rebuild q J W H A)
       = rebuild (run c q) (J ++ map (bound show) J1) (W ++ map (bound show) W1) (H ++ map (bound show) H1) A
    /\ Forall fits J1 /\ Forall fits W1 /\ Forall fits H1
    /\ concat (map snd J1) = args_in JoinClause c
    /\ concat (map snd W1) = args_in WhereClause c
    /\ concat (map snd H1) = args_in HavingClause c.
Proof.
  intros Hb.
  destruct c as [tbl|fields| |cond a|f values|f values|f st en|f pat|f|f
                 |tbl cond a|tbl cond a|tbl cond a|fields|cond a|f dir|f|f|n|n];
    cbn [balanced] in Hb; unfold no_marker in Hb;
    rewrite ?andb_true_iff, ?Nat.eqb_eq in Hb.
  all: try (destruct fields as [|f0 fields]).
  all: try (destruct values as [|v0 values]).
  all: lazymatch goal with
       | |- context [run (Where ?c ?a)] => exists [], [(c, a)], []
       | |- context [run (WhereIn ?f (?v :: ?vs))] =>
           exists [],
             [(f +:+ " IN (" +:+ strings.Join (map (fun _ => "?") (v :: vs)) ", " +:+ ")",
               v :: vs)], []
       | |- context [run (WhereNotIn ?f (?v :: ?vs))] =>
           exists [],
             [(f +:+ " NOT IN (" +:+ strings.Join (map (fun _ => "?") (v :: vs)) ", " +:+ ")",
               v :: vs)], []
       | |- context [run (WhereBetween ?f ?x ?y)] =>
           exists [], [(f +:+ " BETWEEN ? AND ?", [x; y])], []
       | |- context [run (WhereLike ?f ?p)] =>
           exists [], [(f +:+ " LIKE ?", [VStr string_t p])], []
       | |- context [run (WhereNull ?f)] => exists [], [(f +:+ " IS NULL", [])], []
       | |- context [run (WhereNotNull ?f)] => exists [], [(f +:+ " IS NOT NULL", [])], []
       | |- context [run (Join ?t ?c ?a)] =>
           exists [("JOIN " +:+ t +:+ " ON " +:+ c, a)], [], []
       | |- context [run (LeftJoin ?t ?c ?a)] =>
           exists [("LEFT JOIN " +:+ t +:+ " ON " +:+ c, a)], [], []
       | |- context [run (RightJoin ?t ?c ?a)] =>
           exists [("RIGHT JOIN " +:+ t +:+ " ON " +:+ c, a)], [], []
       | |- context [run (Having ?c ?a)] => exists [], [], [(c, a)]
       | |- _ => exists [], [], []
       end.
  all: cbn [map concat app fst snd]; rewrite ?app_nil_r.
  all: split; [reflexivity|]; split; [reflexivity|]; split; [reflexivity|].
  all: split;
    [unfold inline, rebuild, bound; cbn;
     rewrite ?drop_all, ?drop_app_length, ?app_nil_r; reflexivity|].
  all: repeat split; try reflexivity.
  all: repeat constructor.
  all: unfold fits; cbn [fst snd length].
  all: rewrite ?placeholders_app, ?placeholders_Join, ?placeholders_marks by reflexivity.
  all: cbn [placeholders Ascii.eqb Bool.eqb length]; try lia.
  all: change ("?" :: map (fun _ : Value => "?") values)
         with (map (fun _ : Value => "?") (v0 :: values));
       rewrite placeholders_marks; cbn [length]; lia.
Qed.


Lemma rebuild_same (q : Query.t) :
  rebuild q (Query.joins q) (Query.wheres q) (Query.having q) (Query.args q) = q.
Proof. destruct q; reflexivity. Qed.

Lemma run_all_cons (c : Call) (cs : list Call) (q : Query.t) :
  run_all (c :: cs) q = run_all cs (run c q).
Proof. reflexivity. Qed.

Lemma inline_all_cons (c : Call) (cs : list Call) (q : Query.t) :
  inline_all show (c :: cs) q = inline_all show cs (inline show c q).
Proof. reflexivity. Qed.

(** the builders that [run_all] and [inline_all] leave: the same, except
    that every entry of the second holds the arguments of its call *)
Lemma inline_all_shape (cs : list Call) :
  forallb balanced cs = true ->
  forall (q : Query.t) (PJ PW PH : list (string * list Value)) (A : list Value),
    Query.joins q = map fst PJ ->
    Query.wheres q = map fst PW ->
    Query.having q = map fst PH ->
    Forall fits PJ -> Forall fits PW -> Forall fits PH ->
    exists PJ' PW' PH',
      Query.joins (run_all cs q) = map fst PJ'
      /\ Query.wheres (run_all cs q) = map fst PW'
      /\ Query.having (run_all cs q) = map fst PH'
      /\ Forall fits PJ' /\ Forall fits PW' /\ Forall fits PH'
      /\ inline_all show cs (rebuild q (map (bound show) PJ) (map (bound show) PW) (map (bound show) PH) A)
         = rebuild (run_all cs q) (map (bound show) PJ') (map (bound show) PW') (map (bound show) PH') A
      /\ concat (map snd PJ') = concat (map snd PJ) ++ flat_map (args_in JoinClause) cs
      /\ concat (map snd PW') = concat (map snd PW) ++ flat_map (args_in WhereClause) cs
      /\ concat (map snd PH') = concat (map snd PH) ++ flat_map (args_in HavingClause) cs.
Proof.
  induction cs as [|c cs IH]; intros Hb q PJ PW PH A HJ HW HH FJ FW FH.
  - exists PJ, PW, PH. cbn [flat_map]. rewrite !app_nil_r. repeat split; assumption.
  - cbn [forallb] in Hb. apply andb_true_iff in Hb as [Hc Hcs].
    destruct (inline_step c q (map (bound show) PJ) (map (bound show) PW) (map (bound show) PH) A Hc)
      as (J1 & W1 & H1 & EJ & EW & EH & Ei & F1 & F2 & F3 & AJ & AW & AH).
    destruct (IH Hcs (run c q) (PJ ++ J1) (PW ++ W1) (PH ++ H1) A)
      as (PJ' & PW' & PH' & RJ & RW & RH & GJ & GW & GH & Ri & CJ & CW & CH).
    + rewrite EJ, HJ, map_app. reflexivity.
    + rewrite EW, HW, map_app. reflexivity.
    + rewrite EH, HH, map_app. reflexivity.
    + apply Forall_app; split; assumption.
    + apply Forall_app; split; assumption.
    + apply Forall_app; split; assumption.
    + exists PJ', PW', PH'.
      rewrite run_all_cons, inline_all_cons.
      rewrite Ei, <- !map_app, Ri.
      cbn [flat_map]. rewrite CJ, CW, CH, !map_app, !concat_app, <- !app_assoc, AJ, AW, AH.
      repeat split; assumption.
Qed.



Lemma plain_fst (l : list string) : map fst (plain l) = l.
Proof. induction l as [|x l IH]; [reflexivity|]. cbn. f_equal. exact IH. Qed.

Lemma plain_snd (l : list string) : concat (map snd (plain l)) = [].
Proof. induction l as [|x l IH]; [reflexivity|]. cbn. exact IH. Qed.

Lemma plain_bound (l : list string) : map (bound show) (plain l) = l.
Proof.
  induction l as [|x l IH]; [reflexivity|].
  cbn [plain map]. unfold bound at 1. cbn [fst snd]. rewrite bind_nil. f_equal. exact IH.
Qed.

Lemma plain_fits (l : list string) :
  list_sum (map placeholders l) = 0 -> Forall fits (plain l).
Proof.
  induction l as [|x l IH]; intros H; [constructor|].
  cbn [map list_sum fold_right] in H. change (fold_right Nat.add 0 ?l) with (list_sum l) in H.
  constructor; [unfold fits; cbn [fst snd length]; lia | apply IH; lia].
Qed.

Lemma fits_sum (P : list (string * list Value)) :
  Forall fits P ->
  list_sum (map placeholders (map fst P)) = length (concat (map snd P)).
Proof.
  intros H. induction H as [|p P Hp H IH]; [reflexivity|].
  cbn [map concat]. rewrite length_app, <- IH, <- Hp. reflexivity.
Qed.

(** a clause of entries with arguments, as a part of the statement *)
Lemma bound_clause (kw sep : string) (P : list (string * list Value)) :
  placeholders kw = 0 -> placeholders sep = 0 -> Forall fits P ->
  exists o : list (string * list Value),
    map fst o = (if Query.nonnil (map fst P)
                 then [kw +:+ strings.Join (map fst P) sep] else [])
    /\ concat (map snd o) = concat (map snd P)
    /\ Forall fits o
    /\ map (bound show) o = (if Query.nonnil (map (bound show) P)
                      then [kw +:+ strings.Join (map (bound show) P) sep] else []).
Proof.
  intros Hkw Hsep HP. destruct P as [|p P]; [exists []; repeat split; constructor|].
  exists [(kw +:+ strings.Join (map fst (p :: P)) sep, concat (map snd (p :: P)))].
  split; [reflexivity|].
  split; [cbn [map snd concat]; rewrite app_nil_r; reflexivity|].
  split.
  - constructor; [|constructor]. unfold fits. cbn [fst snd].
    rewrite placeholders_app, Hkw, placeholders_Join by exact Hsep.
    apply (fits_sum (p :: P) HP).
  - change ([(bound show) (kw +:+ strings.Join (map fst (p :: P)) sep, concat (map snd (p :: P)))]
            = [kw +:+ strings.Join (map (bound show) (p :: P)) sep]).
    f_equal. unfold bound at 1. cbn [fst snd].
    rewrite bind_plain by exact Hkw.
    rewrite (bind_Join (p :: P) sep Hsep HP). reflexivity.
Qed.

Lemma buildSQL_bound (q : Query.t) (PJ PW PH : list (string * list Value))
    (A : list Value) :
  Query.joins q = map fst PJ ->
  Query.wheres q = map fst PW ->
  Query.having q = map fst PH ->
  Forall fits PJ -> Forall fits PW -> Forall fits PH ->
  placeholders (Query.table q) = 0 ->
  list_sum (map placeholders (Query.selects q)) = 0 ->
  list_sum (map placeholders (Query.groupBy q)) = 0 ->
  list_sum (map placeholders (Query.orderBy q)) = 0 ->
  bind show (Query.buildSQL q)
    (concat (map snd PJ) ++ concat (map snd PW) ++ concat (map snd PH))
  = Query.buildSQL (rebuild q (map (bound show) PJ) (map (bound show) PW) (map (bound show) PH) A).
Proof.
  intros HJ HW HH FJ FW FH Ht Hs Hg Ho.
  destruct (bound_clause EmptyString " " PJ eq_refl eq_refl FJ) as (oJ & J1 & J2 & J3 & J4).
  destruct (bound_clause "WHERE " " AND " PW eq_refl eq_refl FW) as (oW & W1 & W2 & W3 & W4).
  destruct (bound_clause "HAVING " " AND " PH eq_refl eq_refl FH) as (oH & H1 & H2 & H3 & H4).
  change (EmptyString +:+ ?x) with x in J1, J4.
  unfold Query.buildSQL, rebuild.
  cbn [Query.table Query.selects Query.groupBy Query.orderBy Query.joins
       Query.wheres Query.having Query.args Query.limit Query.offset Query.distinct
       Query.set_args Query.set_having Query.set_joins Query.set_wheres].
  rewrite HJ, HW, HH, <- J1, <- W1, <- H1, <- J4, <- W4, <- H4, <- J2, <- W2, <- H2.
  set (S := [("SELECT " +:+ (if Query.distinct q then "DISTINCT " else EmptyString))
               +:+ strings.Join (Query.selects q) ", "]).
  set (F := if nonempty (Query.table q) then ["FROM " +:+ Query.table q] else []).
  set (G := if Query.nonnil (Query.groupBy q)
            then ["GROUP BY " +:+ strings.Join (Query.groupBy q) ", "] else []).
  set (O := if Query.nonnil (Query.orderBy q)
            then ["ORDER BY " +:+ strings.Join (Query.orderBy q) ", "] else []).
  set (L := if (0 <? Query.limit q)%Z then ["LIMIT " +:+ fmt.d (Query.limit q)] else []).
  set (Of := if (0 <? Query.offset q)%Z then ["OFFSET " +:+ fmt.d (Query.offset q)] else []).
  pose (PP := plain S ++ plain F ++ oJ ++ oW ++ plain G ++ oH ++ plain O ++ plain L ++ plain Of).
  assert (E1 : S ++ F ++ map fst oJ ++ map fst oW ++ G ++ map fst oH ++ O ++ L ++ Of
               = map fst PP).
  { unfold PP. rewrite !map_app, !plain_fst. reflexivity. }
  assert (E2 : concat (map snd oJ) ++ concat (map snd oW) ++ concat (map snd oH)
               = concat (map snd PP)).
  { unfold PP. rewrite !map_app, !concat_app, !plain_snd. cbn [app].
    rewrite ?app_nil_r. reflexivity. }
  assert (E3 : Forall fits PP).
  { unfold PP. repeat (apply Forall_app; split); try assumption; apply plain_fits.
    - unfold S. cbn [map list_sum fold_right].
      rewrite !placeholders_app, placeholders_Join, Hs by reflexivity.
      destruct (Query.distinct q); reflexivity.
    - unfold F. rewrite table_placeholders. exact Ht.
    - unfold G. rewrite (clause_placeholders (Query.groupBy q) "GROUP BY " ", ")
        by reflexivity. exact Hg.
    - unfold O. rewrite (clause_placeholders (Query.orderBy q) "ORDER BY " ", ")
        by reflexivity. exact Ho.
    - unfold L. apply number_placeholders. reflexivity.
    - unfold Of. apply number_placeholders. reflexivity. }
  assert (E4 : map (bound show) PP
               = S ++ F ++ map (bound show) oJ ++ map (bound show) oW ++ G ++ map (bound show) oH ++ O ++ L ++ Of).
  { unfold PP. rewrite !map_app, !plain_bound. reflexivity. }
  rewrite E1, E2, (bind_Join PP " " eq_refl E3).
  change (map (fun p => bind show (fst p) (snd p)) PP) with (map (bound show) PP).
  rewrite E4. reflexivity.
Qed.

End Binding.

(** ** The argument list and the placeholders of the rendered text *)

(** C1, as the code has it.  The builder keeps one argument list and
    every call appends to it, so the list is in call order.  When every
    call hands over one argument per placeholder it writes, the length of
    the list is the number of placeholders of the text of [buildSQL].
    When moreover the calls that carry arguments are made in emission
    order (joins, predicates, having conditions), the order of the list
    is the order of the placeholders of that text: filling the
    placeholders of the text of [buildSQL] from the left with the
    arguments of the list gives the text in which every call has its
    own arguments in its own entry, however the arguments are
    written. *)
Theorem args_follow_call_order (d : DB.t) (cs : list Calls.Call) :
  forallb Calls.balanced cs = true ->
  let q := Calls.run_all cs (Query.NewQuery d) in
  Query.args q = flat_map Calls.call_args cs
  /\ length (Query.args q) = placeholders (Query.buildSQL q)
  /\ (Calls.emission_ordered cs = true ->
      Query.args q = Calls.emission_args cs
      /\ forall show : reflect.Value -> string,
           Calls.bind show (Query.buildSQL q) (Query.args q)
           = Query.buildSQL (Calls.inline_all show cs (Query.NewQuery d))).
Proof.
  intros Hb q.
  assert (Hargs : Query.args q = flat_map Calls.call_args cs).
  { unfold q. rewrite run_all_args. reflexivity. }
  split; [exact Hargs|]. split.
  - apply aligned_count, run_all_aligned; auto using aligned_NewQuery.
  - intros Ho.
    assert (He : Query.args q = Calls.emission_args cs).
    { rewrite Hargs. apply ordered_args, Ho. }
    split; [exact He|]. intros show.
    destruct (inline_all_shape show cs Hb (Query.NewQuery d) [] [] [] []
                eq_refl eq_refl eq_refl (Forall_nil_2 _) (Forall_nil_2 _) (Forall_nil_2 _))
      as (PJ & PW & PH & HJ & HW & HH & FJ & FW & FH & Hi & CJ & CW & CH).
    change (Calls.rebuild (Query.NewQuery d) (map (Calls.bound show) [])
              (map (Calls.bound show) []) (map (Calls.bound show) []) [])
      with (Query.NewQuery d) in Hi.
    destruct (run_all_aligned cs (Query.NewQuery d) Hb (aligned_NewQuery d))
      as (Ht & Hs & Hg & Hord & _).
    rewrite Hi, He. unfold Calls.emission_args.
    cbn [map concat app] in CJ, CW, CH. rewrite <- CJ, <- CW, <- CH.
    apply buildSQL_bound; assumption.
Qed.

Lemma args_follow_call_order_witness :
  forallb Calls.balanced Sample.join_before_where = true
  /\ Calls.emission_ordered Sample.join_before_where = true
  /\ let q := Calls.run_all Sample.join_before_where (Query.NewQuery Sample.db) in
     length (Query.args q) = placeholders (Query.buildSQL q)
     /\ Query.args q = Calls.emission_args Sample.join_before_where
     /\ Calls.bind Sample.show (Query.buildSQL q) (Query.args q)
        = Query.buildSQL
            (Calls.inline_all Sample.show Sample.join_before_where
               (Query.NewQuery Sample.db))
     /\ Calls.bind Sample.show (Query.buildSQL q) (Query.args q)
        = "SELECT * FROM users JOIN t ON t.x = 2 WHERE a = 1 AND b IN (3, 4) "
          +:+ "GROUP BY a HAVING n > 5 ORDER BY a DESC LIMIT 10".
Proof.
  destruct (args_follow_call_order Sample.db Sample.join_before_where)
    as (_ & Hlen & Hord); [vm_compute; reflexivity|].
  destruct Hord as [He Hbind]; [vm_compute; reflexivity|].
  split; [vm_compute; reflexivity|].
  split; [vm_compute; reflexivity|].
  intros q. split; [exact Hlen|]. split; [exact He|].
  split; [exact (Hbind Sample.show)|].
  vm_compute. reflexivity.
Defined.

(** C1 fails as stated: with a join attached after a predicate the text
    has the join's placeholder first, the argument list the predicate's
    argument first, so the server reads the predicate's argument into
    the join and the join's argument into the predicate. *)
Lemma join_after_where_misaligned :
  forallb Calls.balanced Sample.join_after_where = true
  /\ let q := Calls.run_all Sample.join_after_where (Query.NewQuery Sample.db) in
     Query.buildSQL q = "SELECT * FROM users JOIN t ON t.x = ? WHERE a = ?"
     /\ Query.args q = [Sample.int 1; Sample.int 2]
     /\ Calls.emission_args Sample.join_after_where = [Sample.int 2; Sample.int 1]
     /\ Query.args q <> Calls.emission_args Sample.join_after_where
     /\ Calls.bind Sample.show (Query.buildSQL q) (Query.args q)
        = "SELECT * FROM users JOIN t ON t.x = 1 WHERE a = 2"
     /\ Query.buildSQL
          (Calls.inline_all Sample.show Sample.join_after_where (Query.NewQuery Sample.db))
        = "SELECT * FROM users JOIN t ON t.x = 2 WHERE a = 1".
Proof.
  repeat split; try (vm_compute; reflexivity).
  vm_compute. intros H. discriminate H.
Qed.

(** ** Inverting order entries *)

Section Inversion.

Lemma append_cons (c : ascii) (s t : string) : String c s +:+ t = String c (s +:+ t).
Proof. reflexivity. Qed.






End Inversion.

(** ** Terminal operations *)

Lemma scanRow_scalar (row : DB.Row) (T : reflect.Type_) :
  DB.scanRow row (Query.scalar_dest T) = Err "result must be a pointer to struct".
Proof. reflexivity. Qed.

Lemma set_selects_back (q : Query.t) (l : list string) :
  Query.set_selects (Query.selects q) (Query.set_selects l q) = q.
Proof. destruct q; reflexivity. Qed.

(** C2: [Count] sends the rendering of the builder with the single
    count projection, and the builder it leaves is the builder it
    was given, whatever the server answers. *)
Theorem Count_restores_projections (q : Query.t) (w : DB.World) :
  exists r,
    Query.Count q w
    = (q,
       w ++ [{| DB.text := Query.buildSQL (Query.set_selects ["COUNT(*)"] q);
                DB.params := Query.args q |}],
       r)
    /\ Query.selects (Query.set_selects ["COUNT(*)"] q) = ["COUNT(*)"]
    /\ Query.selects (fst (fst (Query.Count q w))) = Query.selects q.
Proof.
  unfold Query.Count, DB.QueryRow. rewrite scanRow_scalar.
  cbn [fst]. rewrite set_selects_back.
  eexists. repeat split.
Qed.

(** against a server that fails every statement [Count] returns the
    error and the builder it was given *)
Lemma Count_when_server_fails :
  let q := Query.Select ["id"; "name"]
             (Query.Table "users"
                (Query.NewQuery {| DB.conn := Sample.down; DB.Debug := false |})) in
  let '(q', w, r) := Query.Count q [] in
  q' = q
  /\ Query.selects q' = ["id"; "name"]
  /\ map DB.text w = ["SELECT COUNT(*) FROM users"]
  /\ r = Err "result must be a pointer to struct".
Proof. repeat split. Qed.

(** C5 at a failing input: on [Table("users")], with a server that
    returns exactly one row, [Exists] leaves the projection list at the
    literal [1] instead of the original [*], and returns false with an
    error. *)
Theorem Exists_keeps_literal_projection :
  let '(q, w, r) := Query.Exists Sample.users [] in
  Query.selects Sample.users = ["*"]
  /\ Query.selects q = ["1"]
  /\ Query.limit q = 1%Z
  /\ w = [{| DB.text := "SELECT 1 FROM users LIMIT 1"; DB.params := [] |}]
  /\ DB.QueryRowContext (DB.conn Sample.db) [] {| DB.text := "SELECT 1 FROM users LIMIT 1"; DB.params := [] |}
     = DB.RowVals [reflect.VInt reflect.int64_t 1]
  /\ r = Err "result must be a pointer to struct".
Proof. vm_compute. repeat split. Qed.

(** on every builder [Exists] overwrites the projections and the limit
    and does not put them back, and its scalar destination is refused *)
Lemma Exists_every_builder (q : Query.t) (w : DB.World) :
  let q1 := Query.set_limit 1 (Query.set_selects ["1"] q) in
  Query.Exists q w
  = (q1, w ++ [{| DB.text := Query.buildSQL q1; DB.params := Query.args q |}],
     Err "result must be a pointer to struct").
Proof. reflexivity. Qed.

(** [Last] puts the order entries back whenever it returns *)
Lemma Last_restores_orderBy (q : Query.t) (w : DB.World) (result : reflect.Iface) :
  let '(q', _, r) := Query.Last q w result in
  (forall p, r <> Panic p) -> Query.orderBy q' = Query.orderBy q /\ Query.limit q' = 1%Z.
Proof.
  unfold Query.Last, Query.Get, DB.QueryRow.
  destruct (DB.scanRow _ _); intros H; try (split; reflexivity).
  exfalso. eapply H. reflexivity.
Qed.

(** without order entries [Last] orders by [id DESC] *)
Lemma Last_default_order (q : Query.t) (w : DB.World) (result : reflect.Iface) :
  Query.orderBy q = [] ->
  exists w0 stmt,
    snd (fst (Query.Last q w result)) = w0 ++ [stmt]
    /\ DB.text stmt
       = Query.buildSQL (Query.set_limit 1 (Query.set_orderBy ["id DESC"] q)).
Proof.
  intros H. unfold Query.Last, Query.Get, DB.QueryRow. rewrite H.
  exists w. eexists.
  destruct (DB.scanRow _ _); cbn [fst snd]; split; reflexivity.
Qed.

Lemma invert_examples :
  Query.invert "created ASC" = "created DESC"
  /\ Query.invert "created DESC" = "created ASC"
  /\ Query.invert "created" = "created DESC".
Proof. repeat split. Qed.

(** C3 at a failing input: [OrderByDesc("ASCII")] followed by [Last].
    The entry [ASCII DESC] holds [ASC] inside the field name; that is
    the occurrence [Last] rewrites, so the statement orders by
    [DESCII DESC]: the direction is not inverted and the field is not the
    caller's. *)
Theorem Last_rewrites_field_name :
  let q := Query.OrderByDesc "ASCII" Sample.users in
  let '(q', w, _) := Query.Last q [] Sample.test_user in
  Query.orderBy q = ["ASCII DESC"]
  /\ map DB.text w = ["SELECT * FROM users ORDER BY DESCII DESC LIMIT 1"]
  /\ Query.orderBy q' = ["ASCII DESC"].
Proof. vm_compute. repeat split. Qed.

(** ** The window builder *)

(** C4 fails as stated: with both expressions empty the built
    expression still carries an [OVER] clause, with nothing between the
    parentheses. *)
Lemma Over_empty_not_omitted :
  Window.Build
    (Window.Over EmptyString EmptyString (Window.RowNumber (Window.NewWindow Sample.users)))
  = "ROW_NUMBER() OVER ()".
Proof. reflexivity. Qed.

Lemma eqb_empty_false (s : string) : s <> EmptyString -> String.eqb s EmptyString = false.
Proof. destruct s; [congruence|reflexivity]. Qed.

(** C4, as the code has it: after [Over] the built expression always
    has an [OVER (...)] clause; between the parentheses stand only the
    sub-clauses whose expression is not empty, nothing when both are
    empty.  The clause is left out only when [Over] was not called. *)
Theorem Over_clause (w : Window.t) (partitionExpr orderExpr : string) :
  Window.function w <> EmptyString ->
  Window.Build (Window.Over partitionExpr orderExpr w)
  = Window.function w
    +:+ " OVER (" +:+ Spec.over_body partitionExpr orderExpr +:+ ")"
    +:+ (if nonempty (Window.alias w) then " AS " +:+ Window.alias w else EmptyString)
  /\ (Window.over w = EmptyString ->
      Window.Build w
      = Window.function w
        +:+ (if nonempty (Window.alias w) then " AS " +:+ Window.alias w else EmptyString)).
Proof.
  intros Hf. unfold Window.Build, Window.Over.
  cbn [Window.function Window.over Window.alias].
  rewrite (eqb_empty_false _ Hf). split.
  - f_equal.
    assert (Hover : forall body, nonempty ("OVER (" +:+ body) = true)
      by reflexivity.
    rewrite Hover.
    destruct partitionExpr, orderExpr;
      cbn [nonempty String.eqb negb app strings.Join Spec.over_body];
      rewrite ?append_assoc; reflexivity.
  - intros ->. reflexivity.
Qed.

Lemma Over_clause_witness :
  let w := Window.As "rn" (Window.RowNumber (Window.NewWindow Sample.users)) in
  Window.function w <> EmptyString
  /\ Window.Build (Window.Over EmptyString "score DESC" w)
     = "ROW_NUMBER() OVER (ORDER BY score DESC) AS rn"
  /\ Window.Build (Window.Over "user_id" EmptyString w)
     = "ROW_NUMBER() OVER (PARTITION BY user_id) AS rn"
  /\ Window.Build w = "ROW_NUMBER() AS rn".
Proof.
  intros w.
  assert (Hf : Window.function w <> EmptyString) by (vm_compute; discriminate).
  split; [exact Hf|].
  split; [exact (proj1 (Over_clause w EmptyString "score DESC" Hf))|].
  split; [exact (proj1 (Over_clause w "user_id" EmptyString Hf))|].
  exact (proj2 (Over_clause w EmptyString EmptyString Hf) eq_refl).
Defined.

(** C7: [Update] refuses an empty map with the validation error and
    sends nothing; otherwise it sends one UPDATE statement whose text is
    made of the table, the assignments and the predicates only, and whose
    arguments are the assigned values followed by the builder's
    accumulated arguments, and the validation error is not what it
    returns. *)
Theorem Update_validation_and_argument_order
    (q : Query.t) (w : DB.World) (data : list (string * reflect.Value)) :
  (data = [] -> Query.Update q w data = (q, w, Err "no data to update"))
  /\ (data <> [] ->
      exists r,
        Query.Update q w data
        = (q,
           w ++ [{| DB.text := Spec.update_text (Query.table q) (Query.wheres q) data;
                    DB.params := map snd data ++ Query.args q |}],
           r)
        /\ r <> Err "no data to update").
Proof.
  split.
  - intros ->. reflexivity.
  - intros Hne. destruct data as [|kv data]; [congruence|].
    unfold Query.Update, DB.Exec, Spec.update_text, Query.where_suffix.
    destruct (Query.wheres q); cbn [Query.nonnil];
      (eexists; split; [reflexivity|]);
      destruct (DB.ExecContext _ _ _); discriminate.
Qed.

Lemma Update_validation_and_argument_order_witness :
  Query.Update (Query.Where "id = ?" [Sample.int 7] Sample.users) [] []
  = (Query.Where "id = ?" [Sample.int 7] Sample.users, [], Err "no data to update")
  /\ exists r,
       Query.Update (Query.Where "id = ?" [Sample.int 7] Sample.users) []
         [("name", Sample.str "Ann"); ("age", Sample.int 30)]
       = (Query.Where "id = ?" [Sample.int 7] Sample.users,
          [{| DB.text := "UPDATE users SET name = ?, age = ? WHERE id = ?";
              DB.params := [Sample.str "Ann"; Sample.int 30; Sample.int 7] |}],
          r)
       /\ r <> Err "no data to update".
Proof.
  split.
  - exact (proj1 (Update_validation_and_argument_order _ [] []) eq_refl).
  - refine (proj2 (Update_validation_and_argument_order
                     (Query.Where "id = ?" [Sample.int 7] Sample.users) []
                     [("name", Sample.str "Ann"); ("age", Sample.int 30)]) _).
    discriminate.
Defined.

(** ** The aggregate builder *)

Lemma list_ascii_app (a b : string) :
  list_ascii_of_string (a +:+ b) = list_ascii_of_string a ++ list_ascii_of_string b.
Proof.
  induction a as [|x a IH]; [reflexivity|].
  change (x :: list_ascii_of_string (a +:+ b)
          = x :: (list_ascii_of_string a ++ list_ascii_of_string b)).
  rewrite IH. reflexivity.
Qed.




Lemma digit_value_digit (k : Z) : 0 <= k < 10 -> Spec.digit_value (fmt.digit k) = Some k.
Proof.
  intros Hk.
  assert (H : (k = 0 \/ k = 1 \/ k = 2 \/ k = 3 \/ k = 4 \/ k = 5 \/ k = 6
               \/ k = 7 \/ k = 8 \/ k = 9)%Z) by lia.
  repeat (destruct H as [-> | H]; [reflexivity|]). subst. reflexivity.
Qed.

Lemma numeral_frac6 (n : Z) :
  0 <= n < 1000000 ->
  Spec.numeral 0 (rev (fmt.low_digits 6 n)) = Some n.
Proof.
  intros Hn. cbn [fmt.low_digits rev app Spec.numeral].
  rewrite !digit_value_digit by (apply Z.mod_pos_bound; lia).
  f_equal. Z.div_mod_to_equations. lia.
Qed.

Lemma numeral_uint_acc (u : Decimal.uint) (acc : positive) :
  Spec.numeral (Zpos acc) (list_ascii_of_string (NilEmpty.string_of_uint u))
  = Some (Zpos (Pos.of_uint_acc u acc)).
Proof.
  revert acc. induction u; intros acc; cbn [NilEmpty.string_of_uint list_ascii_of_string
    Spec.numeral Pos.of_uint_acc]; [reflexivity | ..];
    (change (Spec.digit_value _) with (Some 0) || change (Spec.digit_value _) with (Some 1)
     || change (Spec.digit_value _) with (Some 2) || change (Spec.digit_value _) with (Some 3)
     || change (Spec.digit_value _) with (Some 4) || change (Spec.digit_value _) with (Some 5)
     || change (Spec.digit_value _) with (Some 6) || change (Spec.digit_value _) with (Some 7)
     || change (Spec.digit_value _) with (Some 8) || change (Spec.digit_value _) with (Some 9));
    rewrite <- IHu; f_equal; lia.
Qed.

Lemma numeral_uint (u : Decimal.uint) :
  Spec.numeral 0 (list_ascii_of_string (NilEmpty.string_of_uint u))
  = Some (Z.of_N (Pos.of_uint u)).
Proof.
  induction u; cbn [NilEmpty.string_of_uint list_ascii_of_string Spec.numeral Pos.of_uint];
    [reflexivity | exact IHu | ..];
    (change (Spec.digit_value _) with (Some 1) || change (Spec.digit_value _) with (Some 2)
     || change (Spec.digit_value _) with (Some 3)
     || change (Spec.digit_value _) with (Some 4) || change (Spec.digit_value _) with (Some 5)
     || change (Spec.digit_value _) with (Some 6) || change (Spec.digit_value _) with (Some 7)
     || change (Spec.digit_value _) with (Some 8) || change (Spec.digit_value _) with (Some 9));
    cbn [Z.mul Z.add Z.of_N]; apply numeral_uint_acc.
Qed.

Lemma uint_head (u : Decimal.uint) :
  u <> Decimal.Nil ->
  (forall u', u <> Decimal.D0 u') ->
  exists c rest,
    list_ascii_of_string (NilEmpty.string_of_uint u) = c :: rest
    /\ Ascii.eqb c "0" = false /\ Ascii.eqb c "-" = false.
Proof.
  intros Hn H0. destruct u; try congruence;
    try (eexists _, _; split; [reflexivity|split; reflexivity]).
Qed.

Lemma to_uint_head (p : positive) : forall u', Pos.to_uint p <> Decimal.D0 u'.
Proof.
  intros u' H.
  pose proof (DecimalPos.Unsigned.to_of (Pos.to_uint p)) as E.
  rewrite DecimalPos.Unsigned.of_to in E. cbn [N.to_uint] in E.
  pose proof (DecimalPos.Unsigned.to_uint_nonzero p) as Hz.
  rewrite H in E, Hz. unfold Decimal.unorm in E. cbn [Decimal.nzhead] in E.
  destruct (Decimal.nzhead u') eqn:En; try discriminate.
  - apply Hz. exact E.
  - apply (DecimalFacts.nzhead_nonzero u' u). rewrite En. congruence.
Qed.

(** [%d] on a number that is not negative, read back *)
Lemma numeral_d (n : Z) :
  0 <= n ->
  Spec.numeral 0 (list_ascii_of_string (fmt.d n)) = Some n
  /\ Spec.canonical (list_ascii_of_string (fmt.d n)) = true
  /\ exists c rest, list_ascii_of_string (fmt.d n) = c :: rest /\ Ascii.eqb c "-" = false.
Proof.
  intros Hn. destruct n as [|p|p]; [| |lia].
  - split; [reflexivity|]. split; [reflexivity|]. eexists _, _. split; reflexivity.
  - unfold fmt.d. cbn [Z.to_int NilZero.string_of_int].
    pose proof (DecimalPos.Unsigned.to_uint_nonnil p) as Hnil.
    assert (E : NilZero.string_of_uint (Pos.to_uint p)
                = NilEmpty.string_of_uint (Pos.to_uint p)).
    { unfold NilZero.string_of_uint. destruct (Pos.to_uint p); congruence. }
    rewrite E, numeral_uint, DecimalPos.Unsigned.of_to.
    destruct (uint_head (Pos.to_uint p) Hnil (to_uint_head p)) as (c & rest & -> & H0 & Hm).
    split; [reflexivity|]. split.
    + cbn [Spec.canonical]. destruct rest; [reflexivity|]. rewrite H0. reflexivity.
    + eexists _, _. split; [reflexivity|exact Hm].
Qed.

Lemma scaled6_nearest (m : positive) (e : Z) :
  Spec.nearest_even (Zpos m * 1000000 * 2 ^ Z.max e 0) (2 ^ Z.max (- e) 0)
    (fmt.scaled6 (Zpos m) e)
  /\ 0 <= fmt.scaled6 (Zpos m) e.
Proof.
  unfold fmt.scaled6, Spec.nearest_even.
  destruct (Z.leb_spec 0 e) as [He|He].
  - rewrite (Z.max_l e 0), (Z.max_r (- e) 0) by lia. change (2 ^ 0) with 1.
    assert (Hp : 0 < 2 ^ e) by (apply Z.pow_pos_nonneg; lia).
    cbv zeta. set (n := Z.pos m * 1000000 * 2 ^ e).
    replace (n * 1 - n) with 0 by ring. cbn [Z.abs Z.mul].
    split; [split; [lia | intros Hx; lia] | unfold n; nia].
  - rewrite (Z.max_r e 0), (Z.max_l (- e) 0) by lia. change (2 ^ 0) with 1. rewrite Z.mul_1_r.
    set (num := Zpos m * 1000000). set (den := 2 ^ - e).
    assert (Hden : 0 < den) by (apply Z.pow_pos_nonneg; lia).
    assert (Hnum : 0 <= num) by (unfold num; lia).
    assert (Hdm : num = den * (num / den) + num mod den) by (apply Z.div_mod; lia).
    pose proof (Z.mod_pos_bound num den Hden) as Hr.
    assert (Hq : 0 <= num / den) by (apply Z.div_pos; lia).
    set (q := num / den) in *. set (r := num mod den) in *.
    assert (Hqd : q * den - num = - r) by lia.
    assert (Hqd1 : (q + 1) * den - num = den - r) by lia.
    destruct (Z.ltb_spec (2 * r) den) as [H1|H1].
    + rewrite Hqd. split; [split; [|intros Hx; exfalso]; lia | lia].
    + destruct (Z.ltb_spec den (2 * r)) as [H2|H2].
      * rewrite Hqd1. split; [split; [|intros Hx; exfalso]; lia | lia].
      * destruct (Z.even q) eqn:Hev.
        -- rewrite Hqd. split; [split; [lia|intros _; exact Hev] | lia].
        -- rewrite Hqd1. split; [split; [lia|] | lia].
           intros _. rewrite Z.even_add, Hev. reflexivity.
Qed.

Lemma unsigned_millionths_parts (int frac : list ascii) (i f : Z) :
  Spec.canonical int = true -> Spec.numeral 0 int = Some i ->
  length frac = 6%nat -> Spec.numeral 0 frac = Some f ->
  Spec.unsigned_millionths (int ++ "."%char :: frac) = Some (i * 1000000 + f).
Proof.
  intros Hc Hi Hl Hf. unfold Spec.unsigned_millionths.
  rewrite length_app. cbn [length]. rewrite Hl.
  replace (length int + 7 - 7)%nat with (length int) by lia.
  rewrite take_app_length, drop_app_length.
  rewrite Hl, Hc, Hi, Hf. reflexivity.
Qed.

Lemma millionths_rendering (s : bool) (v : Z) :
  0 <= v ->
  Spec.millionths ((if s then "-" else EmptyString) +:+ fmt.d (v / 1000000) +:+ "."
              +:+ fmt.frac6 (v mod 1000000))
  = Some (s, v).
Proof.
  intros Hv.
  assert (Hi : 0 <= v / 1000000) by (apply Z.div_pos; lia).
  assert (Hf : 0 <= v mod 1000000 < 1000000) by (apply Z.mod_pos_bound; lia).
  destruct (numeral_d (v / 1000000) Hi) as (Hnum & Hcan & c & rest & Hc & Hm).
  assert (Hbody : Spec.unsigned_millionths
                    (list_ascii_of_string (fmt.d (v / 1000000)) ++ "."%char
                     :: rev (fmt.low_digits 6 (v mod 1000000)))
                  = Some (v / 1000000 * 1000000 + v mod 1000000)).
  { apply unsigned_millionths_parts; auto using numeral_frac6. }
  replace (v / 1000000 * 1000000 + v mod 1000000) with v in Hbody
    by (rewrite (Z.div_mod v 1000000) at 1 by lia; lia).
  unfold Spec.millionths.
  rewrite !list_ascii_app. unfold fmt.frac6.
  rewrite list_ascii_of_string_of_list_ascii.
  change (list_ascii_of_string ".") with ["."%char].
  destruct s.
  - change (list_ascii_of_string "-") with ["-"%char]. cbn [app tl Ascii.eqb Bool.eqb].
    cbn [app] in Hbody. rewrite Hbody. reflexivity.
  - change (list_ascii_of_string EmptyString) with (@nil ascii). cbn [app].
    cbn [app] in Hbody. rewrite Hc in *. cbn [app]. rewrite Hm.
    cbn [app] in Hbody. rewrite Hbody. reflexivity.
Qed.

(** [%f] on a finite number: the rendering is the level in Spec.millionths,
    rounded to nearest even *)
Lemma f_six_decimals_of (x : fmt.float64) :
  Spec.finite x = true -> Spec.six_decimals_of x (fmt.f x).
Proof.
  unfold Spec.finite, fmt.f, Spec.six_decimals_of.
  destruct x as [s|s| |s m e]; try discriminate; intros _.
  - destruct s; reflexivity.
  - destruct (scaled6_nearest m e) as [Hn Hpos].
    exists (fmt.scaled6 (Zpos m) e). split; [|exact Hn].
    apply millionths_rendering, Hpos.
Qed.

Ltac row :=
  unfold Aggregate.add, Spec.projection; cbn [Aggregate.funcs];
  rewrite ?append_assoc; reflexivity.



(** ** The mapper *)

Section Coercion.
Import reflect.
Variable ParseFloat : string -> option fmt.float64.
Variable SprintOther : Value -> string.

Ltac not_listed H :=
  cbn [Mapper.one_of existsb] in H |- *;
  repeat (apply orb_false_iff in H; let H' := fresh in destruct H as [H' H]);
  repeat match goal with
         | E : type_eqb ?t ?u = false |- context [type_eqb ?t ?u] => rewrite E
         end.

Lemma int_source_unlisted (value : Value) :
  match TypeOf value with
  | Some t => Mapper.one_of t [int64_t; int32_t; int16_t; int8_t;
                               uint64_t; uint32_t; uint16_t; uint8_t; string_t]
  | None => false
  end = false ->
  Mapper.int_source value = None /\ Mapper.uint_source value = None.
Proof.
  destruct value as [|t b|t n|t x|t v|t id]; cbn [TypeOf Mapper.int_source Mapper.uint_source];
    intros H; try (split; reflexivity); not_listed H; split; reflexivity.
Qed.

Lemma float_source_unlisted (value : Value) :
  match TypeOf value with
  | Some t => Mapper.one_of t [float64_t; float32_t; string_t]
  | None => false
  end = false ->
  Mapper.float_source ParseFloat value = None.
Proof.
  destruct value as [|t b|t n|t x|t v|t id]; cbn [TypeOf Mapper.float_source];
    intros H; try reflexivity; not_listed H; reflexivity.
Qed.

Lemma bool_source_unlisted (value : Value) :
  match TypeOf value with
  | Some t => Mapper.one_of t [bool_t; string_t]
  | None => false
  end = false ->
  Mapper.bool_source value = None.
Proof.
  destruct value as [|t b|t n|t x|t v|t id]; cbn [TypeOf Mapper.bool_source];
    intros H; try reflexivity; not_listed H; reflexivity.
Qed.

(** for a combination without a case the conversion switch writes
    nothing *)
Lemma convert_unrecognized (fieldType : Type_) (value : Value) :
  Spec.recognized fieldType value = false ->
  Mapper.convert ParseFloat SprintOther fieldType value = None.
Proof.
  unfold Spec.recognized, Mapper.convert.
  intros [_ H]%orb_false_iff.
  destruct (KindOf fieldType); try reflexivity; try discriminate H.
  all: try (destruct (int_source_unlisted value H) as [E1 E2];
            rewrite ?E1, ?E2; reflexivity).
  all: try (rewrite (float_source_unlisted value H); reflexivity).
  rewrite (bool_source_unlisted value H). reflexivity.
Qed.

(** C9: on a settable field, a source value whose run-time type has no
    case for the field's declared type leaves the record as it was and
    the call returns nil; and whatever the value, the conversion never
    makes the call return an error. *)
Theorem SetFieldValue_unrecognized_is_silent
    (model : Iface) (fieldName : string) (value : Value)
    (s : Struct) (i : nat) (field : StructField) :
  obj model = OPtr false (OStruct s) ->
  Mapper.FieldByName s fieldName = Some (i, field) ->
  PkgPath field = EmptyString ->
  (Spec.recognized (FType field) value = false ->
   Mapper.SetFieldValue ParseFloat SprintOther model fieldName value = (model, None))
  /\ snd (Mapper.SetFieldValue ParseFloat SprintOther model fieldName value) = None.
Proof.
  intros Hobj Hfield Hpkg. unfold Mapper.SetFieldValue.
  rewrite Hobj, Hfield, Hpkg. cbn [nonempty String.eqb negb]. split.
  - intros Hrec. rewrite (convert_unrecognized _ _ Hrec).
    apply orb_false_iff in Hrec as [-> _]. reflexivity.
  - destruct (Mapper.same_type _ _); [reflexivity|].
    destruct (Mapper.convert _ _ _ _); reflexivity.
Qed.

End Coercion.

Lemma SetFieldValue_unrecognized_is_silent_witness :
  Spec.recognized reflect.uint8_t (reflect.VFloat reflect.float64_t (fmt.float64_of 3 2)) = false
  /\ Mapper.SetFieldValue (fun _ => None) (fun _ => "?") Sample.test_user "Age"
       (reflect.VFloat reflect.float64_t (fmt.float64_of 3 2))
     = (Sample.test_user, None)
  /\ Mapper.GetFieldValue Sample.test_user "Age" = Ok (reflect.VInt reflect.uint8_t 25).
Proof.
  split; [reflexivity|]. split; [|reflexivity].
  refine (proj1 (SetFieldValue_unrecognized_is_silent (fun _ => None) (fun _ => "?")
                   Sample.test_user "Age" (reflect.VFloat reflect.float64_t (fmt.float64_of 3 2))
                   Sample.test_user_value 2%nat _ eq_refl eq_refl eq_refl) eq_refl).
Defined.

Section Derivation.
Import reflect.

(** the value [ParseStruct] looks at is the struct behind at most one
    pointer *)
Lemma deref_struct (model : Iface) (s : Struct) :
  Spec.struct_of model = Some s ->
  match ObjKind (obj model) with KPtr => Elem (obj model) | _ => obj model end
  = OStruct s.
Proof.
  unfold Spec.struct_of.
  destruct (obj model) as [|v|s'|[] [|v|s'|b t]]; try discriminate;
    intros [= ->]; reflexivity.
Qed.

Lemma deref_struct_inv (model : Iface) (s : Struct) :
  match ObjKind (obj model) with KPtr => Elem (obj model) | _ => obj model end
  = OStruct s ->
  Spec.struct_of model = Some s.
Proof.
  unfold Spec.struct_of.
  destruct (obj model) as [|v|s'|[] [|v|s'|b t]]; cbn [ObjKind Elem];
    try discriminate; try (intros [= ->]; reflexivity).
  destruct (TypeOf v) as [t|]; [destruct (KindOf t)|]; discriminate.
Qed.

(** C10: a record type without fields and without [TableName] makes
    table-name resolution read field 0; schema derivation panics and
    returns no error value. *)
Theorem ParseStruct_panics_without_fields
    (m : Mapper.t) (model : Iface) (s : Struct) :
  Spec.struct_of model = Some s ->
  tableName model = None ->
  Fields (typ s) = [] ->
  Mapper.getTableName model (typ s) = Panic "reflect: Field index out of bounds"
  /\ Mapper.ParseStruct m model = (m, Panic "reflect: Field index out of bounds")
  /\ (forall msg, snd (Mapper.ParseStruct m model) <> Err msg).
Proof.
  intros Hs Hn Hf.
  assert (Hg : Mapper.getTableName model (typ s)
               = Panic "reflect: Field index out of bounds").
  { unfold Mapper.getTableName. rewrite Hn, Hf. reflexivity. }
  assert (Hp : Mapper.ParseStruct m model
               = (m, Panic "reflect: Field index out of bounds")).
  { unfold Mapper.ParseStruct. rewrite (deref_struct _ _ Hs), Hg. reflexivity. }
  repeat split; [exact Hg | exact Hp |].
  intros msg. rewrite Hp. discriminate.
Qed.

Lemma ParseStruct_panics_without_fields_witness :
  Spec.struct_of Sample.empty_record = Some {| typ := Sample.Empty; vals := [] |}
  /\ tableName Sample.empty_record = None
  /\ Fields Sample.Empty = []
  /\ Mapper.ParseStruct Mapper.NewMapper Sample.empty_record
     = (Mapper.NewMapper, Panic "reflect: Field index out of bounds").
Proof.
  split; [reflexivity|]. split; [reflexivity|]. split; [reflexivity|].
  exact (proj1 (proj2 (ParseStruct_panics_without_fields Mapper.NewMapper
                         Sample.empty_record {| typ := Sample.Empty; vals := [] |}
                         eq_refl eq_refl eq_refl))).
Defined.

(** [ParseStruct] on a struct, by the table name and the registry *)
Lemma ParseStruct_struct (m : Mapper.t) (model : Iface) (s : Struct) (name : string) :
  Spec.struct_of model = Some s ->
  Mapper.getTableName model (typ s) = Ok name ->
  Mapper.ParseStruct m model
  = match Mapper.registry m !! name with
    | Some info => (m, Ok info)
    | None =>
        match Mapper.parseFields (Fields (typ s)) [] with
        | Panic p => (m, Panic p)
        | Err e => (m, Err e)
        | Ok fields =>
            let info := {| TableInfo.Name := name;
                           TableInfo.Fields := fields;
                           TableInfo.Engine := EngineMergeTree;
                           TableInfo.Options := ∅ |} in
            ({| Mapper.registry := <[name := info]> (Mapper.registry m) |}, Ok info)
        end
    end.
Proof.
  intros Hs Hg. unfold Mapper.ParseStruct.
  rewrite (deref_struct _ _ Hs), Hg. reflexivity.
Qed.

Lemma ParseStruct_idempotent (m : Mapper.t) (model : Iface) :
  Mapper.ParseStruct (fst (Mapper.ParseStruct m model)) model
  = Mapper.ParseStruct m model.
Proof.
  destruct (Spec.struct_of model) as [s|] eqn:Hs.
  - destruct (Mapper.getTableName model (typ s)) as [name|e|p] eqn:Hg.
    + rewrite (ParseStruct_struct m model s name Hs Hg).
      destruct (Mapper.registry m !! name) as [info|] eqn:Hl.
      * cbn [fst]. rewrite (ParseStruct_struct m model s name Hs Hg), Hl. reflexivity.
      * destruct (Mapper.parseFields (Fields (typ s)) []) as [fields|e|p] eqn:Hp;
          cbn [fst].
        -- rewrite (ParseStruct_struct _ model s name Hs Hg).
           cbn [Mapper.registry]. rewrite lookup_insert_eq. reflexivity.
        -- rewrite (ParseStruct_struct m model s name Hs Hg), Hl, Hp. reflexivity.
        -- rewrite (ParseStruct_struct m model s name Hs Hg), Hl, Hp. reflexivity.
    + assert (H : forall m', Mapper.ParseStruct m' model = (m', Err e)).
      { intros m'. unfold Mapper.ParseStruct.
        rewrite (deref_struct _ _ Hs), Hg. reflexivity. }
      rewrite !H. reflexivity.
    + assert (H : forall m', Mapper.ParseStruct m' model = (m', Panic p)).
      { intros m'. unfold Mapper.ParseStruct.
        rewrite (deref_struct _ _ Hs), Hg. reflexivity. }
      rewrite !H. reflexivity.
  - assert (H : exists e, forall m', Mapper.ParseStruct m' model = (m', Err e)).
    { unfold Mapper.ParseStruct.
      destruct (match ObjKind (obj model) with KPtr => Elem (obj model) | _ => obj model end)
        as [|v|s|b t] eqn:Hv; try (eexists; intros; reflexivity).
      apply deref_struct_inv in Hv. congruence. }
    destruct H as [e H]. rewrite !H. reflexivity.
Qed.

(** a successful derivation returns the descriptor the registry holds
    for the table name afterwards, and leaves the other names alone *)
Lemma ParseStruct_registers (m m1 : Mapper.t) (model : Iface) (info : TableInfo.t) :
  Mapper.ParseStruct m model = (m1, Ok info) ->
  exists s name,
    Spec.struct_of model = Some s
    /\ Mapper.getTableName model (typ s) = Ok name
    /\ Mapper.registry m1 !! name = Some info
    /\ (Mapper.registry m !! name = Some info \/ TableInfo.Options info = ∅)
    /\ (forall other, other <> name ->
        Mapper.registry m1 !! other = Mapper.registry m !! other).
Proof.
  intros H.
  destruct (Spec.struct_of model) as [s|] eqn:Hs.
  - destruct (Mapper.getTableName model (typ s)) as [name|e|p] eqn:Hg.
    + exists s, name. rewrite (ParseStruct_struct m model s name Hs Hg) in H.
      destruct (Mapper.registry m !! name) as [info'|] eqn:Hl.
      * injection H as <- <-. repeat split; auto.
      * destruct (Mapper.parseFields (Fields (typ s)) []) as [fields|e|p];
          try discriminate.
        injection H as <- <-. cbn [Mapper.registry].
        split; [reflexivity|]. split; [exact Hg|].
        split; [apply lookup_insert_eq|].
        split; [right; reflexivity|].
        intros other Hne. apply lookup_insert_ne. congruence.
    + unfold Mapper.ParseStruct in H. rewrite (deref_struct _ _ Hs), Hg in H.
      discriminate.
    + unfold Mapper.ParseStruct in H. rewrite (deref_struct _ _ Hs), Hg in H.
      discriminate.
  - unfold Mapper.ParseStruct in H.
    destruct (match ObjKind (obj model) with KPtr => Elem (obj model) | _ => obj model end)
      as [|v|s|b t] eqn:Hv; try discriminate.
    apply deref_struct_inv in Hv. congruence.
Qed.

(** without engine options the create-table text does not depend on the
    order in which the options would be visited *)
Lemma BuildCreateTableSQL_no_options
    (range1 range2 : gmap string string -> list (string * string)) (info : TableInfo.t) :
  TableInfo.Options info = ∅ ->
  Mapper.BuildCreateTableSQL range1 info = Mapper.BuildCreateTableSQL range2 info.
Proof.
  intros H. unfold Mapper.BuildCreateTableSQL. rewrite H, map_size_empty. reflexivity.
Qed.

(** a registry whose descriptors carry no engine options only hands out
    descriptors whose create-table text is the same however the run time
    orders the options *)
Lemma create_table_text_stable
    (m m1 : Mapper.t) (model : Iface) (info : TableInfo.t)
    (range1 range2 : gmap string string -> list (string * string)) :
  (forall name cached, Mapper.registry m !! name = Some cached ->
                       TableInfo.Options cached = ∅) ->
  Mapper.ParseStruct m model = (m1, Ok info) ->
  Mapper.BuildCreateTableSQL range1 info = Mapper.BuildCreateTableSQL range2 info.
Proof.
  intros Hm H.
  destruct (ParseStruct_registers m m1 model info H)
    as (s & name & _ & _ & _ & [Hc | Ho] & _);
    apply BuildCreateTableSQL_no_options; eauto.
Qed.

(** C6: deriving again gives the same result and leaves the registry as
    the first derivation left it; a name that is registered is answered
    from the registry, whatever the record type now says; the descriptor
    a derivation returns is the registered one; and the create-table text
    of a derived descriptor is the same however the run time orders the
    engine options. *)
Theorem ParseStruct_cached_by_table_name :
  (forall m model,
      Mapper.ParseStruct (fst (Mapper.ParseStruct m model)) model
      = Mapper.ParseStruct m model)
  /\ (forall m model s name info,
      Spec.struct_of model = Some s ->
      Mapper.getTableName model (typ s) = Ok name ->
      Mapper.registry m !! name = Some info ->
      Mapper.ParseStruct m model = (m, Ok info))
  /\ (forall m m1 model info,
      Mapper.ParseStruct m model = (m1, Ok info) ->
      exists s name,
        Spec.struct_of model = Some s
        /\ Mapper.getTableName model (typ s) = Ok name
        /\ Mapper.registry m1 !! name = Some info
        /\ (forall other, other <> name ->
            Mapper.registry m1 !! other = Mapper.registry m !! other))
  /\ (forall model m1 info range1 range2,
      Mapper.ParseStruct Mapper.NewMapper model = (m1, Ok info) ->
      Mapper.BuildCreateTableSQL range1 info = Mapper.BuildCreateTableSQL range2 info).
Proof.
  split; [exact ParseStruct_idempotent|]. split; [|split].
  - intros m model s name info Hs Hg Hl.
    rewrite (ParseStruct_struct m model s name Hs Hg), Hl. reflexivity.
  - intros m m1 model info H.
    destruct (ParseStruct_registers m m1 model info H)
      as (s & name & Hs & Hg & Hl & _ & Ho).
    exists s, name. auto.
  - intros model m1 info range1 range2 H.
    apply (create_table_text_stable Mapper.NewMapper m1 model info); [|exact H].
    intros name cached Hl. cbn [Mapper.NewMapper Mapper.registry] in Hl.
    rewrite lookup_empty in Hl. discriminate.
Qed.

End Derivation.

Lemma ParseStruct_cached_by_table_name_witness :
  exists info,
    snd (Mapper.ParseStruct Mapper.NewMapper Sample.test_user) = Ok info
    /\ map FieldInfo.Name (TableInfo.Fields info)
       = ["id"; "name"; "age"; "created"; "is_active"; "score"]
    /\ Mapper.ParseStruct (fst (Mapper.ParseStruct Mapper.NewMapper Sample.test_user))
         Sample.test_user_v2
       = (fst (Mapper.ParseStruct Mapper.NewMapper Sample.test_user), Ok info)
    /\ Mapper.BuildCreateTableSQL map_to_list info
       = Mapper.BuildCreateTableSQL (fun o => rev (map_to_list o)) info.
Proof.
  destruct ParseStruct_cached_by_table_name as (_ & Hcache & _ & Htext).
  eexists. split; [vm_compute; reflexivity|]. split; [vm_compute; reflexivity|].
  split.
  - apply (Hcache _ Sample.test_user_v2
             {| reflect.typ := Sample.TestUserV2;
                reflect.vals := [reflect.VInt reflect.uint64_t 1] |}
             "test_users"); vm_compute; reflexivity.
  - apply (Htext Sample.test_user
             (fst (Mapper.ParseStruct Mapper.NewMapper Sample.test_user))).
    vm_compute. reflexivity.
Defined.

(** * Further properties of the builders *)

Section BuilderCalls.
Local Open Scope nat_scope.
Import Calls.




(** X2: [WhereIn] and [WhereNotIn] with [n > 0] values add one predicate
    that holds [n] placeholders beside those of the field name, and hand
    over the [n] values; with no value they leave the builder as it is *)
Theorem WhereIn_placeholders (field : string) (values : list reflect.Value) (q : Query.t) :
  (values = [] ->
   Query.WhereIn field values q = q /\ Query.WhereNotIn field values q = q)
  /\ (values <> [] ->
      exists c c',
        Query.wheres (Query.WhereIn field values q) = Query.wheres q ++ [c]
        /\ Query.wheres (Query.WhereNotIn field values q) = Query.wheres q ++ [c']
        /\ placeholders c = placeholders field + length values
        /\ placeholders c' = placeholders field + length values
        /\ Query.args (Query.WhereIn field values q) = Query.args q ++ values
        /\ Query.args (Query.WhereNotIn field values q) = Query.args q ++ values).
Proof.
  split.
  - intros ->. split; reflexivity.
  - intros Hne. destruct values as [|v values]; [congruence|].
    unfold Query.WhereIn, Query.WhereNotIn. do 2 eexists.
    split; [reflexivity|]. split; [reflexivity|].
    rewrite !placeholders_app, !placeholders_Join by reflexivity.
    rewrite (placeholders_marks (v :: values)).
    cbn [placeholders Ascii.eqb Bool.eqb length].
    repeat split; lia.
Qed.

Lemma WhereIn_placeholders_witness :
  Query.buildSQL (Query.WhereIn "id" [Sample.int 1; Sample.int 2; Sample.int 3] Sample.users)
  = "SELECT * FROM users WHERE id IN (?, ?, ?)"
  /\ Query.WhereIn "id" [] Sample.users = Sample.users
  /\ exists c,
       Query.wheres (Query.WhereIn "id" [Sample.int 1; Sample.int 2] Sample.users) = [c]
       /\ placeholders c = 2.
Proof.
  split; [reflexivity|].
  split; [exact (proj1 (proj1 (WhereIn_placeholders "id" [] Sample.users) eq_refl))|].
  destruct (proj2 (WhereIn_placeholders "id" [Sample.int 1; Sample.int 2] Sample.users))
    as (c & c' & Hc & _ & Hp & _); [discriminate|].
  exists c. split; [exact Hc | exact Hp].
Defined.

(** X3: a limit or an offset that is not positive is not rendered *)
Theorem nonpositive_limit_not_rendered (n : Z) (q : Query.t) :
  (n <= 0)%Z ->
  Query.buildSQL (Query.Limit n q) = Query.buildSQL (Query.Limit 0 q)
  /\ Query.buildSQL (Query.Offset n q) = Query.buildSQL (Query.Offset 0 q).
Proof.
  intros Hn. unfold Query.buildSQL, Query.Limit, Query.Offset.
  cbn [Query.limit Query.offset Query.set_limit Query.set_offset Query.selects
       Query.distinct Query.table Query.joins Query.wheres Query.groupBy
       Query.having Query.orderBy].
  destruct (Z.ltb_spec 0 n); [lia|]. split; reflexivity.
Qed.

Lemma nonpositive_limit_not_rendered_witness :
  Query.buildSQL (Query.Limit (-5) Sample.users) = "SELECT * FROM users"
  /\ Query.buildSQL (Query.Offset (-5) (Query.Limit 3 Sample.users))
     = "SELECT * FROM users LIMIT 3".
Proof.
  split.
  - rewrite (proj1 (nonpositive_limit_not_rendered (-5) Sample.users ltac:(lia))).
    reflexivity.
  - rewrite (proj2 (nonpositive_limit_not_rendered (-5) (Query.Limit 3 Sample.users)
                      ltac:(lia))).
    reflexivity.
Defined.

End BuilderCalls.

Section Terminals.
Local Open Scope nat_scope.
Import Calls.



Lemma HasPrefix_split (s p : string) :
  strings.HasPrefix s p = true -> s = p +:+ strings.skip (String.length p) s.
Proof.
  revert s. induction p as [|a p IH]; intros s H; [reflexivity|].
  destruct s as [|b s]; [discriminate|].
  cbn [strings.HasPrefix] in H.
  destruct (Ascii.eqb_spec a b) as [->|]; [|discriminate].
  cbn [String.length strings.skip]. rewrite append_cons, <- (IH s H). reflexivity.
Qed.

Lemma placeholders_Replace1 (s old new : string) :
  placeholders old = 0 -> placeholders new = 0 ->
  placeholders (strings.Replace1 s old new) = placeholders s.
Proof.
  intros Ho Hn. induction s as [|c s IH].
  - cbn [strings.Replace1]. destruct (strings.HasPrefix EmptyString old) eqn:Hp.
    + rewrite placeholders_app, Hn.
      rewrite (HasPrefix_split _ _ Hp) at 2. rewrite placeholders_app, Ho. reflexivity.
    + reflexivity.
  - cbn [strings.Replace1]. destruct (strings.HasPrefix (String c s) old) eqn:Hp.
    + rewrite placeholders_app, Hn.
      rewrite (HasPrefix_split _ _ Hp) at 2. rewrite placeholders_app, Ho. reflexivity.
    + cbn [placeholders]. rewrite IH. reflexivity.
Qed.

Lemma placeholders_invert (order : string) :
  placeholders (Query.invert order) = placeholders order.
Proof.
  unfold Query.invert.
  destruct (strings.Contains order "ASC");
    [apply placeholders_Replace1; reflexivity|].
  destruct (strings.Contains order "DESC");
    [apply placeholders_Replace1; reflexivity|].
  rewrite placeholders_app. cbn. lia.
Qed.

Lemma placeholders_inverted (l : list string) :
  list_sum (map placeholders (map Query.invert l)) = list_sum (map placeholders l).
Proof.
  induction l as [|e l IH]; [reflexivity|].
  cbn [map list_sum fold_right]. rewrite placeholders_invert.
  unfold list_sum in IH. rewrite IH. reflexivity.
Qed.

Lemma aligned_set_limit (n : Z) (q : Query.t) :
  aligned q -> aligned (Query.set_limit n q).
Proof. intros H. exact H. Qed.

Lemma aligned_set_selects (l : list string) (q : Query.t) :
  list_sum (map placeholders l) = 0 -> aligned q -> aligned (Query.set_selects l q).
Proof. intros Hl (Ht & Hs & Hg & Ho & Ha). repeat split; assumption. Qed.

Lemma aligned_set_orderBy (l : list string) (q : Query.t) :
  list_sum (map placeholders l) = 0 -> aligned q -> aligned (Query.set_orderBy l q).
Proof. intros Hl (Ht & Hs & Hg & Ho & Ha). repeat split; assumption. Qed.

(** X5: on a builder that holds one argument per placeholder, every reading
    terminal sends one statement with as many placeholders as
    arguments: the projections [Count] and [Exists] put in, the limit
    the terminals force and the order entries [Last] writes add no
    placeholder *)
Theorem reads_send_aligned_statements
    (q : Query.t) (w : DB.World) (result : reflect.Iface) :
  aligned q ->
  Spec.one_aligned_statement w (snd (fst (Query.Get q w result)))
  /\ Spec.one_aligned_statement w (snd (fst (Query.First q w result)))
  /\ Spec.one_aligned_statement w (snd (fst (Query.Last q w result)))
  /\ Spec.one_aligned_statement w (snd (fst (Query.Count q w)))
  /\ Spec.one_aligned_statement w (snd (fst (Query.Exists q w))).
Proof.
  intros Hq.
  assert (Hget : forall q0, aligned q0 ->
            Spec.one_aligned_statement w (snd (fst (Query.Get q0 w result)))).
  { intros q0 H0. unfold Query.Get, DB.QueryRow. cbn [fst snd].
    eexists. split; [reflexivity|]. cbn [DB.text DB.params].
    symmetry. apply (aligned_count (Query.set_limit 1 q0)).
    apply (aligned_set_limit 1), H0. }
  split; [apply Hget, Hq|].
  split; [apply Hget, (aligned_set_limit 1), Hq|].
  split; [|split].
  - unfold Query.Last.
    set (q1 := Query.set_limit 1 _).
    assert (H1 : aligned q1).
    { unfold q1. apply (aligned_set_limit 1).
      destruct (Query.orderBy q) eqn:E.
      - apply aligned_set_orderBy; [reflexivity | exact Hq].
      - apply aligned_set_orderBy; [|exact Hq].
        rewrite placeholders_inverted, <- E. apply Hq. }
    specialize (Hget q1 H1).
    destruct (Query.Get q1 w result) as [[q2 w2] r2]. cbn [fst snd] in Hget.
    destruct r2; exact Hget.
  - unfold Query.Count, DB.QueryRow. rewrite scanRow_scalar. cbn [fst snd].
    eexists. split; [reflexivity|]. cbn [DB.text DB.params].
    symmetry. apply (aligned_count (Query.set_selects ["COUNT(*)"] q)),
      aligned_set_selects; [reflexivity | exact Hq].
  - unfold Query.Exists, DB.QueryRow. rewrite scanRow_scalar. cbn [fst snd].
    eexists. split; [reflexivity|]. cbn [DB.text DB.params].
    symmetry. apply (aligned_count (Query.set_limit 1 (Query.set_selects ["1"] q))),
      (aligned_set_limit 1), aligned_set_selects; [reflexivity | exact Hq].
Qed.

Lemma reads_send_aligned_statements_witness :
  aligned (run_all Sample.join_before_where (Query.NewQuery Sample.db))
  /\ Spec.one_aligned_statement []
       (snd (fst (Query.Last (run_all Sample.join_before_where (Query.NewQuery Sample.db))
                    [] Sample.test_user))).
Proof.
  assert (H : aligned (run_all Sample.join_before_where (Query.NewQuery Sample.db))).
  { apply run_all_aligned; [vm_compute; reflexivity | apply aligned_NewQuery]. }
  split; [exact H|].
  exact (proj1 (proj2 (proj2 (reads_send_aligned_statements _ [] Sample.test_user H)))).
Defined.

Lemma where_suffix_placeholders (q : Query.t) :
  placeholders (Query.where_suffix q) = list_sum (map placeholders (Query.wheres q)).
Proof.
  unfold Query.where_suffix. destruct (Query.wheres q) as [|c l]; [reflexivity|].
  cbn [Query.nonnil]. rewrite placeholders_app, placeholders_Join by reflexivity.
  reflexivity.
Qed.

Lemma assignments_placeholders (data : list (string * reflect.Value)) :
  Forall (fun kv => placeholders (fst kv) = 0) data ->
  list_sum (map placeholders (map (fun kv => fst kv +:+ " = ?") data)) = length data.
Proof.
  induction 1 as [|kv data Hkv _ IH]; [reflexivity|].
  cbn [map list_sum fold_right length]. rewrite placeholders_app, Hkv.
  unfold list_sum in IH. rewrite IH. reflexivity.
Qed.

(** X6: [Update] and [Delete] render the predicates only but send the whole
    argument list: on a builder that holds one argument per placeholder,
    the statement has as many arguments as placeholders plus one for
    every placeholder of the join and having entries *)
Theorem writes_send_all_arguments
    (q : Query.t) (w : DB.World) (data : list (string * reflect.Value)) :
  aligned q ->
  Forall (fun kv => placeholders (fst kv) = 0) data ->
  data <> [] ->
  (exists stmt r,
      Query.Update q w data = (q, w ++ [stmt], r)
      /\ placeholders (DB.text stmt)
         + list_sum (map placeholders (Query.joins q))
         + list_sum (map placeholders (Query.having q))
         = length (DB.params stmt))
  /\ (exists stmt r,
      Query.Delete q w = (q, w ++ [stmt], r)
      /\ placeholders (DB.text stmt)
         + list_sum (map placeholders (Query.joins q))
         + list_sum (map placeholders (Query.having q))
         = length (DB.params stmt)).
Proof.
  intros (Ht & Hs & Hg & Ho & Ha) Hd Hne. split.
  - destruct data as [|kv data]; [congruence|].
    unfold Query.Update, DB.Exec. do 2 eexists. split; [reflexivity|].
    cbn [DB.text DB.params].
    rewrite !placeholders_app, placeholders_Join, where_suffix_placeholders,
      (assignments_placeholders _ Hd), Ht, length_app, length_map by reflexivity.
    cbn [placeholders Ascii.eqb Bool.eqb]. lia.
  - unfold Query.Delete, DB.Exec. do 2 eexists. split; [reflexivity|].
    cbn [DB.text DB.params].
    rewrite !placeholders_app, where_suffix_placeholders, Ht.
    cbn [placeholders Ascii.eqb Bool.eqb]. lia.
Qed.

Lemma writes_send_all_arguments_witness :
  let q := run_all Sample.join_before_where (Query.NewQuery Sample.db) in
  aligned q
  /\ list_sum (map placeholders (Query.joins q)) = 1
  /\ list_sum (map placeholders (Query.having q)) = 1
  /\ exists stmt r,
       Query.Delete q [] = (q, [stmt], r)
       /\ placeholders (DB.text stmt) + 1 + 1 = length (DB.params stmt).
Proof.
  intros q.
  assert (H : aligned q).
  { apply run_all_aligned; [vm_compute; reflexivity | apply aligned_NewQuery]. }
  assert (Hj : list_sum (map placeholders (Query.joins q)) = 1) by reflexivity.
  assert (Hh : list_sum (map placeholders (Query.having q)) = 1) by reflexivity.
  split; [exact H|]. split; [exact Hj|]. split; [exact Hh|].
  destruct (proj2 (writes_send_all_arguments q [] [("a", Sample.int 1)] H
                     ltac:(repeat constructor) ltac:(discriminate)))
    as (stmt & r & Hd & Hp).
  exists stmt, r. split; [exact Hd|].
  rewrite Hj, Hh in Hp. exact Hp.
Defined.

(** every terminal sends exactly one statement, after those sent before;
    [Update] sends none when it is given no data *)
Theorem terminals_send_one_statement
    (q : Query.t) (w : DB.World) (result : reflect.Iface)
    (data : list (string * reflect.Value)) :
  Spec.one_statement w (snd (fst (Query.Get q w result)))
  /\ Spec.one_statement w (snd (fst (Query.First q w result)))
  /\ Spec.one_statement w (snd (fst (Query.Last q w result)))
  /\ Spec.one_statement w (snd (fst (Query.Count q w)))
  /\ Spec.one_statement w (snd (fst (Query.Exists q w)))
  /\ Spec.one_statement w (snd (fst (Query.Delete q w)))
  /\ (if Query.nonnil data
      then Spec.one_statement w (snd (fst (Query.Update q w data)))
      else snd (fst (Query.Update q w data)) = w).
Proof.
  assert (Hget : forall q0, Spec.one_statement w (snd (fst (Query.Get q0 w result)))).
  { intros q0. eexists. reflexivity. }
  split; [apply Hget|]. split; [apply Hget|]. split; [|split; [|split; [|split]]].
  - unfold Query.Last. set (q1 := Query.set_limit 1 _). specialize (Hget q1).
    destruct (Query.Get q1 w result) as [[q2 w2] r2].
    destruct r2; exact Hget.
  - unfold Query.Count, DB.QueryRow. rewrite scanRow_scalar. eexists. reflexivity.
  - eexists. reflexivity.
  - eexists. reflexivity.
  - destruct data; [reflexivity|]. eexists. reflexivity.
Qed.

(** [First] is [Get]; both leave the limit at 1 and the rest of the
    builder as it was *)
Theorem First_is_Get (q : Query.t) (w : DB.World) (result : reflect.Iface) :
  Query.First q w result = Query.Get q w result
  /\ fst (fst (Query.Get q w result)) = Query.set_limit 1 q.
Proof. split; reflexivity. Qed.

End Terminals.

Section AggregateWindow.

Lemma append_nil_r (s : string) : s +:+ EmptyString = s.
Proof.
  induction s as [|c s IH]; [reflexivity|].
  rewrite append_cons, IH. reflexivity.
Qed.

Lemma Join_head (h : string) (t : list string) (sep : string) :
  exists rest, strings.Join (h :: t) sep = h +:+ rest.
Proof.
  destruct t as [|x t].
  - exists EmptyString. cbn [strings.Join]. rewrite append_nil_r. reflexivity.
  - eexists. reflexivity.
Qed.

(** X7: [Aggregate.Get] without an accumulated function returns an error and
    sends nothing; otherwise the accumulated functions become the
    projections of the builder, for good, and the statement sent selects
    them in the order of the calls *)
Theorem Aggregate_Get_selects_funcs
    (a : Aggregate.t) (w : DB.World) (result : reflect.Iface) :
  (Aggregate.funcs a = [] ->
   Aggregate.Get a w result = (a, w, Err "no aggregate functions specified"))
  /\ (Aggregate.funcs a <> [] ->
      exists stmt r rest,
        Aggregate.Get a w result
        = ({| Aggregate.query :=
                Query.set_limit 1 (Query.set_selects (Aggregate.funcs a) (Aggregate.query a));
              Aggregate.funcs := Aggregate.funcs a |},
           w ++ [stmt], r)
        /\ DB.text stmt
           = "SELECT "
             +:+ (if Query.distinct (Aggregate.query a) then "DISTINCT " else EmptyString)
             +:+ strings.Join (Aggregate.funcs a) ", " +:+ rest
        /\ DB.params stmt = Query.args (Aggregate.query a)).
Proof.
  split.
  - intros H. unfold Aggregate.Get. rewrite H. reflexivity.
  - intros H. unfold Aggregate.Get.
    destruct (Aggregate.funcs a) as [|f fs] eqn:E; [congruence|].
    unfold Query.Get, DB.QueryRow.
    set (q1 := Query.set_limit 1 _).
    destruct (Join_head
                (("SELECT " +:+ (if Query.distinct q1 then "DISTINCT " else EmptyString))
                 +:+ strings.Join (Query.selects q1) ", ")
                ((if nonempty (Query.table q1) then ["FROM " +:+ Query.table q1] else [])
                 ++ (if Query.nonnil (Query.joins q1)
                     then [strings.Join (Query.joins q1) " "] else [])
                 ++ (if Query.nonnil (Query.wheres q1)
                     then ["WHERE " +:+ strings.Join (Query.wheres q1) " AND "] else [])
                 ++ (if Query.nonnil (Query.groupBy q1)
                     then ["GROUP BY " +:+ strings.Join (Query.groupBy q1) ", "] else [])
                 ++ (if Query.nonnil (Query.having q1)
                     then ["HAVING " +:+ strings.Join (Query.having q1) " AND "] else [])
                 ++ (if Query.nonnil (Query.orderBy q1)
                     then ["ORDER BY " +:+ strings.Join (Query.orderBy q1) ", "] else [])
                 ++ (if (0 <? Query.limit q1)%Z
                     then ["LIMIT " +:+ fmt.d (Query.limit q1)] else [])
                 ++ (if (0 <? Query.offset q1)%Z
                     then ["OFFSET " +:+ fmt.d (Query.offset q1)] else []))
                " ") as [rest Hrest].
    exists {| DB.text := Query.buildSQL q1; DB.params := Query.args q1 |}.
    eexists. exists rest. split; [reflexivity|]. split; [|reflexivity].
    cbn [DB.text]. unfold Query.buildSQL. cbn [app] in Hrest |- *.
    rewrite Hrest. rewrite !append_assoc. reflexivity.
Qed.

Lemma Aggregate_Get_selects_funcs_witness :
  let a := Aggregate.Avg "score" (Aggregate.Count "*" (Aggregate.NewAggregate Sample.users)) in
  Aggregate.Get (Aggregate.NewAggregate Sample.users) [] Sample.test_user
  = (Aggregate.NewAggregate Sample.users, [], Err "no aggregate functions specified")
  /\ Aggregate.funcs a <> []
  /\ exists stmt rest,
       snd (fst (Aggregate.Get a [] Sample.test_user)) = [stmt]
       /\ DB.text stmt = "SELECT COUNT(*) as count, AVG(score) as avg_score" +:+ rest.
Proof.
  intros a.
  split; [exact (proj1 (Aggregate_Get_selects_funcs (Aggregate.NewAggregate Sample.users)
                         [] Sample.test_user) eq_refl)|].
  assert (H : Aggregate.funcs a <> []) by discriminate.
  split; [exact H|].
  destruct (proj2 (Aggregate_Get_selects_funcs a [] Sample.test_user) H)
    as (stmt & r & rest & Hg & Ht & _).
  exists stmt, rest. rewrite Hg. split; [reflexivity | exact Ht].
Defined.

Lemma nonempty_append (a b : string) : nonempty a = true -> nonempty (a +:+ b) = true.
Proof. destruct a; [discriminate|reflexivity]. Qed.

(** X8: [AddToQuery] leaves the builder alone when no function was chosen;
    otherwise it appends exactly the built expression, which is not
    empty, after the projections the builder has *)
Theorem AddToQuery_appends_built (w : Window.t) :
  (Window.function w = EmptyString ->
   Window.Build w = EmptyString /\ Window.AddToQuery w = Window.query w)
  /\ (Window.function w <> EmptyString ->
      Window.Build w <> EmptyString
      /\ Window.AddToQuery w
         = Query.set_selects (Query.selects (Window.query w) ++ [Window.Build w])
             (Window.query w)).
Proof.
  split.
  - intros H. unfold Window.AddToQuery, Window.Build. rewrite H. split; reflexivity.
  - intros H.
    assert (Hb : nonempty (Window.Build w) = true).
    { unfold Window.Build. rewrite (eqb_empty_false _ H).
      apply nonempty_append. destruct (Window.function w); [congruence|reflexivity]. }
    split.
    + intros E. rewrite E in Hb. discriminate.
    + unfold Window.AddToQuery. rewrite (eqb_empty_false _ H), Hb. reflexivity.
Qed.

Lemma AddToQuery_appends_built_witness :
  Query.buildSQL
    (Window.AddToQuery
       (Window.As "rn" (Window.Over "user_id" "created DESC"
                          (Window.RowNumber (Window.NewWindow Sample.users)))))
  = "SELECT *, ROW_NUMBER() OVER (PARTITION BY user_id ORDER BY created DESC) AS rn FROM users"
  /\ Window.AddToQuery (Window.As "rn" (Window.NewWindow Sample.users)) = Sample.users.
Proof.
  split.
  - set (w0 := Window.As "rn" _).
    assert (H : Window.function w0 <> EmptyString) by (vm_compute; discriminate).
    rewrite (proj2 (proj2 (AddToQuery_appends_built w0) H)).
    reflexivity.
  - exact (proj2 (proj1 (AddToQuery_appends_built
                           (Window.As "rn" (Window.NewWindow Sample.users))) eq_refl)).
Defined.

End AggregateWindow.

(** * Further properties of the mapper *)

Section MapperMore.
Import reflect.

(** X9: a derivation that does not return a descriptor leaves the registry
    as it was; on anything but a struct or a pointer to a struct it
    returns an error *)
Theorem ParseStruct_failure_keeps_registry (m : Mapper.t) (model : Iface) :
  ((forall info, snd (Mapper.ParseStruct m model) <> Ok info) ->
   fst (Mapper.ParseStruct m model) = m)
  /\ (Spec.struct_of model = None ->
      exists e, Mapper.ParseStruct m model = (m, Err e)).
Proof.
  split.
  - intros H.
    destruct (Mapper.ParseStruct m model) as [m1 r] eqn:E. cbn [fst snd] in *.
    destruct r as [info|e|p].
    + exfalso. apply (H info). reflexivity.
    + unfold Mapper.ParseStruct in E.
      repeat match type of E with
             | (match ?x with _ => _ end) = _ => destruct x
             end; congruence.
    + unfold Mapper.ParseStruct in E.
      repeat match type of E with
             | (match ?x with _ => _ end) = _ => destruct x
             end; congruence.
  - intros Hs. unfold Mapper.ParseStruct.
    destruct (match ObjKind (obj model) with KPtr => Elem (obj model) | _ => obj model end)
      as [|v|s|b t] eqn:Hv; try (eexists; reflexivity).
    apply deref_struct_inv in Hv. congruence.
Qed.

Lemma ParseStruct_failure_keeps_registry_witness :
  Mapper.ParseStruct Mapper.NewMapper {| obj := OVal (Sample.int 3); tableName := None |}
  = (Mapper.NewMapper, Err "model must be a struct, got int")
  /\ fst (Mapper.ParseStruct Mapper.NewMapper Sample.empty_record) = Mapper.NewMapper.
Proof.
  split; [reflexivity|].
  apply (proj1 (ParseStruct_failure_keeps_registry Mapper.NewMapper Sample.empty_record)).
  intros info. vm_compute. discriminate.
Defined.

Lemma parseFields_acc (fields : list StructField) (acc : list FieldInfo.t) :
  Mapper.parseFields fields acc
  = Ok (acc ++ filter (fun fi => nonempty (FieldInfo.Name fi) = true)
                 (map (fun f => fst (Mapper.parseField f)) fields)).
Proof.
  revert acc. induction fields as [|f fields IH]; intros acc.
  - cbn. rewrite app_nil_r. reflexivity.
  - cbn [Mapper.parseFields map]. unfold Mapper.parseField at 1.
    cbn [fst]. rewrite IH. rewrite filter_cons.
    fold (Mapper.parseField f).
    destruct (nonempty (FieldInfo.Name (fst (Mapper.parseField f)))) eqn:E.
    + unfold Mapper.parseField in E. cbn [fst] in E. rewrite E.
      rewrite decide_True by reflexivity. rewrite <- app_assoc. reflexivity.
    + unfold Mapper.parseField in E. cbn [fst] in E. rewrite E.
      rewrite decide_False by discriminate. reflexivity.
Qed.

Lemma goType_nonempty (t : Type_) : nonempty (Mapper.goTypeToClickHouseType t) = true.
Proof. destruct t as [k n|e|l e|e|n|k n]; cbn; try destruct k; try reflexivity.
  destruct (String.eqb n "time.Time"); reflexivity.
Qed.

Lemma column_type_nonempty (f : StructField) :
  nonempty (FieldInfo.Type_ (fst (Mapper.parseField f))) = true.
Proof.
  unfold Mapper.parseField. cbn [fst FieldInfo.Type_].
  destruct (nonempty (Get (Tag f) "ch_type")) eqn:E; [exact E|apply goType_nonempty].
Qed.

(** X10: on a struct whose table name resolves and is not registered yet,
    derivation succeeds: the descriptor has one field per struct field
    (with a non-empty name), in declaration order, each with a non-empty
    column type, the default engine and no option, and it is what the
    registry holds afterwards *)
Theorem derived_fields_in_declaration_order
    (m : Mapper.t) (model : Iface) (s : Struct) (name : string) :
  Spec.struct_of model = Some s ->
  Mapper.getTableName model (typ s) = Ok name ->
  Mapper.registry m !! name = None ->
  exists info,
    Mapper.ParseStruct m model
    = ({| Mapper.registry := <[name := info]> (Mapper.registry m) |}, Ok info)
    /\ TableInfo.Name info = name
    /\ TableInfo.Fields info
       = filter (fun fi => nonempty (FieldInfo.Name fi) = true)
           (map (fun f => fst (Mapper.parseField f)) (Fields (typ s)))
    /\ Forall (fun fi => nonempty (FieldInfo.Type_ fi) = true) (TableInfo.Fields info)
    /\ TableInfo.Engine info = "MergeTree"
    /\ TableInfo.Options info = ∅.
Proof.
  intros Hs Hg Hl.
  rewrite (ParseStruct_struct m model s name Hs Hg), Hl, parseFields_acc.
  eexists. split; [reflexivity|]. cbn [TableInfo.Name TableInfo.Fields app].
  repeat split.
  apply Forall_forall. intros fi Hin.
  apply list_elem_of_filter in Hin as [_ Hin].
  rewrite list_elem_of_In in Hin. apply in_map_iff in Hin as (f & <- & _).
  apply column_type_nonempty.
Qed.

Lemma derived_fields_in_declaration_order_witness :
  exists info,
    snd (Mapper.ParseStruct Mapper.NewMapper Sample.test_user) = Ok info
    /\ map (fun fi => (FieldInfo.Name fi, FieldInfo.Type_ fi)) (TableInfo.Fields info)
       = [("id", "UInt32"); ("name", "String"); ("age", "UInt8");
          ("created", "DateTime"); ("is_active", "Boolean"); ("score", "Float64")]
    /\ length (TableInfo.Fields info) = length (Fields Sample.TestUser).
Proof.
  destruct (derived_fields_in_declaration_order Mapper.NewMapper Sample.test_user
              Sample.test_user_value "test_users" eq_refl eq_refl eq_refl)
    as (info & Hp & _ & Hf & _).
  exists info. rewrite Hp. split; [reflexivity|].
  rewrite Hf. split; reflexivity.
Defined.

End MapperMore.

Section FieldAccess.
Import reflect.
Variable ParseFloat : string -> option fmt.float64.
Variable SprintOther : Value -> string.

Lemma kind_eqb_refl (k : Kind) : kind_eqb k k = true.
Proof. unfold kind_eqb. apply String.eqb_refl. Qed.

Lemma type_eqb_refl (t : Type_) : type_eqb t t = true.
Proof.
  induction t; cbn [type_eqb];
    rewrite ?kind_eqb_refl, ?String.eqb_refl, ?Z.eqb_refl, ?IHt; reflexivity.
Qed.


(** X11: writing a value of the field's own type and reading the field back
    gives the value, and the other fields read as before *)
Theorem SetFieldValue_then_GetFieldValue
    (model : Iface) (s : Struct) (fieldName : string) (value : Value)
    (i : nat) (field : StructField) :
  obj model = OPtr false (OStruct s) ->
  Mapper.FieldByName s fieldName = Some (i, field) ->
  PkgPath field = EmptyString ->
  (i < length (vals s))%nat ->
  TypeOf value = Some (FType field) ->
  let after := fst (Mapper.SetFieldValue ParseFloat SprintOther model fieldName value) in
  snd (Mapper.SetFieldValue ParseFloat SprintOther model fieldName value) = None
  /\ Mapper.GetFieldValue after fieldName = Ok value
  /\ (forall other j field',
         Mapper.FieldByName s other = Some (j, field') -> j <> i ->
         Mapper.GetFieldValue after other = Mapper.GetFieldValue model other).
Proof.
  intros Hobj Hf Hpkg Hi Ht after.
  assert (E : Mapper.SetFieldValue ParseFloat SprintOther model fieldName value
              = ({| obj := OPtr false (OStruct (Mapper.set_field s i value));
                    tableName := tableName model |}, None)).
  { unfold Mapper.SetFieldValue. rewrite Hobj, Hf, Hpkg, Ht.
    cbn [nonempty String.eqb negb Mapper.same_type]. rewrite type_eqb_refl. reflexivity. }
  unfold after. rewrite E. cbn [fst snd]. split; [reflexivity|]. split.
  - unfold Mapper.GetFieldValue. cbn [obj ObjKind Elem].
    unfold Mapper.FieldByName in *. cbn [Mapper.set_field typ vals].
    rewrite Hf, Hpkg. cbn [nonempty String.eqb negb].
    rewrite list_lookup_insert_eq by exact Hi. reflexivity.
  - intros other j field' Ho Hj.
    unfold Mapper.GetFieldValue. rewrite Hobj. cbn [obj ObjKind Elem].
    unfold Mapper.FieldByName in *. cbn [Mapper.set_field typ vals].
    rewrite Ho. rewrite list_lookup_insert_ne by congruence. reflexivity.
Qed.



End FieldAccess.

Lemma SetFieldValue_then_GetFieldValue_witness :
  let after :=
    fst (Mapper.SetFieldValue (fun _ => None) (fun _ => "?") Sample.test_user "Name"
           (Sample.str "Ann")) in
  Mapper.GetFieldValue after "Name" = Ok (Sample.str "Ann")
  /\ Mapper.GetFieldValue after "Age" = Ok (reflect.VInt reflect.uint8_t 25).
Proof.
  intros after.
  destruct (SetFieldValue_then_GetFieldValue (fun _ => None) (fun _ => "?")
              Sample.test_user Sample.test_user_value "Name" (Sample.str "Ann") 1%nat
              {| reflect.Name := "Name"; reflect.PkgPath := EmptyString;
                 reflect.FType := reflect.string_t;
                 reflect.Tag := [("ch", "name"); ("ch_type", "String")];
                 reflect.Anonymous := false |}
              eq_refl eq_refl eq_refl ltac:(vm_compute; lia) eq_refl)
    as (_ & Hget & Hother).
  split; [exact Hget|]. unfold after.
  rewrite (Hother "Age" 2%nat
             {| reflect.Name := "Age"; reflect.PkgPath := EmptyString;
                reflect.FType := reflect.uint8_t;
                reflect.Tag := [("ch", "age"); ("ch_type", "UInt8")];
                reflect.Anonymous := false |}
             eq_refl ltac:(lia)).
  reflexivity.
Defined.



Section CreateTableText.

Lemma columnDef_ext (fields fields' : list FieldInfo.t) :
  map (fun f => (FieldInfo.Name f, FieldInfo.Type_ f, FieldInfo.IsPK f, FieldInfo.IsAuto f))
    fields
  = map (fun f => (FieldInfo.Name f, FieldInfo.Type_ f, FieldInfo.IsPK f, FieldInfo.IsAuto f))
      fields' ->
  map Mapper.columnDef fields = map Mapper.columnDef fields'.
Proof.
  revert fields'. induction fields as [|f fields IH]; intros [|f' fields'] H;
    try discriminate; [reflexivity|].
  cbn [map] in *. injection H as Hn Ht Hp Ha Hr.
  rewrite (IH _ Hr). unfold Mapper.columnDef. rewrite Hn, Ht, Hp, Ha. reflexivity.
Qed.

(** X14: the create-table text is made of the name, type, primary-key and
    auto-increment flags of the fields: the nullable flag and the tag of
    a descriptor never show in it; and an empty engine name stands for
    [MergeTree] *)
Theorem create_table_text_ignores_nullable
    (range_map : gmap string string -> list (string * string))
    (name engine : string) (fields fields' : list FieldInfo.t)
    (options : gmap string string) :
  map (fun f => (FieldInfo.Name f, FieldInfo.Type_ f, FieldInfo.IsPK f, FieldInfo.IsAuto f))
    fields
  = map (fun f => (FieldInfo.Name f, FieldInfo.Type_ f, FieldInfo.IsPK f, FieldInfo.IsAuto f))
      fields' ->
  Mapper.BuildCreateTableSQL range_map
    {| TableInfo.Name := name; TableInfo.Fields := fields;
       TableInfo.Engine := engine; TableInfo.Options := options |}
  = Mapper.BuildCreateTableSQL range_map
      {| TableInfo.Name := name; TableInfo.Fields := fields';
         TableInfo.Engine := engine; TableInfo.Options := options |}
  /\ Mapper.BuildCreateTableSQL range_map
       {| TableInfo.Name := name; TableInfo.Fields := fields;
          TableInfo.Engine := EmptyString; TableInfo.Options := options |}
     = Mapper.BuildCreateTableSQL range_map
         {| TableInfo.Name := name; TableInfo.Fields := fields;
            TableInfo.Engine := "MergeTree"; TableInfo.Options := options |}.
Proof.
  intros H. unfold Mapper.BuildCreateTableSQL.
  cbn [TableInfo.Name TableInfo.Fields TableInfo.Engine TableInfo.Options].
  rewrite (columnDef_ext _ _ H). split; reflexivity.
Qed.

End CreateTableText.

Lemma create_table_text_ignores_nullable_witness :
  let column nullable :=
    {| FieldInfo.Name := "email"; FieldInfo.Type_ := "String"; FieldInfo.Tag := EmptyString;
       FieldInfo.IsPK := false; FieldInfo.IsAuto := false; FieldInfo.Nullable := nullable |} in
  Mapper.BuildCreateTableSQL map_to_list
    {| TableInfo.Name := "users"; TableInfo.Fields := [column true];
       TableInfo.Engine := "Memory"; TableInfo.Options := ∅ |}
  = Mapper.BuildCreateTableSQL map_to_list
      {| TableInfo.Name := "users"; TableInfo.Fields := [column false];
         TableInfo.Engine := "Memory"; TableInfo.Options := ∅ |}.
Proof.
  intros column.
  exact (proj1 (create_table_text_ignores_nullable map_to_list "users" "Memory"
                  [column true] [column false] ∅ eq_refl)).
Defined.

(** * Further properties of the connection *)

Section Writes.
Import reflect.

(** what a fresh mapper derives, when it derives a descriptor *)
Lemma ParseStruct_fresh (model : Iface) (info : TableInfo.t) :
  snd (Mapper.ParseStruct Mapper.NewMapper model) = Ok info ->
  exists s name,
    Spec.struct_of model = Some s
    /\ Mapper.getTableName model (typ s) = Ok name
    /\ info = {| TableInfo.Name := name;
                 TableInfo.Fields :=
                   filter (fun fi => nonempty (FieldInfo.Name fi) = true)
                     (map (fun f => fst (Mapper.parseField f)) (Fields (typ s)));
                 TableInfo.Engine := EngineMergeTree;
                 TableInfo.Options := ∅ |}.
Proof.
  intros H. destruct (Spec.struct_of model) as [s|] eqn:Hs.
  - destruct (Mapper.getTableName model (typ s)) as [name|e|p] eqn:Hg.
    + rewrite (ParseStruct_struct _ _ _ _ Hs Hg) in H.
      cbn [Mapper.registry Mapper.NewMapper] in H.
      rewrite lookup_empty, parseFields_acc in H. cbn [snd app] in H.
      injection H as <-. exists s, name. repeat split. exact Hg.
    + unfold Mapper.ParseStruct in H. rewrite (deref_struct _ _ Hs), Hg in H.
      discriminate.
    + unfold Mapper.ParseStruct in H. rewrite (deref_struct _ _ Hs), Hg in H.
      discriminate.
  - unfold Mapper.ParseStruct in H.
    destruct (match ObjKind (obj model) with KPtr => Elem (obj model) | _ => obj model end)
      as [|v|s|b t] eqn:Hv; try discriminate.
    apply deref_struct_inv in Hv. congruence.
Qed.










(** X17: the statement [CreateTable] sends does not depend on the order in
    which the run time visits the engine options; it carries no
    argument; and when the descriptor cannot be derived nothing is sent
    and the call does not return nil *)
Theorem CreateTable_statement
    (range_map : gmap string string -> list (string * string))
    (db : DB.t) (w : DB.World) (model : Iface) :
  (forall range_map', DB.CreateTable range_map' db w model
                      = DB.CreateTable range_map db w model)
  /\ match snd (Mapper.ParseStruct Mapper.NewMapper model) with
     | Ok info =>
         exists stmt,
           fst (DB.CreateTable range_map db w model) = w ++ [stmt]
           /\ DB.params stmt = []
           /\ DB.text stmt = Mapper.BuildCreateTableSQL range_map info
     | _ =>
         fst (DB.CreateTable range_map db w model) = w
         /\ snd (DB.CreateTable range_map db w model) <> Ok tt
     end.
Proof.
  split.
  - intros range_map'. unfold DB.CreateTable.
    destruct (snd (Mapper.ParseStruct Mapper.NewMapper model)) as [info|e|p] eqn:Hp;
      try reflexivity.
    destruct (ParseStruct_fresh _ _ Hp) as (s & name & _ & _ & ->).
    rewrite (BuildCreateTableSQL_no_options range_map' range_map) by reflexivity.
    reflexivity.
  - unfold DB.CreateTable.
    destruct (snd (Mapper.ParseStruct Mapper.NewMapper model)) as [info|e|p];
      cbn [fst snd]; [eexists; repeat split| |]; split; try reflexivity; discriminate.
Qed.

End Writes.



Lemma CreateTable_statement_witness :
  fst (DB.CreateTable map_to_list Sample.db [] Sample.empty_record) = []
  /\ exists stmt, fst (DB.CreateTable map_to_list Sample.db [] Sample.plain) = [stmt]
                  /\ DB.params stmt = [].
Proof.
  split.
  - exact (proj1 (proj2 (CreateTable_statement map_to_list Sample.db []
                           Sample.empty_record))).
  - destruct (proj2 (CreateTable_statement map_to_list Sample.db [] Sample.plain))
      as (stmt & H1 & H2 & _).
    exists stmt. split; [exact H1 | exact H2].
Defined.

Section Reads.
Import reflect.
Variable ParseFloat : string -> option fmt.float64.
Variable SprintOther : Value -> string.






(** X20: a value the row setter stores shows when the field is read back, and
    the fields at other positions read as before *)
Theorem row_setter_then_GetFieldValue
    (s : Struct) (fieldName : string) (value v : Value) (i : nat) (field : StructField) :
  Mapper.FieldByName s fieldName = Some (i, field) ->
  PkgPath field = EmptyString ->
  (i < length (vals s))%nat ->
  DB.stored SprintOther (FType field) value = Some v ->
  let pointer_to x := {| obj := OPtr false (OStruct x); tableName := None |} in
  let after := pointer_to (DB.setFieldValue SprintOther s fieldName value) in
  Mapper.GetFieldValue after fieldName = Ok v
  /\ (forall other j field',
         Mapper.FieldByName s other = Some (j, field') -> j <> i ->
         Mapper.GetFieldValue after other = Mapper.GetFieldValue (pointer_to s) other).
Proof.
  intros Hf Hpkg Hi Hst pointer_to after. unfold after, pointer_to, DB.setFieldValue.
  rewrite Hf, Hpkg, Hst. cbn [nonempty String.eqb negb]. split.
  - unfold Mapper.GetFieldValue. cbn [obj ObjKind Elem].
    unfold Mapper.FieldByName in *. cbn [Mapper.set_field typ vals].
    rewrite Hf, Hpkg. cbn [nonempty String.eqb negb].
    rewrite list_lookup_insert_eq by exact Hi. reflexivity.
  - intros other j field' Ho Hj.
    unfold Mapper.GetFieldValue. cbn [obj ObjKind Elem].
    unfold Mapper.FieldByName in *. cbn [Mapper.set_field typ vals].
    rewrite Ho. rewrite list_lookup_insert_ne by congruence. reflexivity.
Qed.

(** X21: the row setter and the conversion switch of the mapper agree: what
    the row setter stores for a value is what the mapper's switch makes of
    it, and it has the type of the field; the row setter stores nothing
    for nil, and it does not parse strings *)
Theorem stored_agrees_with_convert (fieldType : Type_) (value v : Value) :
  DB.stored SprintOther fieldType value = Some v ->
  Mapper.convert ParseFloat SprintOther fieldType value = Some v
  /\ TypeOf v = Some fieldType
  /\ value <> VNil
  /\ (forall t text, value = VStr t text -> KindOf fieldType = KString).
Proof.
  unfold DB.stored, Mapper.convert.
  destruct value as [|t b|t n|t x|t text|t n]; [discriminate| | | | |];
    (destruct (KindOf fieldType) eqn:Hk; try discriminate;
     cbn [DB.int_case DB.uint_case DB.float_case DB.bool_case
          Mapper.int_source Mapper.uint_source Mapper.float_source Mapper.bool_source];
     try discriminate;
     repeat match goal with
            | |- context [if ?c then _ else _] => destruct c
            end;
     try discriminate;
     intros [= <-]; repeat split; try discriminate; try (intros ? ? [=])).
  all: try (intros ? ? _; reflexivity).
Qed.

End Reads.

Section Fetching.
Import reflect Calls.
Variable SprintOther : Value -> string.
Variable QueryContext : list DB.Stmt -> DB.Stmt -> DB.Rows + string.



(** X23: [All] leaves the builder as it was and sends its rendering with its
    argument list, one argument per placeholder on an aligned builder; the
    statement is sent before the destination is looked at, so a
    destination that is not a pointer to a slice costs a round trip and
    then gives an error *)
Theorem All_sends_before_checking_destination
    (q : Query.t) (w : DB.World) (result : DB.Dest) :
  aligned q ->
  fst (fst (fst (Query.All SprintOther QueryContext q w result))) = q
  /\ snd (fst (fst (Query.All SprintOther QueryContext q w result)))
     = w ++ [{| DB.text := Query.buildSQL q; DB.params := Query.args q |}]
  /\ Spec.one_aligned_statement w
       (snd (fst (fst (Query.All SprintOther QueryContext q w result))))
  /\ (result = DB.NotSlicePtr ->
      snd (fst (Query.All SprintOther QueryContext q w result)) = DB.NotSlicePtr
      /\ snd (Query.All SprintOther QueryContext q w result) <> Ok tt).
Proof.
  intros Hq. unfold Query.All, DB.Query.
  destruct (QueryContext w _) as [rows|e]; cbn [fst snd].
  - destruct (DB.scanRows SprintOther rows result) as [dest r] eqn:Hr. cbn [fst snd].
    split; [reflexivity|]. split; [reflexivity|]. split.
    + eexists. split; [reflexivity|]. symmetry. apply aligned_count, Hq.
    + intros ->. cbn in Hr. injection Hr as <- <-. split; [reflexivity|discriminate].
  - split; [reflexivity|]. split; [reflexivity|]. split.
    + eexists. split; [reflexivity|]. symmetry. apply aligned_count, Hq.
    + intros ->. split; [reflexivity|discriminate].
Qed.

(** X24: [Paginate] never reaches its page: the count it starts with scans
    into an integer, which [scanRow] refuses, so the call sends the count
    statement only, returns zero with that error, and leaves the limit,
    the offset, the projections and the destination as they were *)
Theorem Paginate_stops_at_the_count
    (q : Query.t) (w : DB.World) (page perPage : Z) (result : DB.Dest) :
  Query.Paginate SprintOther QueryContext q w page perPage result
  = (q,
     w ++ [{| DB.text := Query.buildSQL (Query.set_selects ["COUNT(*)"] q);
              DB.params := Query.args q |}],
     result,
     Ok (0, Some "result must be a pointer to struct")).
Proof.
  unfold Query.Paginate, Query.Count, DB.QueryRow. rewrite scanRow_scalar.
  rewrite set_selects_back. reflexivity.
Qed.

End Fetching.



Lemma row_setter_then_GetFieldValue_witness :
  let after :=
    {| reflect.obj :=
         reflect.OPtr false
           (reflect.OStruct
              (DB.setFieldValue (fun _ => "?") Sample.plain_value "ID"
                 (reflect.VInt reflect.int64_t (-1))));
       reflect.tableName := None |} in
  Mapper.GetFieldValue after "ID" = Ok (reflect.VInt reflect.uint32_t 4294967295)
  /\ Mapper.GetFieldValue after "Name" = Ok (Sample.str "Ann").
Proof.
  intros after.
  destruct (row_setter_then_GetFieldValue (fun _ => "?") Sample.plain_value "ID"
              (reflect.VInt reflect.int64_t (-1))
              (reflect.VInt reflect.uint32_t 4294967295) 0%nat
              {| reflect.Name := "ID"; reflect.PkgPath := EmptyString;
                 reflect.FType := reflect.uint32_t;
                 reflect.Tag := [("ch_pk", "true")];
                 reflect.Anonymous := false |}
              eq_refl eq_refl ltac:(vm_compute; lia) eq_refl)
    as (Hget & Hother).
  split; [exact Hget|]. unfold after.
  rewrite (Hother "Name" 1%nat
             {| reflect.Name := "Name"; reflect.PkgPath := EmptyString;
                reflect.FType := reflect.string_t; reflect.Tag := [];
                reflect.Anonymous := false |}
             eq_refl ltac:(lia)).
  reflexivity.
Defined.

Lemma stored_agrees_with_convert_witness :
  DB.stored (fun _ => "?") reflect.int8_t (reflect.VInt reflect.uint16_t 300)
  = Some (reflect.VInt reflect.int8_t 44)
  /\ Mapper.convert (fun _ => None) (fun _ => "?") reflect.int8_t
       (reflect.VInt reflect.uint16_t 300)
     = Some (reflect.VInt reflect.int8_t 44).
Proof.
  split; [reflexivity|].
  exact (proj1 (stored_agrees_with_convert (fun _ => None) (fun _ => "?") reflect.int8_t
                  (reflect.VInt reflect.uint16_t 300) (reflect.VInt reflect.int8_t 44)
                  eq_refl)).
Defined.


Lemma All_sends_before_checking_destination_witness :
  let answer : list DB.Stmt -> DB.Stmt -> DB.Rows + string :=
    fun _ _ => inl {| DB.Columns := inl ["ID"]; DB.scans := []; DB.RowsErr := None |} in
  Query.All (fun _ => "?") answer (Query.Where "age > ?" [Sample.int 18] Sample.users) []
    DB.NotSlicePtr
  = (Query.Where "age > ?" [Sample.int 18] Sample.users,
     [{| DB.text := "SELECT * FROM users WHERE age > ?"; DB.params := [Sample.int 18] |}],
     DB.NotSlicePtr,
     Err "result must be a pointer to slice").
Proof.
  intros answer.
  assert (H : Calls.aligned (Query.Where "age > ?" [Sample.int 18] Sample.users)).
  { vm_compute. repeat split. }
  destruct (All_sends_before_checking_destination (fun _ => "?") answer
              (Query.Where "age > ?" [Sample.int 18] Sample.users) [] DB.NotSlicePtr H)
    as (Hq & Hw & _ & Hd).
  destruct (Hd eq_refl) as [Hdest _].
  destruct (Query.All (fun _ => "?") answer
              (Query.Where "age > ?" [Sample.int 18] Sample.users) [] DB.NotSlicePtr)
    as [[[q' w'] dest] r] eqn:E.
  cbn [fst snd] in Hq, Hw, Hdest. rewrite Hq, Hw, Hdest.
  vm_compute in E. injection E as _ _ _ <-. reflexivity.
Defined.

(** * Further properties of the primary key, the rows and the cluster *)

Section PrimaryKey.
Import reflect.




End PrimaryKey.


Section Rows.
Import reflect.

(** X26: the typed getters of a row: a missing key reads as the zero value of
    every getter; a value is seen by at most one of the four typed
    getters; an integer getter cuts a 64-bit unsigned value of the upper
    half of its range to a negative number *)
Theorem Row_getters_read_one_type (r : Row.t) (key : string) :
  (Row.values r !! key = None ->
   Row.Get r key = VNil /\ Row.GetString r key = EmptyString /\ Row.GetInt r key = 0
   /\ Row.GetFloat r key = S754_zero false /\ Row.GetBool r key = false)
  /\ (Row.GetString r key <> EmptyString ->
      Row.GetInt r key = 0 /\ Row.GetFloat r key = S754_zero false
      /\ Row.GetBool r key = false)
  /\ (Row.GetInt r key <> 0 ->
      Row.GetString r key = EmptyString /\ Row.GetFloat r key = S754_zero false
      /\ Row.GetBool r key = false)
  /\ (Row.GetBool r key = true ->
      Row.GetString r key = EmptyString /\ Row.GetInt r key = 0
      /\ Row.GetFloat r key = S754_zero false)
  /\ (forall n, Row.values r !! key = Some (VInt uint64_t n) ->
        2 ^ 63 <= n < 2 ^ 64 -> Row.GetInt r key = n - 2 ^ 64).
Proof.
  unfold Row.Get, Row.GetString, Row.GetInt, Row.GetFloat, Row.GetBool.
  destruct (Row.values r !! key) as [[|t b|t n|t x|t text|t n]|];
    repeat split; try reflexivity; try discriminate; try congruence.
  intros m [= -> ->] Hm. cbn. unfold Mapper.wrap_signed.
  change (2 ^ (64 - 1)) with 9223372036854775808.
  change (2 ^ 64) with 18446744073709551616 in *.
  change (2 ^ 63) with 9223372036854775808 in *.
  replace (m + 9223372036854775808)
    with ((m - 9223372036854775808) + 1 * 18446744073709551616) by lia.
  rewrite Z.mod_add by lia. rewrite Z.mod_small by lia. lia.
Qed.

End Rows.

Lemma Row_getters_read_one_type_witness :
  let r := {| Row.values := {[ "n" := reflect.VInt reflect.uint64_t 18446744073709551615 ]} |} in
  Row.GetInt r "n" = -1 /\ Row.GetString r "n" = EmptyString /\ Row.GetInt r "m" = 0.
Proof.
  intros r.
  destruct (Row_getters_read_one_type r "n") as (_ & _ & Hint & _ & Hwrap).
  destruct (Row_getters_read_one_type r "m") as (Hmiss & _).
  split; [|split].
  - rewrite (Hwrap 18446744073709551615); [reflexivity|reflexivity|lia].
  - apply Hint. rewrite (Hwrap 18446744073709551615); [discriminate|reflexivity|lia].
  - apply Hmiss. reflexivity.
Defined.

Section Balancing.

Lemma wrap_signed_small (x : Z) :
  - 2 ^ 63 <= x < 2 ^ 63 -> Mapper.wrap_signed 64 x = x.
Proof.
  intros H. unfold Mapper.wrap_signed.
  change (2 ^ (64 - 1)) with 9223372036854775808.
  change (2 ^ 64) with 18446744073709551616.
  change (2 ^ 63) with 9223372036854775808 in H.
  rewrite Z.mod_small by lia. lia.
Qed.

Lemma weights_nonneg (nodes : list Cluster.ClusterNode) :
  Forall (fun node => 0 <= Cluster.Weight node) nodes ->
  0 <= foldr Z.add 0 (map Cluster.Weight nodes).
Proof.
  intros H. induction H as [|node nodes Hn H IH]; cbn [map foldr]; lia.
Qed.

Lemma total_weight_exact (nodes : list Cluster.ClusterNode) (total : Z) :
  Forall (fun node => 0 <= Cluster.Weight node) nodes ->
  0 <= total ->
  total + foldr Z.add 0 (map Cluster.Weight nodes) < 2 ^ 63 ->
  fold_left (fun total node => Mapper.wrap_signed 64 (total + Cluster.Weight node))
    nodes total
  = total + foldr Z.add 0 (map Cluster.Weight nodes).
Proof.
  intros H. revert total. induction H as [|node nodes Hn H IH]; intros total Ht Hs;
    cbn [map foldr fold_left] in *; [lia|].
  pose proof (weights_nonneg nodes H) as Hr.
  rewrite wrap_signed_small by lia. rewrite IH by lia. lia.
Qed.

Lemma pick_first_to_reach (half : Z) (nodes : list Cluster.ClusterNode) (current : Z) :
  Forall (fun node => 0 <= Cluster.Weight node) nodes ->
  0 <= current ->
  current + foldr Z.add 0 (map Cluster.Weight nodes) < 2 ^ 63 ->
  half <= current + foldr Z.add 0 (map Cluster.Weight nodes) ->
  nodes <> [] ->
  exists before node after,
    nodes = before ++ node :: after
    /\ Cluster.pick half current nodes = Some node
    /\ half <= current + foldr Z.add 0 (map Cluster.Weight before) + Cluster.Weight node
    /\ (forall b1 n b2,
          before = b1 ++ n :: b2 ->
          current + foldr Z.add 0 (map Cluster.Weight b1) + Cluster.Weight n < half).
Proof.
  intros H. revert current.
  induction H as [|node nodes Hn H IH]; intros current Hc Hs Hh Hne; [congruence|].
  cbn [map foldr] in Hs, Hh. pose proof (weights_nonneg nodes H) as Hr.
  cbn [Cluster.pick]. rewrite wrap_signed_small by lia.
  destruct (Z.leb_spec half (current + Cluster.Weight node)) as [Hle|Hlt].
  - exists [], node, nodes. cbn [app map foldr]. repeat split; try lia.
    intros [|b b1] n b2 Hb; discriminate Hb.
  - destruct nodes as [|node' nodes'] eqn:En; [cbn [map foldr] in Hh; lia|].
    rewrite <- En in *.
    destruct (IH (current + Cluster.Weight node)) as (before & x & after & -> & Hp & Hx & Hb);
      try lia; [rewrite En; discriminate|].
    exists (node :: before), x, after. cbn [app map foldr]. repeat split; try lia.
    + exact Hp.
    + intros [|b b1] n b2 Hsplit; cbn [app] in Hsplit; injection Hsplit as -> ->.
      * cbn [map foldr]. lia.
      * cbn [map foldr]. specialize (Hb b1 n b2 eq_refl). lia.
Qed.

(** X27: [GetNodeByWeight] returns no node exactly when no node is healthy,
    and the node it returns is a healthy node of the cluster *)
Theorem GetNodeByWeight_returns_healthy_node (c : Cluster.t) :
  (Cluster.GetNodeByWeight c = None <-> Cluster.GetHealthyNodes c = [])
  /\ (forall node, Cluster.GetNodeByWeight c = Some node ->
        In node (Cluster.Nodes c) /\ Cluster.Healthy node = true).
Proof.
  assert (Hpick : forall half nodes current node,
             Cluster.pick half current nodes = Some node -> In node nodes).
  { intros half nodes. induction nodes as [|n nodes IH]; intros current node H;
      [discriminate|].
    cbn [Cluster.pick] in H.
    destruct (half <=? _); [injection H as <-; left; reflexivity|].
    right. eapply IH, H. }
  assert (Hin : forall node, In node (Cluster.GetHealthyNodes c) ->
                  In node (Cluster.Nodes c) /\ Cluster.Healthy node = true).
  { intros node H. unfold Cluster.GetHealthyNodes in H.
    apply List.filter_In in H. exact H. }
  unfold Cluster.GetNodeByWeight. cbv zeta.
  destruct (Cluster.GetHealthyNodes c) as [|first healthy] eqn:E.
  - split; [split; reflexivity|discriminate].
  - split; [split; [|discriminate]|].
    + destruct (_ =? 0); [discriminate|]. destruct (Cluster.pick _ _ _); discriminate.
    + intros node H. apply Hin.
      destruct (_ =? 0); [injection H as <-; left; reflexivity|].
      destruct (Cluster.pick _ 0 (first :: healthy)) as [x|] eqn:Hp.
      * injection H as <-. eapply Hpick, Hp.
      * injection H as <-. left. reflexivity.
Qed.

(** X28: with weights that are not negative and add up below the largest
    64-bit integer, [GetNodeByWeight] returns the first healthy
    node at which the running sum of the weights reaches half of their
    total: the node is the same on every call, and the fall-back to the
    first node after the loop is never taken *)
Theorem GetNodeByWeight_first_to_reach_half (c : Cluster.t) :
  Cluster.GetHealthyNodes c <> [] ->
  Forall (fun node => 0 <= Cluster.Weight node) (Cluster.GetHealthyNodes c) ->
  foldr Z.add 0 (map Cluster.Weight (Cluster.GetHealthyNodes c)) < 2 ^ 63 ->
  let half := Z.quot (foldr Z.add 0 (map Cluster.Weight (Cluster.GetHealthyNodes c))) 2 in
  exists before node after,
    Cluster.GetHealthyNodes c = before ++ node :: after
    /\ Cluster.GetNodeByWeight c = Some node
    /\ half <= foldr Z.add 0 (map Cluster.Weight before) + Cluster.Weight node
    /\ (forall b1 n b2,
          before = b1 ++ n :: b2 ->
          foldr Z.add 0 (map Cluster.Weight b1) + Cluster.Weight n < half).
Proof.
  intros Hne Hw Hs half. unfold Cluster.GetNodeByWeight. cbv zeta.
  pose proof (weights_nonneg _ Hw) as Hr.
  assert (Ht : Cluster.total_weight (Cluster.GetHealthyNodes c)
               = foldr Z.add 0 (map Cluster.Weight (Cluster.GetHealthyNodes c))).
  { unfold Cluster.total_weight. rewrite total_weight_exact by (auto; lia). lia. }
  assert (Hhalf : 0 <= half
                  /\ half <= foldr Z.add 0 (map Cluster.Weight (Cluster.GetHealthyNodes c))).
  { unfold half. split; [apply Z.quot_pos; lia|].
    apply Z.quot_le_upper_bound; lia. }
  destruct (Cluster.GetHealthyNodes c) as [|first healthy] eqn:E; [congruence|].
  rewrite Ht. fold half.
  destruct (Z.eqb_spec (foldr Z.add 0 (map Cluster.Weight (first :: healthy))) 0)
    as [Hz|Hnz].
  - exists [], first, healthy. cbn [app map foldr] in *.
    inversion Hw; subst. repeat split; try lia.
    intros [|b b1] n b2 Hb; discriminate Hb.
  - destruct (pick_first_to_reach half (first :: healthy) 0 Hw) as
      (before & node & after & Hsplit & Hp & Hx & Hb); try lia; [discriminate|].
    rewrite Hp. exists before, node, after. repeat split; try lia; [exact Hsplit|].
    intros b1 n b2 Hb1. specialize (Hb b1 n b2 Hb1). lia.
Qed.

(** X29: [RemoveNode] takes out the first node with the given host and port
    and nothing else: the nodes before and after it stay, in their
    order, also a later node with the same host and port; without such a
    node the cluster is as it was; and removing a node that was just
    added under an address no other node has gives the cluster back *)
Theorem RemoveNode_takes_out_first_match (host : string) (port : Z) (c : Cluster.t) :
  let matches node := String.eqb (Cluster.Host node) host && Z.eqb (Cluster.Port node) port in
  (Forall (fun node => matches node = false) (Cluster.Nodes c) ->
   Cluster.RemoveNode host port c = c)
  /\ (forall before node after,
        Cluster.Nodes c = before ++ node :: after ->
        Forall (fun node => matches node = false) before ->
        matches node = true ->
        Cluster.Nodes (Cluster.RemoveNode host port c) = before ++ after)
  /\ (forall node,
        Forall (fun node => matches node = false) (Cluster.Nodes c) ->
        matches node = true ->
        Cluster.RemoveNode host port (Cluster.AddNode node c) = c).
Proof.
  intros matches.
  assert (Hsplit : forall before node after,
             Forall (fun node => matches node = false) before ->
             matches node = true ->
             Cluster.remove_first host port (before ++ node :: after) = before ++ after).
  { intros before node after Hb Hm.
    induction Hb as [|b before Hb _ IH]; cbn [app Cluster.remove_first].
    - unfold matches in Hm. rewrite Hm. reflexivity.
    - unfold matches in Hb. rewrite Hb, IH. reflexivity. }
  assert (Hnone : forall nodes,
             Forall (fun node => matches node = false) nodes ->
             Cluster.remove_first host port nodes = nodes).
  { intros nodes H. induction H as [|b nodes Hb _ IH]; cbn [Cluster.remove_first];
      [reflexivity|].
    unfold matches in Hb. rewrite Hb, IH. reflexivity. }
  split; [|split].
  - intros H. unfold Cluster.RemoveNode. rewrite (Hnone _ H). destruct c; reflexivity.
  - intros before node after Hn Hb Hm. unfold Cluster.RemoveNode.
    cbn [Cluster.Nodes]. rewrite Hn. apply Hsplit; assumption.
  - intros node H Hm. unfold Cluster.RemoveNode, Cluster.AddNode.
    cbn [Cluster.Nodes Cluster.Name]. rewrite (Hsplit _ node [] H Hm), app_nil_r.
    destruct c; reflexivity.
Qed.

End Balancing.

Lemma GetNodeByWeight_returns_healthy_node_witness :
  Cluster.GetNodeByWeight Sample.cluster = Some (Sample.node "c" 3 true)
  /\ In (Sample.node "c" 3 true) (Cluster.Nodes Sample.cluster)
  /\ Cluster.GetNodeByWeight (Cluster.AddNode (Sample.node "b" 5 false)
                                (Cluster.NewCluster "main")) = None.
Proof.
  split; [reflexivity|]. split.
  - exact (proj1 (proj2 (GetNodeByWeight_returns_healthy_node Sample.cluster)
                    (Sample.node "c" 3 true) eq_refl)).
  - apply (proj1 (GetNodeByWeight_returns_healthy_node _)). reflexivity.
Defined.

Lemma GetNodeByWeight_first_to_reach_half_witness :
  exists before node after,
    Cluster.GetHealthyNodes Sample.cluster = before ++ node :: after
    /\ Cluster.GetNodeByWeight Sample.cluster = Some node
    /\ 2 <= foldr Z.add 0 (map Cluster.Weight before) + Cluster.Weight node.
Proof.
  destruct (GetNodeByWeight_first_to_reach_half Sample.cluster)
    as (before & node & after & H1 & H2 & H3 & _).
  - vm_compute. discriminate.
  - repeat constructor; vm_compute; discriminate.
  - vm_compute. reflexivity.
  - exists before, node, after. split; [exact H1|]. split; [exact H2|exact H3].
Defined.

Lemma RemoveNode_takes_out_first_match_witness :
  Cluster.Nodes (Cluster.RemoveNode "b" 9000 Sample.cluster)
  = [Sample.node "a" 1 true; Sample.node "c" 3 true]
  /\ Cluster.RemoveNode "d" 9000 (Cluster.AddNode (Sample.node "d" 2 true) Sample.cluster)
     = Sample.cluster.
Proof.
  split.
  - apply (proj1 (proj2 (RemoveNode_takes_out_first_match "b" 9000 Sample.cluster))
             [Sample.node "a" 1 true] (Sample.node "b" 5 false) [Sample.node "c" 3 true]).
    + reflexivity.
    + repeat constructor.
    + reflexivity.
  - apply (proj2 (proj2 (RemoveNode_takes_out_first_match "d" 9000 Sample.cluster))).
    + repeat constructor.
    + reflexivity.
Defined.
